(** * Wardrobe Studio: the local persistence store and its callers

    A shallow embedding of [Storage] (IndexedDB object stores plus
    localStorage settings), of the [App] and [DragDrop] actions that call
    it, and of [Weather.fetchWeather], followed by the properties of the
    trash lifecycle, the weekly planner, the settings access, the backup
    format and the weather cache.

    Conventions of the embedding.
    - An object store with [keyPath: 'id'] is a finite map from the key to
      the remaining fields of the record: the key of a stored record *is*
      its [id] property.  A record handed to [put] is a pair of an optional
      id and its fields.
    - Identifiers are the keys the application produces: the numbers of
      IndexedDB's key generator (1, 2, ...) and [Date.now()]-based numbers.
      They are strictly positive, so the JavaScript test [if (x.imageId)]
      is the test that the optional reference is present.
    - Every asynchronous call is awaited by its caller before the next one
      is issued, so a sequence of awaits is a sequence of state
      transformers.  DOM effects (toasts, re-rendering) do not touch the
      store and are left out. *)

From stdpp Require Import gmap strings list fin_maps sorting.
From Stdlib Require Import ZArith Ascii String DecimalString DecimalPos DecimalZ.

Open Scope string_scope.
Open Scope list_scope.

(** ** Records of the data model *)

Definition Id := positive.

Record Item := mkItem {
  imageId : option Id;
  category : string;
  favorite : bool;
  laundry : bool;
  deleted : option bool;
  dateAdded : string;
  deletedDate : option string;
  originalCategory : option string
}.

Definition set_deleted (v : option bool) (it : Item) : Item :=
  mkItem (imageId it) (category it) (favorite it) (laundry it) v
         (dateAdded it) (deletedDate it) (originalCategory it).

Definition set_category (c : string) (it : Item) : Item :=
  mkItem (imageId it) c (favorite it) (laundry it) (deleted it)
         (dateAdded it) (deletedDate it) (originalCategory it).

Definition set_deletedDate (v : option string) (it : Item) : Item :=
  mkItem (imageId it) (category it) (favorite it) (laundry it) (deleted it)
         (dateAdded it) v (originalCategory it).

Definition set_originalCategory (v : option string) (it : Item) : Item :=
  mkItem (imageId it) (category it) (favorite it) (laundry it) (deleted it)
         (dateAdded it) (deletedDate it) v.

Definition set_favorite (b : bool) (it : Item) : Item :=
  mkItem (imageId it) (category it) b (laundry it) (deleted it)
         (dateAdded it) (deletedDate it) (originalCategory it).

(** A weekly plan record is keyed by its [day]. *)
Record DayPlan := mkDayPlan {
  dtype : string;
  ditems : list Id;
  dnotes : string
}.

Definition set_ditems (l : list Id) (d : DayPlan) : DayPlan :=
  mkDayPlan (dtype d) l (dnotes d).

Record Outfit := mkOutfit {
  oitems : list Id;
  onotes : string;
  odate : string
}.

Record CustomSection := mkSection { sname : string }.

Record ShoppingItem := mkShoppingItem {
  sh_name : string;
  sh_desc : string;
  sh_price : string;
  sh_imageId : option Id
}.

(** ** Object stores *)

(** A store created with [autoIncrement: true]: its rows and the current
    number of its key generator.  [put] without a key takes the generator's
    number; [put] with a key at or above it moves the generator past that
    key; [clear] empties the rows and leaves the generator alone. *)
Record Table (V : Type) := mkTable {
  rows : gmap Id V;
  keygen : Id
}.
Arguments mkTable {V} _ _.
Arguments rows {V} _.
Arguments keygen {V} _.

Definition empty_table {V} : Table V := mkTable ∅ 1%positive.

Definition table_put {V} (k : option Id) (v : V) (t : Table V) : Id * Table V :=
  match k with
  | Some k => (k, mkTable (<[k := v]> (rows t)) (Pos.max (keygen t) (Pos.succ k)))
  | None => (keygen t, mkTable (<[keygen t := v]> (rows t)) (Pos.succ (keygen t)))
  end.

Definition table_delete {V} (k : Id) (t : Table V) : Table V :=
  mkTable (delete k (rows t)) (keygen t).

Definition table_clear {V} (t : Table V) : Table V :=
  mkTable ∅ (keygen t).

(** The whole persistent state: the seven object stores of [Storage.init]
    and the localStorage area used for settings. *)
Record Store := mkStore {
  items : Table Item;
  images : gmap Id string;
  weeklyPlan : gmap string DayPlan;
  savedOutfits : Table Outfit;
  customSections : Table CustomSection;
  shoppingList : Table ShoppingItem;
  trash : gmap Id Item;
  localStorage : gmap string string
}.

Definition set_items (x : Table Item) (s : Store) : Store :=
  mkStore x (images s) (weeklyPlan s) (savedOutfits s) (customSections s)
          (shoppingList s) (trash s) (localStorage s).
Definition set_images (x : gmap Id string) (s : Store) : Store :=
  mkStore (items s) x (weeklyPlan s) (savedOutfits s) (customSections s)
          (shoppingList s) (trash s) (localStorage s).
Definition set_weeklyPlan (x : gmap string DayPlan) (s : Store) : Store :=
  mkStore (items s) (images s) x (savedOutfits s) (customSections s)
          (shoppingList s) (trash s) (localStorage s).
Definition set_savedOutfits (x : Table Outfit) (s : Store) : Store :=
  mkStore (items s) (images s) (weeklyPlan s) x (customSections s)
          (shoppingList s) (trash s) (localStorage s).
Definition set_customSections (x : Table CustomSection) (s : Store) : Store :=
  mkStore (items s) (images s) (weeklyPlan s) (savedOutfits s) x
          (shoppingList s) (trash s) (localStorage s).
Definition set_shoppingList (x : Table ShoppingItem) (s : Store) : Store :=
  mkStore (items s) (images s) (weeklyPlan s) (savedOutfits s)
          (customSections s) x (trash s) (localStorage s).
Definition set_trash (x : gmap Id Item) (s : Store) : Store :=
  mkStore (items s) (images s) (weeklyPlan s) (savedOutfits s)
          (customSections s) (shoppingList s) x (localStorage s).
Definition set_localStorage (x : gmap string string) (s : Store) : Store :=
  mkStore (items s) (images s) (weeklyPlan s) (savedOutfits s)
          (customSections s) (shoppingList s) (trash s) x.

(** The state of a freshly created database. *)
Definition empty_store : Store :=
  mkStore empty_table ∅ ∅ empty_table empty_table empty_table ∅ ∅.

(** ** The monad of store actions

    An action transforms the store, may throw, and records the write
    requests and the network requests it issues, in program order. *)

Inductive StoreKey :=
  | KId (k : Id)
  | KName (s : string).

Inductive Event :=
  | EvClear (store : string)
  | EvPut (store : string) (key : StoreKey)
  | EvDelete (store : string) (key : StoreKey)
  | EvSetItem (key : string) (value : string)
  | EvFetch (url : string).

Inductive Outcome (A : Type) :=
  | Done (a : A)
  | Thrown (msg : string).
Arguments Done {A} _.
Arguments Thrown {A} _.

Definition M (A : Type) : Type := Store → Outcome A * Store * list Event.

Definition M_ret {A} (a : A) : M A := λ s, (Done a, s, []).

Definition M_bind {A B} (k : A → M B) (m : M A) : M B := λ s,
  match m s with
  | (Done a, s1, l1) =>
      match k a s1 with
      | (r, s2, l2) => (r, s2, l1 ++ l2)
      end
  | (Thrown e, s1, l1) => (Thrown e, s1, l1)
  end.

#[global] Instance M_MRet : MRet M := @M_ret.
#[global] Instance M_MBind : MBind M := @M_bind.

Definition throw {A} (msg : string) : M A := λ s, (Thrown msg, s, []).

(** [for (const x of l) { await f(x) }] *)
Fixpoint for_each {A} (l : list A) (f : A → M unit) : M unit :=
  match l with
  | [] => mret tt
  | x :: l' => f x ;; for_each l' f
  end.

Definition result_of {A} (r : Outcome A * Store * list Event) : Outcome A := r.1.1.
Definition store_of {A} (r : Outcome A * Store * list Event) : Store := r.1.2.
Definition log_of {A} (r : Outcome A * Store * list Event) : list Event := r.2.

(** A read of the store, and a write that records its request. *)
Definition reads {A} (f : Store → A) : M A := λ s, (Done (f s), s, []).
Definition writes (ev : Event) (f : Store → Store) : M unit :=
  λ s, (Done tt, f s, [ev]).

(** [store.getAll()] returns the records in ascending key order. *)
Definition key_le {V} (a b : Id * V) : Prop := (a.1 ≤ b.1)%positive.
Definition name_le {V} (a b : string * V) : Prop := String.leb a.1 b.1 = true.

#[global] Instance key_le_dec {V} : RelDecision (@key_le V).
Proof. intros a b. unfold key_le. apply _. Defined.
#[global] Instance name_le_dec {V} : RelDecision (@name_le V).
Proof. intros a b. unfold name_le. apply _. Defined.

Definition get_all {V} (m : gmap Id V) : list (Id * V) :=
  merge_sort key_le (map_to_list m).
Definition get_all_named {V} (m : gmap string V) : list (string * V) :=
  merge_sort name_le (map_to_list m).

(** ** JavaScript values held in settings, and JSON

    [JSON.parse] and [JSON.stringify] are the platform's.  A number is a
    double; [JNum] holds the text the platform prints for it
    ([Number::toString]), and [JSON.parse] reads a literal to that text, see
    [JSON.Number.number_text].  The only number the code computes with
    after reading it back is the timestamp of the weather cache, see
    [Weather.to_number].  A [\uXXXX] escape is decoded to the UTF-8 bytes of
    its code unit. *)

#[local] Set Warnings "-register-all".
Inductive JsVal :=
  | JNull
  | JBool (b : bool)
  | JNum (text : string)
  | JStr (s : string)
  | JArr (elements : list JsVal)
  | JObj (members : list (string * JsVal)).

Module JSON.

(** The double quote character. *)
Definition dquote : ascii := ascii_of_nat 34.

Definition is_ws (c : ascii) : bool :=
  let n := nat_of_ascii c in
  ((n =? 32) || (n =? 9) || (n =? 10) || (n =? 13))%nat.

Fixpoint skip_ws (s : string) : string :=
  match s with
  | String c r => if is_ws c then skip_ws r else s
  | EmptyString => s
  end.

Definition is_digit (c : ascii) : bool :=
  let n := nat_of_ascii c in ((48 <=? n) && (n <=? 57))%nat.

(** The longest prefix of digits, and the rest. *)
Fixpoint span_digits (s : string) : string * string :=
  match s with
  | String c r =>
      if is_digit c then
        let '(d, r') := span_digits r in (String c d, r')
      else ("", s)
  | EmptyString => ("", "")
  end.

Fixpoint strip_prefix (p s : string) : option string :=
  match p, s with
  | EmptyString, _ => Some s
  | String a p', String b s' =>
      if Ascii.eqb a b then strip_prefix p' s' else None
  | String _ _, EmptyString => None
  end.

Definition parse_exponent (acc s : string) : option (string * string) :=
  match s with
  | String e r =>
      if Ascii.eqb e "e" || Ascii.eqb e "E" then
        let '(sign, r1) :=
          match r with
          | String g r0 =>
              if Ascii.eqb g "+" || Ascii.eqb g "-"
              then (String g "", r0) else ("", r)
          | EmptyString => ("", r)
          end in
        let '(ds, r2) := span_digits r1 in
        if decide (ds = "") then None
        else Some (acc +:+ String e sign +:+ ds, r2)
      else Some (acc, s)
  | EmptyString => Some (acc, s)
  end.

Definition parse_fraction (acc s : string) : option (string * string) :=
  match s with
  | String c r =>
      if Ascii.eqb c "." then
        let '(ds, r1) := span_digits r in
        if decide (ds = "") then None
        else parse_exponent (acc +:+ String c ds) r1
      else parse_exponent acc s
  | EmptyString => Some (acc, s)
  end.

(** An optional minus, then 0 or a non-zero digit followed by digits,
    then an optional fraction (a dot and digits), then an optional
    exponent (e or E, an optional sign, digits). *)
Definition parse_number (s : string) : option (string * string) :=
  let '(sign, s1) :=
    match s with
    | String c r => if Ascii.eqb c "-" then ("-", r) else ("", s)
    | EmptyString => ("", s)
    end in
  match s1 with
  | String c r =>
      if Ascii.eqb c "0" then parse_fraction (sign +:+ "0") r
      else if is_digit c then
        let '(ds, r1) := span_digits s1 in parse_fraction (sign +:+ ds) r1
      else None
  | EmptyString => None
  end.

(** *** Numbers

    [JSON.parse] rounds a literal to the nearest double, ties to the even
    mantissa, and [Number::toString] prints the shortest digits that read
    back as that double. *)

Module Number.
#[local] Open Scope Z_scope.

(** The value of a string of digits, and the digits of a value. *)
Fixpoint digits_value (acc : Z) (s : string) : Z :=
  match s with
  | String c r => digits_value (10 * acc + (Z.of_nat (nat_of_ascii c) - 48)) r
  | EmptyString => acc
  end.

Definition digits_of (z : Z) : string :=
  NilZero.string_of_uint (N.to_uint (Z.to_N z)).

(** A number literal as sign, mantissa and decimal exponent: the literal
    denotes [mantissa * 10 ^ exponent], negated when the sign says so.
    [None] for a text that is not a number literal. *)
Definition read_literal (s : string) : option (bool * Z * Z) :=
  let '(neg, s1) :=
    match s with
    | String c r => if Ascii.eqb c "-" then (true, r) else (false, s)
    | EmptyString => (false, s)
    end in
  let '(ip, s2) := span_digits s1 in
  if String.eqb ip "" then None
  else
    let frac :=
      match s2 with
      | String c r =>
          if Ascii.eqb c "." then
            let '(fp, s3) := span_digits r in
            if String.eqb fp "" then None else Some (fp, s3)
          else Some ("", s2)
      | EmptyString => Some ("", s2)
      end in
    match frac with
    | None => None
    | Some (fp, s3) =>
        let mant := digits_value 0 (ip +:+ fp) in
        let shift := Z.of_nat (String.length fp) in
        match s3 with
        | EmptyString => Some (neg, mant, - shift)
        | String e r =>
            if Ascii.eqb e "e" || Ascii.eqb e "E" then
              let '(eneg, r1) :=
                match r with
                | String g r0 =>
                    if Ascii.eqb g "-" then (true, r0)
                    else if Ascii.eqb g "+" then (false, r0)
                    else (false, r)
                | EmptyString => (false, r)
                end in
              let '(ds, r2) := span_digits r1 in
              if String.eqb ds "" then None
              else if negb (String.eqb r2 "") then None
              else
                let ev := digits_value 0 ds in
                Some (neg, mant, (if eneg then - ev else ev) - shift)
            else None
        end
    end.

(** The magnitude of a double: zero, [mantissa * 2 ^ exponent] with a
    mantissa below [2 ^ 53] and an exponent from -1074 to 971, or
    infinity. *)
Inductive Double :=
  | DZero
  | DFinite (mantissa exponent : Z)
  | DInfinity.

Definition Double_eqb (a b : Double) : bool :=
  match a, b with
  | DZero, DZero | DInfinity, DInfinity => true
  | DFinite q k, DFinite q' k' => (q =? q') && (k =? k')
  | _, _ => false
  end.

(** The double nearest to [num / den], for positive [num] and [den]. *)
Definition round_pos (num den : Z) : Double :=
  let k0 := Z.log2 num - Z.log2 den - 52 in
  let quot k := if 0 <=? k then num / (den * 2 ^ k) else (num * 2 ^ (- k)) / den in
  let q0 := quot k0 in
  let k1 := if q0 <? 2 ^ 52 then k0 - 1
            else if 2 ^ 53 <=? q0 then k0 + 1 else k0 in
  let k := Z.max k1 (-1074) in
  let n := if 0 <=? k then num else num * 2 ^ (- k) in
  let d := if 0 <=? k then den * 2 ^ k else den in
  let q := n / d in
  let r := n mod d in
  let q' := if (d <? 2 * r) || ((d =? 2 * r) && Z.odd q) then q + 1 else q in
  let '(q2, k2) := if q' =? 2 ^ 53 then (2 ^ 52, k + 1) else (q', k) in
  if q2 =? 0 then DZero
  else if 971 <? k2 then DInfinity
  else DFinite q2 k2.

(** The double that [mant * 10 ^ exp] reads as. *)
Definition double_of (mant exp : Z) : Double :=
  if mant =? 0 then DZero
  else
    let len := Z.of_nat (String.length (digits_of mant)) in
    if 310 <=? exp + len - 1 then DInfinity
    else if exp + len <=? -330 then DZero
    else if 0 <=? exp then round_pos (mant * 10 ^ exp) 1
    else round_pos mant (10 ^ (- exp)).

(** [xn / xd < 10 ^ e] *)
Definition below_pow10 (xn xd e : Z) : bool :=
  if 0 <=? e then xn <? 10 ^ e * xd else xn * 10 ^ (- e) <? xd.

Fixpoint adjust_up (fuel : nat) (xn xd e : Z) : Z :=
  match fuel with
  | O => e
  | S f => if below_pow10 xn xd e then e else adjust_up f xn xd (e + 1)
  end.

Fixpoint adjust_down (fuel : nat) (xn xd e : Z) : Z :=
  match fuel with
  | O => e
  | S f => if below_pow10 xn xd (e - 1) then adjust_down f xn xd (e - 1) else e
  end.

(** The [e] with [10 ^ (e - 1) <= xn / xd < 10 ^ e], from an estimate
    that is off by one at most. *)
Definition decimal_exponent (xn xd : Z) : Z :=
  let est := ((Z.log2 xn - Z.log2 xd) * 30103) / 100000 in
  adjust_down 8 xn xd (adjust_up 8 xn xd est).

(** The shortest digits that read back as the double [q * 2 ^ k], as an
    integer [c] and an exponent [e] with [c * 10 ^ e] the decimal: with
    [n] digits, the decimals next below and next above the double are
    tried, and of two that read back as it the nearer is taken. *)
Fixpoint shortest_from (fuel : nat) (n : Z) (q k xn xd e : Z) : Z * Z :=
  let scn := if 0 <=? n - e then xn * 10 ^ (n - e) else xn in
  let scd := if 0 <=? n - e then xd else xd * 10 ^ (e - n) in
  let lo := scn / scd in
  let hi := lo + 1 in
  let reads c := Double_eqb (double_of c (e - n)) (DFinite q k) in
  let lo_ok := reads lo in
  let hi_ok := reads hi in
  let pick :=
    if lo_ok && hi_ok then
      let twice := 2 * scn - (2 * lo + 1) * scd in
      if twice <? 0 then Some lo
      else if 0 <? twice then Some hi
      else Some (if Z.even lo then lo else hi)
    else if lo_ok then Some lo
    else if hi_ok then Some hi
    else None in
  match pick, fuel with
  | Some c, _ => (c, e - n)
  | None, S f => shortest_from f (n + 1) q k xn xd e
  | None, O => (lo, e - n)
  end.

Definition shortest (q k : Z) : Z * Z :=
  let xn := if 0 <=? k then q * 2 ^ k else q in
  let xd := if 0 <=? k then 1 else 2 ^ (- k) in
  shortest_from 17 1 q k xn xd (decimal_exponent xn xd).

Fixpoint rev_string (acc s : string) : string :=
  match s with
  | String c r => rev_string (String c acc) r
  | EmptyString => acc
  end.

Fixpoint strip_zeros (s : string) : string :=
  match s with
  | String c r => if Ascii.eqb c "0" then strip_zeros r else s
  | EmptyString => s
  end.

Fixpoint zeros (n : nat) : string :=
  match n with
  | O => ""
  | S m => String "0" (zeros m)
  end.

Fixpoint take_chars (n : nat) (s : string) : string :=
  match n, s with
  | S m, String c r => String c (take_chars m r)
  | _, _ => ""
  end.

Fixpoint drop_chars (n : nat) (s : string) : string :=
  match n, s with
  | S m, String c r => drop_chars m r
  | _, _ => s
  end.

(** [Number::toString] for the digits [ds] of a value in
    [10 ^ (k - 1), 10 ^ k): plain digits up to [10 ^ 21], a leading
    ["0."] down to [10 ^ -6], the exponent form beyond. *)
Definition format_digits (ds : string) (k : Z) : string :=
  let n := Z.of_nat (String.length ds) in
  if (n <=? k) && (k <=? 21) then ds +:+ zeros (Z.to_nat (k - n))
  else if (0 <? k) && (k <=? 21) then
    take_chars (Z.to_nat k) ds +:+ "." +:+ drop_chars (Z.to_nat k) ds
  else if (-6 <? k) && (k <=? 0) then
    "0." +:+ zeros (Z.to_nat (- k)) +:+ ds
  else
    let e := k - 1 in
    let tail := (if e <? 0 then "e-" else "e+") +:+ digits_of (Z.abs e) in
    match ds with
    | String c EmptyString => ds +:+ tail
    | String c r => String c ("." +:+ r) +:+ tail
    | EmptyString => tail
    end.

(** The text the platform prints for the number a literal reads as; a
    text that is not a number literal (such as [Infinity]) is left as it
    is. *)
Definition number_text (literal : string) : string :=
  match read_literal literal with
  | None => literal
  | Some (neg, mant, exp) =>
      match double_of mant exp with
      | DZero => "0"
      | DInfinity => if neg then "-Infinity" else "Infinity"
      | DFinite q k =>
          let '(c, e) := shortest q k in
          let all := digits_of c in
          let ds := rev_string "" (strip_zeros (rev_string "" all)) in
          let kjs := e + Z.of_nat (String.length all) in
          (if neg then "-" else "") +:+ format_digits ds kjs
      end
  end.

End Number.

Definition hex_value (c : ascii) : option N :=
  let n := N_of_ascii c in
  if (48 <=? n)%N && (n <=? 57)%N then Some (n - 48)%N
  else if (65 <=? n)%N && (n <=? 70)%N then Some (n - 55)%N
  else if (97 <=? n)%N && (n <=? 102)%N then Some (n - 87)%N
  else None.

Definition utf8 (u : N) : string :=
  if (u <? 128)%N then String (ascii_of_N u) ""
  else if (u <? 2048)%N then
    String (ascii_of_N (192 + u / 64))
      (String (ascii_of_N (128 + u mod 64)) "")
  else
    String (ascii_of_N (224 + u / 4096))
      (String (ascii_of_N (128 + (u / 64) mod 64))
         (String (ascii_of_N (128 + u mod 64)) "")).

Definition simple_escape (c : ascii) : option ascii :=
  if Ascii.eqb c dquote then Some dquote
  else if Ascii.eqb c "\" then Some "\"%char
  else if Ascii.eqb c "/" then Some "/"%char
  else if Ascii.eqb c "b" then Some (ascii_of_nat 8)
  else if Ascii.eqb c "f" then Some (ascii_of_nat 12)
  else if Ascii.eqb c "n" then Some (ascii_of_nat 10)
  else if Ascii.eqb c "r" then Some (ascii_of_nat 13)
  else if Ascii.eqb c "t" then Some (ascii_of_nat 9)
  else None.

(** The characters of a string literal after its opening quote, up to
    and including the closing quote. *)
Fixpoint parse_string (s : string) : option (string * string) :=
  match s with
  | EmptyString => None
  | String c r =>
      if Ascii.eqb c dquote then Some ("", r)
      else if Ascii.eqb c "\" then
        match r with
        | String e r1 =>
            if Ascii.eqb e "u" then
              match r1 with
              | String h1 (String h2 (String h3 (String h4 r2))) =>
                  match hex_value h1, hex_value h2, hex_value h3, hex_value h4 with
                  | Some a, Some b, Some c', Some d =>
                      match parse_string r2 with
                      | Some (t, rest) =>
                          Some (utf8 (((a * 16 + b) * 16 + c') * 16 + d)%N +:+ t, rest)
                      | None => None
                      end
                  | _, _, _, _ => None
                  end
              | _ => None
              end
            else
              match simple_escape e with
              | Some x =>
                  match parse_string r1 with
                  | Some (t, rest) => Some (String x t, rest)
                  | None => None
                  end
              | None => None
              end
        | EmptyString => None
        end
      else if (nat_of_ascii c <? 32)%nat then None
      else
        match parse_string r with
        | Some (t, rest) => Some (String c t, rest)
        | None => None
        end
  end.

(** A value, the elements of an array after the first, the members of an
    object after the first.  Every recursive call has consumed at least
    one character, so fuel beyond the length of the text is never used up
    (proved below as [parse_fuel_independent]). *)
Fixpoint parse_value (fuel : nat) (s : string) : option (JsVal * string) :=
  match fuel with
  | O => None
  | S fuel =>
      match skip_ws s with
      | EmptyString => None
      | String c r as s0 =>
          if Ascii.eqb c "n" then
            r' ← strip_prefix "null" s0; Some (JNull, r')
          else if Ascii.eqb c "t" then
            r' ← strip_prefix "true" s0; Some (JBool true, r')
          else if Ascii.eqb c "f" then
            r' ← strip_prefix "false" s0; Some (JBool false, r')
          else if Ascii.eqb c dquote then
            '(t, r') ← parse_string r; Some (JStr t, r')
          else if Ascii.eqb c "[" then
            match skip_ws r with
            | String c1 r1 as r0 =>
                if Ascii.eqb c1 "]" then Some (JArr [], r1)
                else
                  '(v, r2) ← parse_value fuel r0;
                  '(vs, r3) ← parse_elements fuel r2;
                  Some (JArr (v :: vs), r3)
            | EmptyString => None
            end
          else if Ascii.eqb c "{" then
            match skip_ws r with
            | String c1 r1 as r0 =>
                if Ascii.eqb c1 "}" then Some (JObj [], r1)
                else
                  '(m, r2) ← parse_member fuel r0;
                  '(ms, r3) ← parse_members fuel r2;
                  Some (JObj (m :: ms), r3)
            | EmptyString => None
            end
          else
            '(n, r') ← parse_number s0; Some (JNum (Number.number_text n), r')
      end
  end
with parse_elements (fuel : nat) (s : string) : option (list JsVal * string) :=
  match fuel with
  | O => None
  | S fuel =>
      match skip_ws s with
      | String c r =>
          if Ascii.eqb c "]" then Some ([], r)
          else if Ascii.eqb c "," then
            '(v, r1) ← parse_value fuel r;
            '(vs, r2) ← parse_elements fuel r1;
            Some (v :: vs, r2)
          else None
      | EmptyString => None
      end
  end
with parse_member (fuel : nat) (s : string) : option (string * JsVal * string) :=
  match fuel with
  | O => None
  | S fuel =>
      match skip_ws s with
      | String c r =>
          if Ascii.eqb c dquote then
            '(k, r1) ← parse_string r;
            match skip_ws r1 with
            | String c2 r2 =>
                if Ascii.eqb c2 ":" then
                  '(v, r3) ← parse_value fuel r2; Some (k, v, r3)
                else None
            | EmptyString => None
            end
          else None
      | EmptyString => None
      end
  end
with parse_members (fuel : nat) (s : string)
  : option (list (string * JsVal) * string) :=
  match fuel with
  | O => None
  | S fuel =>
      match skip_ws s with
      | String c r =>
          if Ascii.eqb c "}" then Some ([], r)
          else if Ascii.eqb c "," then
            '(m, r1) ← parse_member fuel r;
            '(ms, r2) ← parse_members fuel r1;
            Some (m :: ms, r2)
          else None
      | EmptyString => None
      end
  end.

(** [JSON.parse(text)]: [None] stands for the [SyntaxError]. *)
Definition parse (text : string) : option JsVal :=
  match parse_value (2 * String.length text + 2) text with
  | Some (v, rest) =>
      if decide (skip_ws rest = "") then Some v else None
  | None => None
  end.

Definition hex_digit (n : N) : ascii :=
  if (n <? 10)%N then ascii_of_N (48 + n) else ascii_of_N (87 + n).

Fixpoint quote_chars (s : string) : string :=
  match s with
  | EmptyString => ""
  | String c r =>
      let n := N_of_ascii c in
      (if Ascii.eqb c dquote then String "\" (String dquote "")
       else if Ascii.eqb c "\" then "\\"
       else if (n =? 8)%N then "\b"
       else if (n =? 12)%N then "\f"
       else if (n =? 10)%N then "\n"
       else if (n =? 13)%N then "\r"
       else if (n =? 9)%N then "\t"
       else if (n <? 32)%N then
         "\u00" +:+ String (hex_digit (n / 16)) (String (hex_digit (n mod 16)) "")
       else String c "") +:+ quote_chars r
  end.

Definition quote (s : string) : string :=
  String dquote (quote_chars s) +:+ String dquote "".

(** [JSON.stringify(value)]; a number that is not finite is written as
    [null]. *)
Fixpoint stringify (v : JsVal) : string :=
  match v with
  | JNull => "null"
  | JBool true => "true"
  | JBool false => "false"
  | JNum n =>
      let text := Number.number_text n in
      if String.eqb text "Infinity" || String.eqb text "-Infinity" then "null"
      else text
  | JStr s => quote s
  | JArr l =>
      "[" +:+
      (fix elements (l : list JsVal) : string :=
         match l with
         | [] => ""
         | [x] => stringify x
         | x :: l' => stringify x +:+ "," +:+ elements l'
         end) l +:+ "]"
  | JObj ms =>
      "{" +:+
      (fix members (ms : list (string * JsVal)) : string :=
         match ms with
         | [] => ""
         | [(k, x)] => quote k +:+ ":" +:+ stringify x
         | (k, x) :: ms' => quote k +:+ ":" +:+ stringify x +:+ "," +:+ members ms'
         end) ms +:+ "}"
  end.

End JSON.

(** ** JavaScript coercions on setting values *)

(** [if (v)]: null, false, zero and the empty string are falsy. *)
Definition truthy (v : JsVal) : bool :=
  match v with
  | JNull => false
  | JBool b => b
  | JNum n => negb (String.eqb (JSON.Number.number_text n) "0")
  | JStr s => if decide (s = "") then false else true
  | JArr _ | JObj _ => true
  end.

(** [typeof v === 'object'] *)
Definition is_object (v : JsVal) : bool :=
  match v with
  | JNull | JArr _ | JObj _ => true
  | JBool _ | JNum _ | JStr _ => false
  end.

(** [name in v] for an object read from JSON. *)
Definition has_member (name : string) (ms : list (string * JsVal)) : bool :=
  existsb (λ m, String.eqb m.1 name) ms.

(** [String(v)], which is also [`${v}`]; [None] when it throws a TypeError.
    A number is printed by the platform; an array is its elements joined by
    commas, a null element as the empty string; an object is
    ["[object Object]"], unless it has a member named [toString], which
    hides [Object.prototype.toString] and is not a function. *)
Fixpoint js_string (v : JsVal) : option string :=
  match v with
  | JNull => Some "null"
  | JBool true => Some "true"
  | JBool false => Some "false"
  | JNum n => Some (JSON.Number.number_text n)
  | JStr s => Some s
  | JArr l =>
      (fix join (l : list JsVal) : option string :=
         match l with
         | [] => Some ""
         | x :: l' =>
             first ← match x with JNull => Some "" | _ => js_string x end;
             match l' with
             | [] => Some first
             | _ => rest ← join l'; Some (first +:+ "," +:+ rest)
             end
         end) l
  | JObj ms => if has_member "toString" ms then None else Some "[object Object]"
  end.

(** [`${v}`] for a property that may be missing. *)
Definition template (v : option JsVal) : option string :=
  match v with
  | Some v => js_string v
  | None => Some "undefined"
  end.

(** The string [localStorage.setItem] stores for a value that is not an
    object: [String(v)], which does not throw on such a value. *)
Definition to_string (v : JsVal) : string := default "" (js_string v).

(** *** Conversion to a number *)

(** The number a value converts to in arithmetic ([ToNumber]): an integer,
    which stands for the double nearest to it; another double, by its sign
    and magnitude; or NaN. *)
Inductive JsNumber :=
  | Exact (z : Z)
  | Binary (negative : bool) (magnitude : JSON.Number.Double)
  | NaN.

Definition bytes (l : list nat) : string :=
  foldr (λ n s, String (ascii_of_nat n) s) "" l.

(** The white space and line terminators that the conversion of a string
    strips, in UTF-8: U+0009 to U+000D, U+0020, U+00A0, U+1680, U+2000 to
    U+200A, U+2028, U+2029, U+202F, U+205F, U+3000 and U+FEFF. *)
Definition white_space : list (list nat) :=
  [[9]; [10]; [11]; [12]; [13]; [32]; [194; 160]; [225; 154; 128]]
  ++ map (λ n, [226; 128; n]) (seq 128 11)
  ++ [[226; 128; 168]; [226; 128; 169]; [226; 128; 175]; [226; 129; 159];
      [227; 128; 128]; [239; 187; 191]].

Fixpoint strip_one (spaces : list string) (s : string) : option string :=
  match spaces with
  | [] => None
  | p :: ps =>
      match JSON.strip_prefix p s with
      | Some r => Some r
      | None => strip_one ps s
      end
  end.

Fixpoint strip_spaces (spaces : list string) (fuel : nat) (s : string) : string :=
  match fuel with
  | O => s
  | S f =>
      match strip_one spaces s with
      | Some r => strip_spaces spaces f r
      | None => s
      end
  end.

(** [s.trim()] *)
Definition trim_white (s : string) : string :=
  let front := strip_spaces (map bytes white_space) (String.length s) s in
  let back := JSON.Number.rev_string "" front in
  JSON.Number.rev_string ""
    (strip_spaces (map (λ p, bytes (rev p)) white_space) (String.length back) back).

(** The value of a string of digits in a radix up to 16; [None] when a
    character is not a digit of the radix. *)
Fixpoint radix_digits (radix acc : Z) (s : string) : option Z :=
  match s with
  | EmptyString => Some acc
  | String c r =>
      match JSON.hex_value c with
      | Some d =>
          if (Z.of_N d <? radix)%Z
          then radix_digits radix (radix * acc + Z.of_N d)%Z r
          else None
      | None => None
      end
  end.

(** [0x], [0o] or [0b], in either case, followed by at least one digit. *)
Definition radix_literal (s : string) : option Z :=
  match s with
  | String z (String x (String c r)) =>
      if Ascii.eqb z "0" then
        if Ascii.eqb x "x" || Ascii.eqb x "X" then radix_digits 16 0 (String c r)
        else if Ascii.eqb x "o" || Ascii.eqb x "O" then radix_digits 8 0 (String c r)
        else if Ascii.eqb x "b" || Ascii.eqb x "B" then radix_digits 2 0 (String c r)
        else None
      else None
  | _ => None
  end.

(** An unsigned decimal literal: digits, an optional dot and digits, or a
    dot and digits, then an optional exponent.  The result is the mantissa,
    the decimal exponent, and whether the literal is digits only. *)
Definition read_decimal (s : string) : option (Z * Z * bool) :=
  let '(ip, s1) := JSON.span_digits s in
  let '(fp, s2, dot) :=
    match s1 with
    | String c r =>
        if Ascii.eqb c "." then
          let '(fp, s2) := JSON.span_digits r in (fp, s2, true)
        else ("", s1, false)
    | EmptyString => ("", s1, false)
    end in
  if String.eqb ip "" && String.eqb fp "" then None
  else
    let mant := JSON.Number.digits_value 0 (ip +:+ fp) in
    let shift := Z.of_nat (String.length fp) in
    match s2 with
    | EmptyString => Some (mant, (- shift)%Z, negb dot)
    | String e r =>
        if Ascii.eqb e "e" || Ascii.eqb e "E" then
          let '(eneg, r1) :=
            match r with
            | String g r0 =>
                if Ascii.eqb g "-" then (true, r0)
                else if Ascii.eqb g "+" then (false, r0)
                else (false, r)
            | EmptyString => (false, r)
            end in
          let '(ds, r2) := JSON.span_digits r1 in
          if String.eqb ds "" || negb (String.eqb r2 "") then None
          else
            let ev := JSON.Number.digits_value 0 ds in
            Some (mant, ((if eneg then - ev else ev) - shift)%Z, false)
        else None
    end.

(** [Number(s)] for a string: white space is stripped; the empty string is
    0; then a literal in radix 16, 8 or 2, or an optional sign followed by
    [Infinity] or by a decimal literal; anything else is NaN. *)
Definition string_to_number (text : string) : JsNumber :=
  let s := trim_white text in
  if String.eqb s "" then Exact 0
  else
    match radix_literal s with
    | Some z => Exact z
    | None =>
        let '(neg, s1) :=
          match s with
          | String c r =>
              if Ascii.eqb c "-" then (true, r)
              else if Ascii.eqb c "+" then (false, r)
              else (false, s)
          | EmptyString => (false, s)
          end in
        if String.eqb s1 "Infinity" then Binary neg JSON.Number.DInfinity
        else
          match read_decimal s1 with
          | Some (mant, exp, plain) =>
              if plain then Exact (if neg then - mant else mant)
              else Binary neg (JSON.Number.double_of mant exp)
          | None => NaN
          end
    end.

(** [Number(v)]; [None] when it throws a TypeError.  An array or an
    object is converted to a string first. *)
Definition js_number (v : JsVal) : option JsNumber :=
  match v with
  | JNull => Some (Exact 0)
  | JBool b => Some (Exact (if b then 1 else 0))
  | JNum n =>
      Some (match NilZero.int_of_string n with
            | Some d => Exact (Z.of_int d)
            | None => string_to_number n
            end)
  | JStr s => Some (string_to_number s)
  | JArr _ | JObj _ => string_to_number <$> js_string v
  end.

(** [l || []] *)
Definition or_empty {A} (l : option (list A)) : list A := default [] l.

(** ** The backup document *)

(** The [version] property of a document: missing, a number, or a string. *)
Inductive VersionTag :=
  | NoVersion
  | NumVersion (n : Z)
  | StrVersion (s : string).

#[global] Instance VersionTag_eq_dec : EqDecision VersionTag.
Proof. solve_decision. Defined.

(** The [settings] object of a document.  A property that is missing reads
    as [null] here: both are falsy, and neither is written back. *)
Record DocSettings := mkDocSettings {
  userName : JsVal;
  theme : JsVal;
  location : JsVal;
  tempUnit : JsVal
}.

Record Document := mkDocument {
  version : VersionTag;
  exportDate : string;
  d_items : option (list (option Id * Item));
  d_images : option (list (Id * string));
  d_weeklyPlan : option (list (string * DayPlan));
  d_savedOutfits : option (list (option Id * Outfit));
  d_customSections : option (list (option Id * CustomSection));
  d_shoppingList : option (list (option Id * ShoppingItem));
  d_settings : option DocSettings
}.

(** A record read from a store carries its key as [id]. *)
Definition with_ids {V} (l : list (Id * V)) : list (option Id * V) :=
  map (λ x, (Some x.1, x.2)) l.

(** ** Storage (js/storage.js) *)

Module Storage.

(** *** Items *)

Definition saveItem (id : option Id) (it : Item) : M Id := λ s,
  let '(k, t) := table_put id it (items s) in
  (Done k, set_items t s, [EvPut "items" (KId k)]).

Definition getItem (id : Id) : M (option Item) :=
  reads (λ s, rows (items s) !! id).

Definition getAllItems : M (list (Id * Item)) :=
  reads (λ s, get_all (rows (items s))).

Definition deleteItem (id : Id) : M unit :=
  writes (EvDelete "items" (KId id))
         (λ s, set_items (table_delete id (items s)) s).

(** *** Images *)

Definition saveImage (id : Id) (base64Data : string) : M Id := λ s,
  (Done id, set_images (<[id := base64Data]> (images s)) s,
   [EvPut "images" (KId id)]).

(** [request.result?.data || null]: an empty data string reads as null. *)
Definition getImage (id : Id) : M (option string) :=
  reads (λ s, match images s !! id with
              | Some d => if decide (d = "") then None else Some d
              | None => None
              end).

Definition deleteImage (id : Id) : M unit :=
  writes (EvDelete "images" (KId id))
         (λ s, set_images (delete id (images s)) s).

(** *** Weekly plan *)

Definition saveWeeklyDay (day : string) (d : DayPlan) : M unit :=
  writes (EvPut "weeklyPlan" (KName day))
         (λ s, set_weeklyPlan (<[day := d]> (weeklyPlan s)) s).

Definition getWeeklyPlan : M (list (string * DayPlan)) :=
  reads (λ s, get_all_named (weeklyPlan s)).

(** *** Saved outfits *)

Definition saveOutfit (id : option Id) (o : Outfit) : M Id := λ s,
  let '(k, t) := table_put id o (savedOutfits s) in
  (Done k, set_savedOutfits t s, [EvPut "savedOutfits" (KId k)]).

Definition getAllSavedOutfits : M (list (Id * Outfit)) :=
  reads (λ s, get_all (rows (savedOutfits s))).

Definition deleteSavedOutfit (id : Id) : M unit :=
  writes (EvDelete "savedOutfits" (KId id))
         (λ s, set_savedOutfits (table_delete id (savedOutfits s)) s).

(** *** Custom sections *)

Definition saveCustomSection (id : option Id) (c : CustomSection) : M Id := λ s,
  let '(k, t) := table_put id c (customSections s) in
  (Done k, set_customSections t s, [EvPut "customSections" (KId k)]).

Definition getAllCustomSections : M (list (Id * CustomSection)) :=
  reads (λ s, get_all (rows (customSections s))).

Definition deleteCustomSection (id : Id) : M unit :=
  writes (EvDelete "customSections" (KId id))
         (λ s, set_customSections (table_delete id (customSections s)) s).

(** *** Shopping list *)

Definition saveShoppingItem (id : option Id) (x : ShoppingItem) : M Id := λ s,
  let '(k, t) := table_put id x (shoppingList s) in
  (Done k, set_shoppingList t s, [EvPut "shoppingList" (KId k)]).

Definition getAllShoppingItems : M (list (Id * ShoppingItem)) :=
  reads (λ s, get_all (rows (shoppingList s))).

Definition deleteShoppingItem (id : Id) : M unit :=
  writes (EvDelete "shoppingList" (KId id))
         (λ s, set_shoppingList (table_delete id (shoppingList s)) s).

(** *** Trash *)

Definition saveToTrash (id : Id) (it : Item) : M unit :=
  writes (EvPut "trash" (KId id))
         (λ s, set_trash (<[id := it]> (trash s)) s).

Definition getAllTrash : M (list (Id * Item)) :=
  reads (λ s, get_all (trash s)).

(** One transaction: [store.get(id)], then [store.delete(id)] from the
    success callback; resolves with what [get] found. *)
Definition restoreFromTrash (id : Id) : M (option Item) := λ s,
  (Done (trash s !! id), set_trash (delete id (trash s)) s,
   [EvDelete "trash" (KId id)]).

(** *** Transactions that can fail

    [emptyTrash] opens one read-write transaction over ['trash', 'images']
    and rejects on [tx.onerror].  Its requests are numbered in the order
    they are issued; [fault i] says that request [i] errors.  An error in
    any request aborts the transaction, which undoes every request of the
    transaction; without an error the transaction commits. *)

Section Transactions.
Variable fault : nat → bool.

Definition Tx (A : Type) : Type :=
  Store * nat * list Event → option (A * (Store * nat * list Event)).

Definition tx_ret {A} (a : A) : Tx A := λ st, Some (a, st).

Definition tx_bind {A B} (k : A → Tx B) (m : Tx A) : Tx B := λ st,
  match m st with
  | Some (a, st1) => k a st1
  | None => None
  end.

#[local] Instance Tx_MRet : MRet Tx := @tx_ret.
#[local] Instance Tx_MBind : MBind Tx := @tx_bind.

(** One request against the stores of the transaction. *)
Definition tx_request {A} (evs : list Event) (f : Store → A * Store) : Tx A :=
  λ '(s, n, l),
    if fault n then None
    else let '(a, s1) := f s in Some (a, (s1, S n, l ++ evs)).

Fixpoint tx_for_each {A} (l : list A) (f : A → Tx unit) : Tx unit :=
  match l with
  | [] => mret tt
  | x :: l' => f x ;; tx_for_each l' f
  end.

Definition transaction {A} (body : Tx A) : M A := λ s,
  match body (s, 0, []) with
  | Some (a, (s1, _, l)) => (Done a, s1, l)
  | None => (Thrown "transaction aborted", s, [])
  end.

Definition emptyTrash : M unit :=
  transaction (
    items ← tx_request [] (λ s, (get_all (trash s), s));
    tx_for_each items (λ item,
      match imageId item.2 with
      | Some k =>
          tx_request [EvDelete "images" (KId k)]
                     (λ s, (tt, set_images (delete k (images s)) s))
      | None => mret tt
      end);;
    tx_request [EvClear "trash"] (λ s, (tt, set_trash ∅ s))).
End Transactions.

(** One transaction and one [clear] per store, in this order. *)
Definition clear_store (name : string) : M unit :=
  writes (EvClear name) (λ s,
    if decide (name = "items") then set_items (table_clear (items s)) s
    else if decide (name = "images") then set_images ∅ s
    else if decide (name = "weeklyPlan") then set_weeklyPlan ∅ s
    else if decide (name = "savedOutfits") then
      set_savedOutfits (table_clear (savedOutfits s)) s
    else if decide (name = "customSections") then
      set_customSections (table_clear (customSections s)) s
    else if decide (name = "shoppingList") then
      set_shoppingList (table_clear (shoppingList s)) s
    else if decide (name = "trash") then set_trash ∅ s
    else s).

Definition clearAllData : M unit :=
  for_each ["items"; "images"; "weeklyPlan"; "savedOutfits";
            "customSections"; "shoppingList"; "trash"] clear_store.

(** *** Settings (localStorage) *)

Definition getSetting (key : string) (defaultValue : JsVal) : M JsVal :=
  reads (λ s,
    match localStorage s !! ("wardrobe_" +:+ key) with
    | None => defaultValue
    | Some value =>
        match JSON.parse value with
        | Some v => v
        | None => JStr value
        end
    end).

Definition setSetting (key : string) (value : JsVal) : M unit :=
  let text := if is_object value then JSON.stringify value
              else to_string value in
  writes (EvSetItem ("wardrobe_" +:+ key) text)
         (λ s, set_localStorage
                 (<[("wardrobe_" +:+ key) := text]> (localStorage s)) s).

(** *** Export and import *)

(** The loop that fills [data.images]. *)
Fixpoint collect_images (items : list (option Id * Item))
    (acc : list (Id * string)) : M (list (Id * string)) :=
  match items with
  | [] => mret acc
  | item :: rest =>
      match imageId item.2 with
      | Some i =>
          imageData ← getImage i;
          match imageData with
          | Some d => collect_images rest (acc ++ [(i, d)])
          | None => collect_images rest acc
          end
      | None => collect_images rest acc
      end
  end.

(** [now] is the value of [new Date().toISOString()]. *)
Definition exportAllData (now : string) : M Document :=
  items ← getAllItems;
  weeklyPlan ← getWeeklyPlan;
  savedOutfits ← getAllSavedOutfits;
  customSections ← getAllCustomSections;
  shoppingList ← getAllShoppingItems;
  userName ← getSetting "userName" JNull;
  theme ← getSetting "theme" JNull;
  location ← getSetting "location" JNull;
  tempUnit ← getSetting "tempUnit" JNull;
  images ← collect_images (with_ids items) [];
  mret (mkDocument (NumVersion 1) now
          (Some (with_ids items)) (Some images) (Some weeklyPlan)
          (Some (with_ids savedOutfits)) (Some (with_ids customSections))
          (Some (with_ids shoppingList))
          (Some (mkDocSettings userName theme location tempUnit))).

Definition import_setting (key : string) (value : JsVal) : M unit :=
  if truthy value then setSetting key value else mret tt.

Definition importAllData (data : option Document) : M bool :=
  match data with
  | None => throw "Invalid data format"
  | Some data =>
      if negb (bool_decide (version data = NumVersion 1)) then
        throw "Invalid data format"
      else
        clearAllData;;
        for_each (or_empty (d_images data))
          (λ img, saveImage img.1 img.2;; mret tt);;
        for_each (or_empty (d_items data))
          (λ item, saveItem item.1 item.2;; mret tt);;
        for_each (or_empty (d_weeklyPlan data))
          (λ day, saveWeeklyDay day.1 day.2);;
        for_each (or_empty (d_savedOutfits data))
          (λ outfit, saveOutfit outfit.1 outfit.2;; mret tt);;
        for_each (or_empty (d_customSections data))
          (λ section, saveCustomSection section.1 section.2;; mret tt);;
        for_each (or_empty (d_shoppingList data))
          (λ item, saveShoppingItem item.1 item.2;; mret tt);;
        match d_settings data with
        | Some settings =>
            import_setting "userName" (userName settings);;
            import_setting "theme" (theme settings);;
            import_setting "location" (location settings);;
            import_setting "tempUnit" (tempUnit settings)
        | None => mret tt
        end;;
        mret true
  end.

(** *** First run *)

(** [!localStorage.getItem('wardrobe_migrated')] *)
Definition isFirstRun : M bool :=
  reads (λ s, match localStorage s !! "wardrobe_migrated" with
              | Some v => bool_decide (v = "")
              | None => true
              end).

(** [now] is the value of [new Date().toISOString()]. *)
Definition setMigrated (now : string) : M unit :=
  writes (EvSetItem "wardrobe_migrated" "true")
         (λ s, set_localStorage (<["wardrobe_migrated" := "true"]> (localStorage s)) s);;
  writes (EvSetItem "wardrobe_migratedDate" now)
         (λ s, set_localStorage (<["wardrobe_migratedDate" := now]> (localStorage s)) s).

End Storage.

(** ** JavaScript idioms used by the callers *)

(** [x || dflt] on an optional string: a missing and an empty string are
    both falsy. *)
Definition or_string (x : option string) (dflt : string) : string :=
  match x with
  | Some s => if decide (s = "") then dflt else s
  | None => dflt
  end.

(** [!x] on an optional string. *)
Definition truthy_string (x : option string) : bool :=
  match x with
  | Some s => if decide (s = "") then false else true
  | None => false
  end.

(** The template literal [`custom-${sectionId}`]. *)
Definition custom_category (sectionId : Id) : string :=
  "custom-" +:+ NilEmpty.string_of_uint (Pos.to_uint sectionId).

(** [weeklyPlan.find(d => d.day === day)] *)
Definition find_day (day : string) (plan : list (string * DayPlan))
  : option (string * DayPlan) :=
  find (λ d, bool_decide (d.1 = day)) plan.

(** [list.includes(id)] *)
Definition includes (id : Id) (l : list Id) : bool := bool_decide (id ∈ l).

(** ** Weather (js/weather.js) *)

Module Weather.

(** 30 minutes, in milliseconds. *)
Definition CACHE_DURATION : Z := 30 * 60 * 1000.

(** [v.name] on a value read from settings; [None] is [undefined].  The
    last member of that name wins, as in [JSON.parse]. *)
Definition get_field (name : string) (v : JsVal) : option JsVal :=
  match v with
  | JObj ms =>
      snd <$> last (filter (λ m, m.1 = name) ms)
  | _ => None
  end.

(** The number [cached.timestamp] converts to in
    [Date.now() - cached.timestamp]; a missing property is NaN, and [None]
    is a conversion that throws. *)
Definition to_number (v : option JsVal) : option JsNumber :=
  match v with
  | None => Some NaN
  | Some v => js_number v
  end.

(** [Date.now() - t < this.CACHE_DURATION] for the time value [now], an
    integer of magnitude at most 8.64e15.  With an integer [t] the test is
    that of the integers: where [t] differs from the double nearest to it,
    both are more than [2 ^ 53] in magnitude and on the same side of every
    time value.  With another double the difference is rounded to the
    nearest double before it is compared, so that the test holds when the
    exact difference is below [CACHE_DURATION - 2 ^ -33], half way between
    [CACHE_DURATION] and the double next below it. *)
Definition elapsed_below (now : Z) (t : JsNumber) : bool :=
  match t with
  | Exact ts => bool_decide (now - ts < CACHE_DURATION)%Z
  | Binary negative JSON.Number.DInfinity => negb negative
  | Binary _ JSON.Number.DZero => bool_decide (now < CACHE_DURATION)%Z
  | Binary negative (JSON.Number.DFinite q k) =>
      let up := Z.max 0 k in
      let down := Z.max 0 (- k) in
      let ts := ((if negative then - q else q) * 2 ^ up)%Z in
      bool_decide (2 ^ 33 * (now * 2 ^ down - ts)
                   < (CACHE_DURATION * 2 ^ 33 - 1) * 2 ^ down)%Z
  | NaN => false
  end.

(** [cached && Date.now() - cached.timestamp < this.CACHE_DURATION];
    [None] when the conversion of the timestamp throws.  [now] is
    [Date.now()]. *)
Definition is_fresh (now : Z) (cached : JsVal) : option bool :=
  if truthy cached then
    elapsed_below now <$> to_number (get_field "timestamp" cached)
  else Some false.

(** The request for [lat] and [lon], the arguments as they are passed,
    [None] being [undefined]; no address when a template literal throws. *)
Definition forecast_url (lat lon : option JsVal) (tempUnit : JsVal)
  : option string :=
  la ← template lat;
  lo ← template lon;
  unit ← js_string tempUnit;
  Some ("https://api.open-meteo.com/v1/forecast?" +:+
        "latitude=" +:+ la +:+ "&longitude=" +:+ lo +:+
        "&current=temperature_2m,relative_humidity_2m,apparent_temperature,precipitation,weather_code,wind_speed_10m" +:+
        "&daily=temperature_2m_max,temperature_2m_min,precipitation_probability_max,weather_code" +:+
        "&temperature_unit=" +:+ unit +:+
        "&wind_speed_unit=mph" +:+
        "&precipitation_unit=inch" +:+
        "&timezone=auto" +:+
        "&forecast_days=7").

(** The object [{ data, timestamp: Date.now() }]. *)
Definition cache_entry (data : JsVal) (now : Z) : JsVal :=
  JObj [("data", data); ("timestamp", JNum (NilZero.string_of_int (Z.to_int now)))].

(** [await fetch(url)] with the [response.ok] test and [response.json()]:
    the data of the answer, or [None] when any of the three fails. *)
Definition fetch_json (net : string → option JsVal) (url : string)
  : M (option JsVal) :=
  λ s, (Done (net url), s, [EvFetch url]).

(** [now] is [Date.now()] at the cache test and [now'] when the result is
    cached; [net] is the network.  The cache test and the template literal
    are outside the [try]: what they throw leaves the function. *)
Definition fetchWeather (net : string → option JsVal) (now now' : Z)
    (lat lon : option JsVal) : M (option JsVal) :=
  cached ← Storage.getSetting "weatherCache" JNull;
  match is_fresh now cached with
  | None => throw "TypeError"
  | Some true => mret (get_field "data" cached)
  | Some false =>
      tempUnit ← Storage.getSetting "tempUnit" (JStr "fahrenheit");
      match forecast_url lat lon tempUnit with
      | None => throw "TypeError"
      | Some url =>
          response ← fetch_json net url;
          match response with
          | Some data =>
              Storage.setSetting "weatherCache" (cache_entry data now');;
              mret (Some data)
          | None =>
              if truthy cached then mret (get_field "data" cached)
              else throw "Weather API error"
          end
      end
  end.

Definition DEFAULT_LOCATION : JsVal :=
  JObj [("lat", JNum "33.2148"); ("lon", JNum "-97.1331");
        ("name", JStr "Denton, Texas")].

Definition getLocation : M JsVal :=
  saved ← Storage.getSetting "location" JNull;
  mret (if truthy saved then saved else DEFAULT_LOCATION).

End Weather.

(** ** UI (js/ui.js): what the rendering functions read and write

    The markup is left out; a rendering loop is modelled by the list of the
    entries it produces markup for. *)

Module UI.

(** [try { ... } catch (err) { ... }] around an action whose result is not
    used. *)
Definition try_catch {A} (body : M A) (handler : string → M unit) : M unit :=
  λ s, match body s with
       | (Done _, s1, l1) => (Done tt, s1, l1)
       | (Thrown e, s1, l1) =>
           match handler e s1 with
           | (r, s2, l2) => (r, s2, l1 ++ l2)
           end
       end.

(** [widget] says whether the weather widget is in the document; [net],
    [now] and [now'] are those of [Weather.fetchWeather]. *)
Definition renderWeather (widget : bool) (net : string → option JsVal)
    (now now' : Z) : M unit :=
  if negb widget then mret tt
  else
    try_catch
      (location ← Weather.getLocation;
       weatherData ←
         Weather.fetchWeather net now now'
           (Weather.get_field "lat" location)
           (Weather.get_field "lon" location);
       match weatherData ≫= Weather.get_field "current" with
       | Some current => if truthy current then mret tt
                         else throw "Invalid weather data"
       | None => throw "Invalid weather data"
       end)
      (λ _, mret tt).

(** The days created when the weekly plan is empty. *)
Definition default_days : list (string * DayPlan) :=
  [("Monday", mkDayPlan "Business Casual" [] "");
   ("Tuesday", mkDayPlan "Client Day" [] "");
   ("Wednesday", mkDayPlan "Client Day" [] "");
   ("Thursday", mkDayPlan "Client Day" [] "");
   ("Friday", mkDayPlan "Casual Friday" [] "")].

(** [container] says whether the planner's container is in the document. *)
Definition renderWeeklyOutfits (container : bool) : M unit :=
  if negb container then mret tt
  else
    weeklyPlan ← Storage.getWeeklyPlan;
    if decide (weeklyPlan = []) then
      for_each default_days (λ day, Storage.saveWeeklyDay day.1 day.2)
    else mret tt.

(** [Storage.getImage(item.imageId)]: a missing key is refused by the
    object store. *)
Definition image_of (it : Item) : M (option string) :=
  match imageId it with
  | Some i => Storage.getImage i
  | None => throw "DataError"
  end.

(** The thumbnails of [renderWeeklyDayItems] and [renderBuilderCanvas]:
    an id without an item, and an item without an image, are skipped. *)
Fixpoint item_thumbs (itemIds : list Id) : M (list (Id * string)) :=
  match itemIds with
  | [] => mret []
  | itemId :: rest =>
      item ← Storage.getItem itemId;
      match item with
      | None => item_thumbs rest
      | Some item =>
          imgSrc ← image_of item;
          match imgSrc with
          | None => item_thumbs rest
          | Some src => thumbs ← item_thumbs rest; mret ((itemId, src) :: thumbs)
          end
      end
  end.

(** [!i.deleted] *)
Definition not_deleted (it : Item) : bool :=
  match deleted it with
  | Some true => false
  | _ => true
  end.

(** [items.filter(i => i.category === category && !i.deleted)] *)
Definition category_items (c : string) (items : list (Id * Item))
  : list (Id * Item) :=
  filter (λ i, category i.2 = c ∧ not_deleted i.2 = true) items.

(** The grids of [renderWardrobe] that show items by category: the four
    fixed ones, then one per custom section. *)
Definition category_grids : M (list (string * list (Id * Item))) :=
  items ← Storage.getAllItems;
  customSections ← Storage.getAllCustomSections;
  mret (map (λ c, (c +:+ "-grid", category_items c items))
            ["tops"; "bottoms"; "outerwear"; "other"]
        ++ map (λ section,
                  (custom_category section.1 +:+ "-grid",
                   category_items (custom_category section.1) items))
               customSections).

(** The options of the move and upload selects. *)
Definition category_options (customSections : list (Id * CustomSection))
  : list string :=
  ["tops"; "bottoms"; "outerwear"; "other"]
  ++ map (λ section, custom_category section.1) customSections.

End UI.

(** ** DragDrop (js/dragdrop.js) *)

Module DragDrop.

Definition restoreToCategory (itemId : Id) (targetCategory : string) : M unit :=
  trashItem ← Storage.restoreFromTrash itemId;
  match trashItem with
  | None => mret tt
  | Some trashItem =>
      let trashItem := set_category targetCategory trashItem in
      let trashItem := set_deleted (Some false) trashItem in
      Storage.saveItem (Some itemId) trashItem;;
      mret tt
  end.

Definition addToWeeklyOutfit (day : string) (itemId : Id) : M unit :=
  weeklyPlan ← Storage.getWeeklyPlan;
  match find_day day weeklyPlan with
  | None => mret tt
  | Some (d, dayPlan) =>
      if includes itemId (ditems dayPlan) then mret tt
      else
        let dayPlan := set_ditems (ditems dayPlan ++ [itemId]) dayPlan in
        Storage.saveWeeklyDay d dayPlan
  end.

Definition moveToCategory (itemId : Id) (targetCategory : string) : M unit :=
  item ← Storage.getItem itemId;
  match item with
  | None => mret tt
  | Some item =>
      if decide (category item = targetCategory) then mret tt
      else
        Storage.saveItem (Some itemId) (set_category targetCategory item);;
        mret tt
  end.

End DragDrop.

(** ** App (js/app.js) *)

Module App.

(** An action is modelled up to its last read or write of the store: the
    toast and the rendering its source ends with ([UI.showToast],
    [UI.renderWardrobe] and the like) are left out, and its result here
    says nothing about how they end. *)

(** The part of the [App] object's own state that the actions below
    read and write. *)
Record State := mkState { currentWeeklyDay : option string }.

(** [now] is the value of [new Date().toISOString()]. *)
Definition deleteItem (now : string) (itemId : Id) : M unit :=
  item ← Storage.getItem itemId;
  match item with
  | None => mret tt
  | Some item =>
      let item := set_deleted (Some true) item in
      let item := set_deletedDate (Some now) item in
      let item := set_originalCategory (Some (category item)) item in
      Storage.saveToTrash itemId item;;
      Storage.deleteItem itemId
  end.

Definition restoreItem (itemId : Id) : M unit :=
  item ← Storage.restoreFromTrash itemId;
  match item with
  | None => mret tt
  | Some item =>
      let item := set_deleted (Some false) item in
      let item := set_category (or_string (originalCategory item) "other") item in
      let item := set_deletedDate None item in
      let item := set_originalCategory None item in
      Storage.saveItem (Some itemId) item;;
      mret tt
  end.

Definition toggleFavorite (itemId : Id) : M unit :=
  item ← Storage.getItem itemId;
  match item with
  | None => mret tt
  | Some item =>
      Storage.saveItem (Some itemId) (set_favorite (negb (favorite item)) item);;
      mret tt
  end.

Definition openWeeklyModal (day : string) (app : State) : State :=
  mkState (Some day).

Definition closeWeeklyModal (app : State) : State := mkState None.

Definition addToWeeklyFromModal (itemId : Id) (app : State) : M State :=
  if negb (truthy_string (currentWeeklyDay app)) then mret app
  else
    weeklyPlan ← Storage.getWeeklyPlan;
    match find (λ d, bool_decide (Some d.1 = currentWeeklyDay app)) weeklyPlan with
    | None => mret app
    | Some (d, dayPlan) =>
        if includes itemId (ditems dayPlan) then mret app
        else
          let dayPlan := set_ditems (ditems dayPlan ++ [itemId]) dayPlan in
          Storage.saveWeeklyDay d dayPlan;;
          mret (closeWeeklyModal app)
    end.

Definition deleteShoppingItem (itemId : Id) : M unit :=
  Storage.deleteShoppingItem itemId.

(** The loop body of [deleteSection]. *)
Definition trash_section_item (x : Id * Item) : M unit :=
  let item := set_deleted (Some true) x.2 in
  let item := set_originalCategory (Some (category item)) item in
  Storage.saveToTrash x.1 item;;
  Storage.deleteItem x.1.

Definition section_items (sectionId : Id) (items : list (Id * Item))
  : list (Id * Item) :=
  filter (λ i, category i.2 = custom_category sectionId) items.

(** [confirmed] is the answer to the [confirm(...)] dialog. *)
Definition deleteSection (confirmed : bool) (sectionId : Id) : M unit :=
  if negb confirmed then mret tt
  else
    items ← Storage.getAllItems;
    let sectionItems := section_items sectionId items in
    for_each sectionItems trash_section_item;;
    Storage.deleteCustomSection sectionId.

(** *** Wardrobe items *)

Definition set_laundry (b : bool) (it : Item) : Item :=
  mkItem (imageId it) (category it) (favorite it) b (deleted it)
         (dateAdded it) (deletedDate it) (originalCategory it).

Definition toggleLaundry (itemId : Id) : M unit :=
  item ← Storage.getItem itemId;
  match item with
  | None => mret tt
  | Some item =>
      Storage.saveItem (Some itemId) (set_laundry (negb (laundry item)) item);;
      mret tt
  end.

(** [confirmed] is the answer to the [confirm(...)] dialog; [fault] says
    which requests of the storage transaction fail. *)
Definition emptyTrash (confirmed : bool) (fault : nat → bool) : M unit :=
  if negb confirmed then mret tt else Storage.emptyTrash fault.

(** [currentMoveItemId] is the field of that name, [targetCategory] the
    value of the [move-category] select; the result is the field after the
    call. *)
Definition moveItemToCategory (currentMoveItemId : option Id)
    (targetCategory : string) : M (option Id) :=
  match currentMoveItemId with
  | None => mret None
  | Some itemId =>
      item ← Storage.getItem itemId;
      match item with
      | None => mret currentMoveItemId
      | Some item =>
          Storage.saveItem (Some itemId) (set_category targetCategory item);;
          mret None
      end
  end.

(** One uploaded photo: the image id drawn for it
    ([Date.now() + Math.random()]), its data, and the time stamp of its
    item. *)
Record Upload := mkUpload {
  up_imageId : Id;
  up_base64 : string;
  up_date : string
}.

Definition upload_item (category : string) (u : Upload) : M unit :=
  Storage.saveImage (up_imageId u) (up_base64 u);;
  Storage.saveItem None
    (mkItem (Some (up_imageId u)) category false false None (up_date u) None None);;
  mret tt.

(** [category] is the value of the [upload-category] select, [images] the
    previews in the container. *)
Definition processUpload (category : string) (images : list Upload) : M unit :=
  if decide (images = []) then mret tt
  else for_each images (upload_item category).

Definition handleBuilderUpload (files : list Upload) : M unit :=
  for_each files (upload_item "other").

(** *** Weekly planner *)

Definition set_dnotes (n : string) (d : DayPlan) : DayPlan :=
  mkDayPlan (dtype d) (ditems d) n.

Definition set_dtype (t : string) (d : DayPlan) : DayPlan :=
  mkDayPlan t (ditems d) (dnotes d).

Definition removeFromWeekly (day : string) (itemId : Id) : M unit :=
  weeklyPlan ← Storage.getWeeklyPlan;
  match find_day day weeklyPlan with
  | None => mret tt
  | Some (d, dayPlan) =>
      let dayPlan :=
        set_ditems (filter (λ id, id ≠ itemId) (ditems dayPlan)) dayPlan in
      Storage.saveWeeklyDay d dayPlan
  end.

Definition saveWeeklyNotes (day : string) (notes : string) : M unit :=
  weeklyPlan ← Storage.getWeeklyPlan;
  match find_day day weeklyPlan with
  | None => mret tt
  | Some (d, dayPlan) => Storage.saveWeeklyDay d (set_dnotes notes dayPlan)
  end.

Definition saveDayType (day : string) (type : string) : M unit :=
  weeklyPlan ← Storage.getWeeklyPlan;
  match find_day day weeklyPlan with
  | None => mret tt
  | Some (d, dayPlan) =>
      Storage.saveWeeklyDay d (set_dtype (or_string (Some type) "Regular Day") dayPlan)
  end.

(** *** Outfit builder *)

(** The builder's list of items and the text of the [builder-notes]
    field. *)
Record Builder := mkBuilder {
  builderItems : list Id;
  builderNotes : string
}.

Definition addToBuilder (itemId : Id) (b : Builder) : Builder :=
  if includes itemId (builderItems b) then b
  else mkBuilder (builderItems b ++ [itemId]) (builderNotes b).

Definition removeFromBuilder (itemId : Id) (b : Builder) : Builder :=
  mkBuilder (filter (λ id, id ≠ itemId) (builderItems b)) (builderNotes b).

Definition clearBuilder (b : Builder) : Builder := mkBuilder [] "".

(** [date] is the value of [new Date().toLocaleString()]. *)
Definition saveBuilderOutfit (date : string) (b : Builder) : M Builder :=
  if decide (builderItems b = []) then mret b
  else
    Storage.saveOutfit None (mkOutfit (builderItems b) (builderNotes b) date);;
    mret (clearBuilder b).

Definition loadSavedOutfit (outfitId : Id) (b : Builder) : M Builder :=
  outfits ← Storage.getAllSavedOutfits;
  match find (λ o, bool_decide (o.1 = outfitId)) outfits with
  | None => mret b
  | Some (_, outfit) => mret (mkBuilder (oitems outfit) (onotes outfit))
  end.

Definition deleteSavedOutfit (outfitId : Id) : M unit :=
  Storage.deleteSavedOutfit outfitId.

(** *** Shopping list and custom sections

    [trim] is [String.prototype.trim]. *)

(** [name], [desc] and [price] are the values of the form fields;
    [preview] is the source of the preview image when it is displayed;
    [now] is [Date.now()]. *)
Definition addShoppingItem (trim : string → string) (name desc price : string)
    (preview : option string) (now : Id) : M unit :=
  let name := trim name in
  if decide (name = "") then mret tt
  else
    let desc := trim desc in
    let price := trim price in
    imageId ←
      (if truthy_string preview then
         Storage.saveImage now (default "" preview);; mret (Some now)
       else mret None);
    Storage.saveShoppingItem None (mkShoppingItem name desc price imageId);;
    mret tt.

Definition createNewSection (trim : string → string) (name : string) : M unit :=
  let name := trim name in
  if decide (name = "") then mret tt
  else Storage.saveCustomSection None (mkSection name);; mret tt.

(** [answer] is what [prompt(...)] returns: [None] when it is cancelled. *)
Definition editSectionTitle (trim : string → string) (sectionId : Id)
    (answer : option string) : M unit :=
  sections ← Storage.getAllCustomSections;
  match find (λ c, bool_decide (c.1 = sectionId)) sections with
  | None => mret tt
  | Some (k, section) =>
      if truthy_string answer && truthy_string (trim <$> answer) then
        Storage.saveCustomSection (Some k) (mkSection (trim (default "" answer)));;
        mret tt
      else mret tt
  end.

(** *** Settings *)

(** [name] and [tempUnit] are the values of the form fields; [widget],
    [net], [now] and [now'] are those of [UI.renderWeather]. *)
Definition saveSettings (trim : string → string) (name tempUnit : string)
    (widget : bool) (net : string → option JsVal) (now now' : Z) : M unit :=
  let name := or_string (Some (trim name)) "Emily" in
  Storage.setSetting "userName" (JStr name);;
  Storage.setSetting "tempUnit" (JStr tempUnit);;
  Storage.setSetting "weatherCache" JNull;;
  UI.renderWeather widget net now now'.

Definition refreshWeather (widget : bool) (net : string → option JsVal)
    (now now' : Z) : M unit :=
  Storage.setSetting "weatherCache" JNull;;
  UI.renderWeather widget net now now'.

(** [completeWelcome] up to its call of [requestLocation], which it does
    not await; [now] is the time stamp [setMigrated] takes. *)
Definition completeWelcome (trim : string → string) (name now : string) : M unit :=
  let name := or_string (Some (trim name)) "Emily" in
  Storage.setSetting "userName" (JStr name);;
  Storage.setMigrated now.

(** *** Theme

    The [data-theme] attribute of the document is either absent or
    ['dark']: [true] stands for ['dark']. *)

(** The result is the attribute after the call. *)
Definition loadTheme : M bool :=
  theme ← Storage.getSetting "theme" (JStr "light");
  mret (match theme with
        | JStr t => bool_decide (t = "dark")
        | _ => false
        end).

(** [isDark] is [html.hasAttribute('data-theme')]; the result is the
    attribute after the call. *)
Definition toggleTheme (isDark : bool) : M bool :=
  if isDark then Storage.setSetting "theme" (JStr "light");; mret false
  else Storage.setSetting "theme" (JStr "dark");; mret true.

End App.

(** * Properties *)

(** ** [getAll] lists exactly the records of a store, each key once *)

Lemma get_all_perm {V} (m : gmap Id V) : get_all m ≡ₚ map_to_list m.
Proof. apply merge_sort_Permutation. Qed.

Lemma elem_of_get_all {V} (m : gmap Id V) k v :
  (k, v) ∈ get_all m ↔ m !! k = Some v.
Proof. rewrite get_all_perm. apply elem_of_map_to_list. Qed.

Lemma NoDup_fst_get_all {V} (m : gmap Id V) : NoDup (get_all m).*1.
Proof. rewrite get_all_perm. apply NoDup_fst_map_to_list. Qed.

Lemma get_all_named_perm {V} (m : gmap string V) :
  get_all_named m ≡ₚ map_to_list m.
Proof. apply merge_sort_Permutation. Qed.

Lemma elem_of_get_all_named {V} (m : gmap string V) k v :
  (k, v) ∈ get_all_named m ↔ m !! k = Some v.
Proof. rewrite get_all_named_perm. apply elem_of_map_to_list. Qed.

Lemma NoDup_fst_get_all_named {V} (m : gmap string V) :
  NoDup (get_all_named m).*1.
Proof. rewrite get_all_named_perm. apply NoDup_fst_map_to_list. Qed.

(** ** JSON: the fuel of the parser is enough

    Each parser returns a rest that is shorter than its input, so a
    recursive call always has more fuel than characters left: with fuel
    above the length of the text the result no longer depends on the
    fuel, and [None] from [JSON.parse] is a syntax error. *)

Lemma skip_ws_length s : (String.length (JSON.skip_ws s) ≤ String.length s)%nat.
Proof. induction s as [|c r IH]; simpl; [done|]. destruct (JSON.is_ws c); simpl; lia. Qed.

Lemma strip_prefix_length p s r :
  JSON.strip_prefix p s = Some r → (String.length r + String.length p = String.length s)%nat.
Proof.
  revert s. induction p as [|a p IH]; intros [|b s] H; simpl in *; try done.
  - by injection H as <-.
  - by injection H as <-.
  - destruct (Ascii.eqb a b); [|done]. apply IH in H. lia.
Qed.

Lemma span_digits_length s d r :
  JSON.span_digits s = (d, r) → (String.length d + String.length r = String.length s)%nat.
Proof.
  revert d r. induction s as [|c s IH]; intros d r H; simpl in *.
  - by injection H as <- <-.
  - destruct (JSON.is_digit c).
    + destruct (JSON.span_digits s) as [d' r'] eqn:Hs. injection H as <- <-.
      specialize (IH _ _ eq_refl). simpl. lia.
    + injection H as <- <-. simpl. lia.
Qed.

Ltac split_cases :=
  repeat first [ progress simplify_eq | case_match | progress (simpl in *) ].

Ltac use_lengths :=
  repeat match goal with
         | H : JSON.span_digits _ = _ |- _ => apply span_digits_length in H
         | H : JSON.strip_prefix _ _ = Some _ |- _ => apply strip_prefix_length in H
         end;
  simpl in *.

Lemma parse_exponent_length acc s n r :
  JSON.parse_exponent acc s = Some (n, r) → (String.length r ≤ String.length s)%nat.
Proof.
  unfold JSON.parse_exponent. intros H. split_cases; use_lengths; lia.
Qed.

Lemma parse_fraction_length acc s n r :
  JSON.parse_fraction acc s = Some (n, r) → (String.length r ≤ String.length s)%nat.
Proof.
  unfold JSON.parse_fraction. intros H. split_cases;
    try match goal with
        | H : JSON.parse_exponent _ _ = Some _ |- _ => apply parse_exponent_length in H
        end; use_lengths; lia.
Qed.

Lemma parse_number_length s n r :
  JSON.parse_number s = Some (n, r) → (String.length r < String.length s)%nat.
Proof.
  unfold JSON.parse_number. intros H. split_cases;
    try match goal with
        | H : JSON.parse_fraction _ _ = Some _ |- _ => apply parse_fraction_length in H
        end; use_lengths; lia.
Qed.

Lemma parse_string_length_aux n : ∀ s t r,
  (String.length s ≤ n)%nat → JSON.parse_string s = Some (t, r) → (String.length r < String.length s)%nat.
Proof.
  induction n as [|n IH]; intros s t r Hn H.
  - destruct s; simpl in *; [done|lia].
  - destruct s as [|c s]; simpl in *; [done|].
    split_cases; try lia;
      repeat match goal with
             | H : JSON.parse_string _ = Some _ |- _ => apply IH in H; [|simpl in *; lia]
             end; simpl in *; lia.
Qed.

Lemma parse_string_length s t r :
  JSON.parse_string s = Some (t, r) → (String.length r < String.length s)%nat.
Proof. by apply (parse_string_length_aux (String.length s)). Qed.

Ltac split_binds :=
  repeat first
    [ progress simplify_eq
    | match goal with
      | H : context [mbind _ ?o] |- _ =>
          let E := fresh "E" in destruct o as [[? ?]|] eqn:E; simpl in H
      | H : context [match ?o with Some _ => _ | None => _ end] |- _ =>
          let E := fresh "E" in destruct o as [?|] eqn:E; simpl in H
      end
    | case_match
    | progress (simpl in *) ].

Lemma parse_value_length_all (f : nat) :
  (∀ s v r, JSON.parse_value f s = Some (v, r) → (String.length r < String.length s)%nat)
  ∧ (∀ s vs r, JSON.parse_elements f s = Some (vs, r) → (String.length r < String.length s)%nat)
  ∧ (∀ s m r, JSON.parse_member f s = Some (m, r) → (String.length r < String.length s)%nat)
  ∧ (∀ s ms r, JSON.parse_members f s = Some (ms, r) → (String.length r < String.length s)%nat).
Proof.
  induction f as [|f (IHv & IHe & IHm & IHms)]; [by split_and!|].
  split_and!; intros s x r H; simpl in H;
    pose proof (skip_ws_length s) as Hws;
    destruct (JSON.skip_ws s) as [|c s0] eqn:Hs; [done| |done| |done| |done|];
    split_binds;
    repeat match goal with
           | H : JSON.parse_value f _ = Some _ |- _ => apply IHv in H
           | H : JSON.parse_elements f _ = Some _ |- _ => apply IHe in H
           | H : JSON.parse_member f _ = Some _ |- _ => apply IHm in H
           | H : JSON.parse_members f _ = Some _ |- _ => apply IHms in H
           | H : JSON.parse_string _ = Some _ |- _ => apply parse_string_length in H
           | H : JSON.parse_number _ = Some _ |- _ => apply parse_number_length in H
           | H : JSON.strip_prefix _ _ = Some _ |- _ => apply strip_prefix_length in H
           | H : JSON.skip_ws ?x = _ |- _ =>
               let L := fresh "L" in
               pose proof (skip_ws_length x) as L; rewrite H in L; clear H
           end;
    simpl in *; lia.
Qed.

Ltac len_solve :=
  repeat match goal with
         | H : JSON.parse_value _ _ = Some _ |- _ =>
             apply (proj1 (parse_value_length_all _)) in H
         | H : JSON.parse_elements _ _ = Some _ |- _ =>
             apply (proj1 (proj2 (parse_value_length_all _))) in H
         | H : JSON.parse_member _ _ = Some _ |- _ =>
             apply (proj1 (proj2 (proj2 (parse_value_length_all _)))) in H
         | H : JSON.parse_members _ _ = Some _ |- _ =>
             apply (proj2 (proj2 (proj2 (parse_value_length_all _)))) in H
         | H : JSON.parse_string _ = Some _ |- _ => apply parse_string_length in H
         | H : JSON.parse_number _ = Some _ |- _ => apply parse_number_length in H
         | H : JSON.strip_prefix _ _ = Some _ |- _ => apply strip_prefix_length in H
         | H : JSON.skip_ws ?x = _ |- _ =>
             let L := fresh "L" in
             pose proof (skip_ws_length x) as L; rewrite H in L; clear H
         end;
  simpl in *; lia.

Lemma parse_fuel_all (n : nat) : ∀ m, (n ≤ m)%nat →
  (∀ s, (String.length s < n)%nat → JSON.parse_value m s = JSON.parse_value n s)
  ∧ (∀ s, (String.length s < n)%nat → JSON.parse_elements m s = JSON.parse_elements n s)
  ∧ (∀ s, (String.length s < n)%nat → JSON.parse_member m s = JSON.parse_member n s)
  ∧ (∀ s, (String.length s < n)%nat → JSON.parse_members m s = JSON.parse_members n s).
Proof.
  induction n as [|n IH]; intros m Hm; [split_and!; intros; lia|].
  destruct m as [|m]; [lia|].
  destruct (IH m ltac:(lia)) as (IHv & IHe & IHm & IHms).
  split_and!; intros s Hlen; simpl;
    pose proof (skip_ws_length s) as Hws;
    destruct (JSON.skip_ws s) as [|c s0] eqn:Hs; try reflexivity;
    repeat first
      [ reflexivity
      | rewrite IHv by len_solve
      | rewrite IHe by len_solve
      | rewrite IHm by len_solve
      | rewrite IHms by len_solve
      | match goal with
        | |- context [mbind _ ?o] =>
            let E := fresh "E" in destruct o as [[? ?]|] eqn:E; simpl
        end
      | case_match ].
Qed.

Lemma parse_value_fuel (text : string) (n : nat) :
  (String.length text < n)%nat → JSON.parse_value n text = JSON.parse_value (S (String.length text)) text.
Proof.
  intros Hn. symmetry.
  destruct (decide (n ≤ S (String.length text))%nat).
  - assert (n = S (String.length text)) as -> by lia. done.
  - symmetry. apply (parse_fuel_all (S (String.length text)) n); lia.
Qed.

(** [JSON.parse] gives the answer of the parser with any larger fuel. *)
Lemma parse_fuel_independent (text : string) (n : nat) :
  (2 * String.length text + 2 ≤ n)%nat →
  JSON.parse_value n text
  = JSON.parse_value (2 * String.length text + 2) text.
Proof.
  intros Hn. rewrite (parse_value_fuel text n) by lia.
  rewrite (parse_value_fuel text (2 * String.length text + 2)) by lia.
  reflexivity.
Qed.

(** ** Emptying the trash *)

Section EmptyTrash.
Variable fault : nat → bool.

(** The image references of a list of trash entries, in order. *)
Definition image_refs (l : list (Id * Item)) : list Id :=
  omap (λ x, imageId x.2) l.

Definition delete_images (ks : list Id) (m : gmap Id string) : gmap Id string :=
  foldl (λ m k, delete k m) m ks.

Lemma lookup_delete_images ks m i :
  delete_images ks m !! i = if decide (i ∈ ks) then None else m !! i.
Proof.
  revert m. induction ks as [|k ks IH]; intros m.
  - destruct (decide (i ∈ [])) as [H|H]; [set_solver | done].
  - change (delete_images (k :: ks) m) with (delete_images ks (delete k m)).
    rewrite IH.
    destruct (decide (i = k)) as [->|Hne].
    + rewrite lookup_delete_eq.
      rewrite (decide_True _ _ (list_elem_of_here k ks)).
      by destruct (decide (k ∈ ks)).
    + rewrite lookup_delete_ne by done.
      destruct (decide (i ∈ ks)) as [Hks|Hks].
      * by rewrite decide_True by (by right).
      * rewrite decide_False; [done|].
        intros [?|?]%elem_of_cons; done.
Qed.

Definition delete_image_request (item : Id * Item) : Storage.Tx unit :=
  match imageId item.2 with
  | Some k =>
      Storage.tx_request fault [EvDelete "images" (KId k)]
        (λ s, (tt, set_images (delete k (images s)) s))
  | None => Storage.tx_ret tt
  end.

(** The loop of the success callback: when no request errors, exactly
    the referenced images are deleted, nothing else is touched. *)
Lemma delete_loop_commits l s n lg r :
  Storage.tx_for_each l delete_image_request (s, n, lg) = Some r →
  ∃ n' lg', r = (tt, (set_images (delete_images (image_refs l) (images s)) s, n', lg')).
Proof.
  revert s n lg r. induction l as [|x l IH]; intros s n lg r; simpl.
  - intros [= <-]. exists n, lg. by destruct s.
  - unfold mbind, Storage.Tx_MBind, Storage.tx_bind.
    unfold delete_image_request at 1, image_refs. simpl.
    destruct (imageId x.2) as [k|]; simpl.
    + destruct (fault n); [done|]. intros H.
      apply IH in H as (n' & lg' & ->). exists n', lg'.
      by destruct s.
    + unfold Storage.tx_ret. apply IH.
Qed.

Lemma delete_loop_no_fault l s n lg :
  (∀ i, fault i = false) →
  is_Some (Storage.tx_for_each l delete_image_request (s, n, lg)).
Proof.
  intros Hf. revert s n lg. induction l as [|x l IH]; intros s n lg; simpl.
  - by eexists.
  - unfold mbind, Storage.Tx_MBind, Storage.tx_bind.
    unfold delete_image_request at 1.
    destruct (imageId x.2) as [k|]; simpl.
    + rewrite Hf. apply IH.
    + apply IH.
Qed.

Lemma emptyTrash_unfold s :
  Storage.emptyTrash fault s =
  if fault 0 then (Thrown "transaction aborted", s, [])
  else match Storage.tx_for_each (get_all (trash s)) delete_image_request
               (s, 1, []) with
       | Some (_, (s1, n, lg)) =>
           if fault n then (Thrown "transaction aborted", s, [])
           else (Done tt, set_trash ∅ s1, lg ++ [EvClear "trash"])
       | None => (Thrown "transaction aborted", s, [])
       end.
Proof.
  unfold Storage.emptyTrash, Storage.transaction.
  unfold mbind, Storage.Tx_MBind, Storage.tx_bind. simpl.
  destruct (fault 0); [done|]. simpl.
  fold delete_image_request.
  change (λ item : Id * Item, match imageId item.2 with
           | Some k => Storage.tx_request fault [EvDelete "images" (KId k)]
                         (λ s0, (tt, set_images (delete k (images s0)) s0))
           | None => mret tt end) with delete_image_request.
  destruct (Storage.tx_for_each _ _ _) as [[[] [[s1 n] lg]]|]; [|done].
  simpl. by destruct (fault n).
Qed.
End EmptyTrash.

Lemma elem_of_image_refs (m : gmap Id Item) i :
  i ∈ image_refs (get_all m) ↔ ∃ k it, m !! k = Some it ∧ imageId it = Some i.
Proof.
  unfold image_refs. rewrite list_elem_of_omap. split.
  - intros ([k it] & Hin & Hi). exists k, it.
    by apply elem_of_get_all in Hin.
  - intros (k & it & Hk & Hi). exists (k, it).
    by rewrite elem_of_get_all.
Qed.

(** C1. Whatever requests of the transaction fail: when [emptyTrash]
    resolves, the trash store is empty, the image of every former trash
    entry is gone, every image no trash entry referred to is as it was
    (so is the image of an active item that shares it with no trash entry),
    and no other store changed; when it rejects, the whole store is as
    before, with trash entries and images intact.  Without a failing
    request it resolves. *)
Theorem emptyTrash_atomic (fault : nat → bool) (s : Store) :
  match Storage.emptyTrash fault s with
  | (Done _, s', _) =>
      trash s' = ∅
      ∧ (∀ k it i, trash s !! k = Some it → imageId it = Some i →
                   images s' !! i = None)
      ∧ (∀ i, (∀ k it, trash s !! k = Some it → imageId it ≠ Some i) →
              images s' !! i = images s !! i)
      ∧ (∀ k it i, rows (items s) !! k = Some it → imageId it = Some i →
                   (∀ k' it', trash s !! k' = Some it' → imageId it' ≠ Some i) →
                   images s' !! i = images s !! i)
      ∧ items s' = items s ∧ weeklyPlan s' = weeklyPlan s
      ∧ savedOutfits s' = savedOutfits s
      ∧ customSections s' = customSections s
      ∧ shoppingList s' = shoppingList s
      ∧ localStorage s' = localStorage s
  | (Thrown _, s', _) => s' = s
  end
  ∧ ((∀ n, fault n = false) →
     result_of (Storage.emptyTrash fault s) = Done tt).
Proof.
  rewrite emptyTrash_unfold. split.
  - destruct (fault 0); [done|].
    destruct (Storage.tx_for_each _ _ _) as [r|] eqn:Hloop; [|done].
    apply delete_loop_commits in Hloop as (n & lg & ->).
    destruct (fault n); [done|]. simpl.
    assert (Hkeep : ∀ i, (∀ k it, trash s !! k = Some it → imageId it ≠ Some i) →
      delete_images (image_refs (get_all (trash s))) (images s) !! i
      = images s !! i).
    { intros i Hi. rewrite lookup_delete_images, decide_False; [done|].
      intros (k & it & Hk & Hit)%elem_of_image_refs. by eapply Hi. }
    repeat split; try done.
    + intros k it i Hk Hi. rewrite lookup_delete_images, decide_True; [done|].
      apply elem_of_image_refs. eauto.
    + intros k it i _ _. apply Hkeep.
  - intros Hf. rewrite (Hf 0).
    destruct (delete_loop_no_fault fault (get_all (trash s)) s 1 [] Hf)
      as [r Hr].
    rewrite Hr. apply delete_loop_commits in Hr as (n & lg & ->).
    by rewrite (Hf n).
Qed.

(** Two trash entries with images 7 and 8, an active item with image 9. *)
Definition trash_store : Store :=
  set_trash
    {[ 1%positive := mkItem (Some 7%positive) "tops" false false (Some true)
                            "2024-01-01" (Some "2024-01-05") (Some "tops");
       2%positive := mkItem (Some 8%positive) "other" false false (Some true)
                            "2024-01-02" (Some "2024-01-05") (Some "other") ]}
    (set_items
       (mkTable {[ 3%positive := mkItem (Some 9%positive) "tops" false false None
                                        "2024-01-03" None None ]} 4%positive)
       (set_images {[ 7%positive := "img7"; 8%positive := "img8";
                      9%positive := "img9" ]} empty_store)).

Definition no_fault (n : nat) : bool := false.

(** The third request of the transaction (the second image delete) errors. *)
Definition third_request_fails (n : nat) : bool := bool_decide (n = 2%nat).

Example emptyTrash_commits :
  let r := Storage.emptyTrash no_fault trash_store in
  result_of r = Done tt
  ∧ trash (store_of r) = ∅
  ∧ images (store_of r) = {[ 9%positive := "img9" ]}
  ∧ log_of r = [EvDelete "images" (KId 7%positive);
                EvDelete "images" (KId 8%positive); EvClear "trash"].
Proof. cbv zeta. split_and!; vm_compute; reflexivity. Qed.

Example emptyTrash_rolls_back :
  Storage.emptyTrash third_request_fails trash_store
  = (Thrown "transaction aborted", trash_store, []).
Proof. vm_compute. reflexivity. Qed.

(** ** The trash round trip of an item *)

Ltac run_M :=
  unfold mbind, mret, M_MBind, M_MRet, M_bind, M_ret, reads, writes,
    result_of, store_of, log_of; simpl.

(** What [App.deleteItem] stores in the trash for an item. *)
Definition trashed (now : string) (it : Item) : Item :=
  set_originalCategory (Some (category it))
    (set_deletedDate (Some now) (set_deleted (Some true) it)).

(** What [App.restoreItem] stores back for a trash entry. *)
Definition restored (it : Item) : Item :=
  set_originalCategory None
    (set_deletedDate None
       (set_category (or_string (originalCategory it) "other")
          (set_deleted (Some false) it))).

Lemma deleteItem_found now id s it :
  rows (items s) !! id = Some it →
  App.deleteItem now id s =
  (Done tt,
   set_items (table_delete id (items s))
     (set_trash (<[id := trashed now it]> (trash s)) s),
   [EvPut "trash" (KId id); EvDelete "items" (KId id)]).
Proof.
  intros H. unfold App.deleteItem, Storage.getItem, Storage.saveToTrash,
    Storage.deleteItem. run_M. by rewrite H.
Qed.

Lemma deleteItem_missing now id s :
  rows (items s) !! id = None → App.deleteItem now id s = (Done tt, s, []).
Proof.
  intros H. unfold App.deleteItem, Storage.getItem. run_M. by rewrite H.
Qed.

Lemma restoreItem_found id s it :
  trash s !! id = Some it →
  App.restoreItem id s =
  (Done tt,
   set_items (table_put (Some id) (restored it) (items s)).2
     (set_trash (delete id (trash s)) s),
   [EvDelete "trash" (KId id); EvPut "items" (KId id)]).
Proof.
  intros H. unfold App.restoreItem, Storage.restoreFromTrash, Storage.saveItem.
  run_M. by rewrite H.
Qed.

Lemma restoreItem_missing id s :
  trash s !! id = None →
  App.restoreItem id s =
  (Done tt, set_trash (delete id (trash s)) s, [EvDelete "trash" (KId id)]).
Proof.
  intros H. unfold App.restoreItem, Storage.restoreFromTrash. run_M.
  by rewrite H.
Qed.

(** An active item in [tops], marked as favorite. *)
Definition top_item : Item :=
  mkItem (Some 7%positive) "tops" true false None "2024-01-01T00:00:00.000Z" None None.

Definition top_store : Store :=
  set_items (mkTable {[ 1%positive := top_item ]} 2%positive)
    (set_images {[ 7%positive := "data:image/png;base64,AAAA" ]} empty_store).

(** The categories of the data model, the four fixed ones and
    [custom-<id>] for a section, are not empty: [originalCategory || 'other']
    is the recorded category for each of them. *)
Lemma category_options_nonempty
    (customSections : list (Id * CustomSection)) (c : string) :
  c ∈ UI.category_options customSections → c ≠ "".
Proof.
  unfold UI.category_options.
  intros [Hfixed|Hcustom]%elem_of_app.
  - repeat (apply elem_of_cons in Hfixed as [->|Hfixed]; [discriminate|]).
    by apply elem_of_nil in Hfixed.
  - apply list_elem_of_fmap in Hcustom as (section & -> & _).
    unfold custom_category. simpl. discriminate.
Qed.

(** C2. For an active item whose category is not the empty string, which
    holds of every category of the data model
    ([category_options_nonempty]), [App.deleteItem] followed by
    [App.restoreItem] moves it to the trash with its category recorded as
    [originalCategory], and then stores back, under the same id, the
    original record with [deleted = false] and without [deletedDate] and
    [originalCategory]: the category is the recorded one, [favorite] and
    the other fields are preserved, and the trash has no entry for the
    id. *)
Theorem delete_restore_roundtrip (now : string) (id : Id) (s : Store) (it : Item) :
  rows (items s) !! id = Some it →
  category it ≠ "" →
  let s1 := store_of (App.deleteItem now id s) in
  let s2 := store_of (App.restoreItem id s1) in
  rows (items s1) !! id = None
  ∧ (∃ it1, trash s1 !! id = Some it1
            ∧ deleted it1 = Some true
            ∧ originalCategory it1 = Some (category it))
  ∧ rows (items s2) !! id =
      Some (set_originalCategory None
              (set_deletedDate None (set_deleted (Some false) it)))
  ∧ (∃ it1 it2, trash s1 !! id = Some it1
            ∧ rows (items s2) !! id = Some it2
            ∧ deleted it2 = Some false
            ∧ Some (category it2) = originalCategory it1
            ∧ category it2 = category it
            ∧ favorite it2 = favorite it
            ∧ imageId it2 = imageId it
            ∧ laundry it2 = laundry it
            ∧ dateAdded it2 = dateAdded it)
  ∧ trash s2 !! id = None.
Proof.
  intros Hit Hcat s1 s2. subst s1 s2.
  rewrite (deleteItem_found now id s it Hit).
  change (store_of (Done tt, ?x, ?l)) with x.
  set (s1 := set_items _ _).
  assert (Htr : trash s1 !! id = Some (trashed now it))
    by apply lookup_insert_eq.
  rewrite (restoreItem_found id s1 _ Htr).
  change (store_of (Done tt, ?x, ?l)) with x.
  assert (Hrest : restored (trashed now it) =
    set_originalCategory None (set_deletedDate None (set_deleted (Some false) it))).
  { unfold restored, trashed, or_string. simpl.
    destruct it as [i c f l d da dd oc]; simpl in *.
    by rewrite decide_False by done. }
  rewrite Hrest.
  split_and!.
  - apply lookup_delete_eq.
  - exists (trashed now it). split; [apply lookup_insert_eq|done].
  - apply lookup_insert_eq.
  - exists (trashed now it). eexists.
    split; [apply lookup_insert_eq|]. split; [apply lookup_insert_eq|done].
  - apply lookup_delete_eq.
Qed.

Lemma delete_restore_roundtrip_witness :
  rows (items top_store) !! 1%positive = Some top_item
  ∧ rows (items (store_of (App.restoreItem 1%positive
            (store_of (App.deleteItem "2024-02-02T00:00:00.000Z" 1%positive top_store)))))
      !! 1%positive = Some (set_deleted (Some false) top_item).
Proof.
  split; [reflexivity|].
  apply (delete_restore_roundtrip "2024-02-02T00:00:00.000Z" 1%positive
           top_store top_item); [reflexivity | discriminate].
Defined.

(** C10. [App.restoreItem] puts a trash entry whose [originalCategory] is
    missing or empty into ['other'], and the record it stores back has
    neither [deletedDate] nor [originalCategory], whatever the entry. *)
Theorem restoreItem_defaults (id : Id) (s : Store) (it : Item) :
  trash s !! id = Some it →
  let s' := store_of (App.restoreItem id s) in
  ∃ it', rows (items s') !! id = Some it'
         ∧ deletedDate it' = None
         ∧ originalCategory it' = None
         ∧ deleted it' = Some false
         ∧ (originalCategory it = None ∨ originalCategory it = Some "" →
            category it' = "other")
         ∧ (∀ c, originalCategory it = Some c → c ≠ "" → category it' = c).
Proof.
  intros Hit s'. subst s'. rewrite (restoreItem_found id s it Hit).
  unfold store_of. simpl. exists (restored it).
  split; [apply lookup_insert_eq|].
  unfold restored, or_string. simpl. split_and!; try done.
  - intros [->| ->]; done.
  - intros c -> Hc. by rewrite decide_False.
Qed.

(** A trash entry left without [originalCategory]. *)
Definition stray_trash_store : Store :=
  set_trash {[ 3%positive :=
    mkItem (Some 9%positive) "tops" false false (Some true) "2024-01-01"
           (Some "2024-01-05") None ]} empty_store.

Lemma restoreItem_defaults_witness :
  ∃ it', rows (items (store_of (App.restoreItem 3%positive stray_trash_store)))
           !! 3%positive = Some it'
         ∧ deletedDate it' = None ∧ originalCategory it' = None
         ∧ category it' = "other".
Proof.
  destruct (restoreItem_defaults 3%positive stray_trash_store _ eq_refl)
    as (it' & H1 & H2 & H3 & _ & H4 & _).
  exists it'. split_and!; try done. apply H4. by left.
Defined.

(** The scenario of the specification: item A is created in [tops] with
    image [img1], made a favorite, deleted, and restored. *)
Definition scenario_item : Item :=
  mkItem (Some 7%positive) "tops" false false None "2024-01-01T00:00:00.000Z"
         None None.

Definition scenario : M unit :=
  Storage.saveImage 7%positive "img1";;
  a ← Storage.saveItem None scenario_item;
  App.toggleFavorite a;;
  App.deleteItem "2024-02-02T00:00:00.000Z" a;;
  App.restoreItem a.

Example favorite_survives_trash :
  let s := store_of (scenario empty_store) in
  rows (items s) !! 1%positive
  = Some (mkItem (Some 7%positive) "tops" true false (Some false)
                 "2024-01-01T00:00:00.000Z" None None)
  ∧ trash s = ∅
  ∧ images s !! 7%positive = Some "img1".
Proof. cbv zeta. split_and!; vm_compute; reflexivity. Qed.

(** ** The weekly planner *)

Lemma find_day_lookup (day : string) (m : gmap string DayPlan) :
  find_day day (get_all_named m) = pair day <$> m !! day.
Proof.
  unfold find_day.
  destruct (find _ _) as [[k d]|] eqn:Hfind.
  - apply find_some in Hfind as [Hin Hk].
    apply bool_decide_eq_true in Hk. simpl in Hk. subst k.
    apply list_elem_of_In, elem_of_get_all_named in Hin. by rewrite Hin.
  - destruct (m !! day) as [d|] eqn:Hm; [|done].
    apply elem_of_get_all_named, list_elem_of_In in Hm.
    apply (find_none _ _ Hfind) in Hm.
    by apply bool_decide_eq_false in Hm.
Qed.

Lemma find_current_day (day : string) (plan : list (string * DayPlan)) :
  find (λ d, bool_decide (Some d.1 = Some day)) plan = find_day day plan.
Proof.
  unfold find_day. induction plan as [|x plan IH]; [done|]. simpl.
  rewrite IH.
  destruct (decide (x.1 = day)) as [Heq|Hne].
  - by rewrite !bool_decide_eq_true_2 by congruence.
  - by rewrite !bool_decide_eq_false_2 by congruence.
Qed.

Lemma addToWeeklyOutfit_run (day : string) (itemId : Id) (s : Store) :
  DragDrop.addToWeeklyOutfit day itemId s =
  match weeklyPlan s !! day with
  | None => (Done tt, s, [])
  | Some d =>
      if decide (itemId ∈ ditems d) then (Done tt, s, [])
      else (Done tt,
            set_weeklyPlan
              (<[day := set_ditems (ditems d ++ [itemId]) d]> (weeklyPlan s)) s,
            [EvPut "weeklyPlan" (KName day)])
  end.
Proof.
  unfold DragDrop.addToWeeklyOutfit, Storage.getWeeklyPlan,
    Storage.saveWeeklyDay. run_M.
  rewrite find_day_lookup.
  destruct (weeklyPlan s !! day) as [d|]; simpl; [|done].
  unfold includes, bool_decide.
  destruct (decide_rel _ _ _); reflexivity.
Qed.

Lemma addToWeeklyFromModal_run (itemId : Id) (app : App.State) (s : Store) :
  App.addToWeeklyFromModal itemId app s =
  match App.currentWeeklyDay app with
  | None => (Done app, s, [])
  | Some day =>
      if decide (day = "") then (Done app, s, [])
      else
        match weeklyPlan s !! day with
        | None => (Done app, s, [])
        | Some d =>
            if decide (itemId ∈ ditems d) then (Done app, s, [])
            else (Done (App.closeWeeklyModal app),
                  set_weeklyPlan
                    (<[day := set_ditems (ditems d ++ [itemId]) d]> (weeklyPlan s)) s,
                  [EvPut "weeklyPlan" (KName day)])
        end
  end.
Proof.
  unfold App.addToWeeklyFromModal, Storage.getWeeklyPlan,
    Storage.saveWeeklyDay.
  destruct (App.currentWeeklyDay app) as [day|]; simpl; [|done].
  destruct (decide (day = "")); simpl; [done|]. run_M.
  rewrite find_current_day, find_day_lookup.
  destruct (weeklyPlan s !! day) as [d|]; simpl; [|done].
  unfold includes, bool_decide.
  destruct (decide_rel _ _ _); reflexivity.
Qed.

(** The calls that add to a day of the weekly plan: a drop on a day's
    canvas, and a pick in the modal opened for a day. *)
Inductive WeeklyCall :=
  | CallOpenWeeklyModal (day : string)
  | CallAddToWeeklyFromModal (itemId : Id)
  | CallAddToWeeklyOutfit (day : string) (itemId : Id).

Definition run_call (st : App.State * Store) (c : WeeklyCall) : App.State * Store :=
  match c with
  | CallOpenWeeklyModal day => (App.openWeeklyModal day st.1, st.2)
  | CallAddToWeeklyFromModal itemId =>
      match App.addToWeeklyFromModal itemId st.1 st.2 with
      | (Done app, s, _) => (app, s)
      | (Thrown _, s, _) => (st.1, s)
      end
  | CallAddToWeeklyOutfit day itemId =>
      (st.1, store_of (DragDrop.addToWeeklyOutfit day itemId st.2))
  end.

Definition run_calls (cs : list WeeklyCall) (st : App.State * Store)
  : App.State * Store :=
  foldl run_call st cs.

Definition weekly_no_duplicates (s : Store) : Prop :=
  ∀ day d, weeklyPlan s !! day = Some d → NoDup (ditems d).

(** The plan [UI.renderWeeklyOutfits] creates when the store has none. *)
Definition default_week : gmap string DayPlan :=
  list_to_map
    [("Monday", mkDayPlan "Business Casual" [] "");
     ("Tuesday", mkDayPlan "Client Day" [] "");
     ("Wednesday", mkDayPlan "Client Day" [] "");
     ("Thursday", mkDayPlan "Client Day" [] "");
     ("Friday", mkDayPlan "Casual Friday" [] "")].

Lemma NoDup_snoc_fresh (l : list Id) (x : Id) :
  NoDup l → x ∉ l → NoDup (l ++ [x]).
Proof.
  intros Hl Hx. apply NoDup_app. split_and!; [done| |apply NoDup_singleton].
  intros y Hy ->%list_elem_of_singleton. done.
Qed.

Lemma push_keeps_no_duplicates (s : Store) (day : string) (d : DayPlan) (x : Id) :
  weekly_no_duplicates s →
  weeklyPlan s !! day = Some d →
  x ∉ ditems d →
  weekly_no_duplicates
    (set_weeklyPlan (<[day := set_ditems (ditems d ++ [x]) d]> (weeklyPlan s)) s).
Proof.
  intros Hs Hd Hx day' d'. simpl. rewrite lookup_insert.
  destruct (decide (day = day')) as [->|Hne].
  - intros [= <-]. simpl. apply NoDup_snoc_fresh; eauto.
  - apply Hs.
Qed.

Lemma run_call_no_duplicates (st : App.State * Store) (c : WeeklyCall) :
  weekly_no_duplicates st.2 → weekly_no_duplicates (run_call st c).2.
Proof.
  destruct st as [app s]. intros Hs. destruct c as [day|itemId|day itemId]; simpl.
  - done.
  - rewrite addToWeeklyFromModal_run.
    destruct (App.currentWeeklyDay app) as [day|]; [|done].
    destruct (decide (day = "")); [done|].
    destruct (weeklyPlan s !! day) as [d|] eqn:Hd; [|done].
    destruct (decide (itemId ∈ ditems d)); [done|]. simpl.
    by apply push_keeps_no_duplicates.
  - rewrite addToWeeklyOutfit_run.
    destruct (weeklyPlan s !! day) as [d|] eqn:Hd; [|done].
    destruct (decide (itemId ∈ ditems d)); [done|].
    by apply push_keeps_no_duplicates.
Qed.

(** C3. From a weekly plan without duplicates (such as the default week),
    no sequence of [addToWeeklyOutfit] and [addToWeeklyFromModal] calls,
    with the modal opened on any days in between, stores a day whose items
    contain an id twice; and an add of an id the day already has leaves
    the store, hence the day's plan, as it was. *)
Theorem weekly_items_never_duplicate
    (calls : list WeeklyCall) (app : App.State) (s : Store) :
  weekly_no_duplicates s →
  weekly_no_duplicates (run_calls calls (app, s)).2
  ∧ (∀ day itemId d,
       weeklyPlan s !! day = Some d → itemId ∈ ditems d →
       DragDrop.addToWeeklyOutfit day itemId s = (Done tt, s, [])
       ∧ App.addToWeeklyFromModal itemId (App.openWeeklyModal day app) s
         = (Done (App.openWeeklyModal day app), s, [])).
Proof.
  intros Hs. split.
  - unfold run_calls. revert app s Hs.
    induction calls as [|c calls IH]; intros app s Hs; [done|]. simpl.
    pose proof (run_call_no_duplicates (app, s) c Hs) as Hstep.
    destruct (run_call (app, s) c) as [app' s']. by apply IH.
  - intros day itemId d Hd Hin. split.
    + rewrite addToWeeklyOutfit_run, Hd. by rewrite decide_True.
    + rewrite addToWeeklyFromModal_run. simpl.
      destruct (decide (day = "")); [done|].
      rewrite Hd. by rewrite decide_True.
Qed.

Definition week_store : Store := set_weeklyPlan default_week empty_store.

Lemma weekly_items_never_duplicate_witness :
  weekly_no_duplicates week_store
  ∧ weekly_no_duplicates
      (run_calls [CallAddToWeeklyOutfit "Monday" 5%positive;
                  CallAddToWeeklyOutfit "Monday" 5%positive;
                  CallOpenWeeklyModal "Monday";
                  CallAddToWeeklyFromModal 5%positive;
                  CallAddToWeeklyFromModal 6%positive]
                 (App.mkState None, week_store)).2.
Proof.
  assert (H : weekly_no_duplicates week_store).
  { intros day d Hd. unfold week_store, default_week in Hd. simpl in Hd.
    repeat (rewrite lookup_insert in Hd; case_decide;
            [injection Hd as <-; apply NoDup_nil_2|]).
    by rewrite lookup_empty in Hd. }
  split; [exact H|].
  apply (weekly_items_never_duplicate _ (App.mkState None) week_store H).
Defined.

Example weekly_repeated_add :
  ditems <$> weeklyPlan
    (run_calls [CallAddToWeeklyOutfit "Monday" 5%positive;
                CallAddToWeeklyOutfit "Monday" 5%positive;
                CallOpenWeeklyModal "Monday";
                CallAddToWeeklyFromModal 5%positive;
                CallOpenWeeklyModal "Monday";
                CallAddToWeeklyFromModal 6%positive]
               (App.mkState None, week_store)).2 !! "Monday"
  = Some [5%positive; 6%positive].
Proof. vm_compute. reflexivity. Qed.

(** ** Deleting a custom section *)

(** What [App.deleteSection] stores in the trash for an item. *)
Definition section_trashed (it : Item) : Item :=
  set_originalCategory (Some (category it)) (set_deleted (Some true) it).

Definition relocation_events (l : list (Id * Item)) : list Event :=
  flat_map (λ x, [EvPut "trash" (KId x.1); EvDelete "items" (KId x.1)]) l.

Definition relocate (l : list (Id * Item)) (s : Store) : Store :=
  set_items
    (mkTable (foldl (λ m x, delete x.1 m) (rows (items s)) l) (keygen (items s)))
    (set_trash (foldl (λ m x, <[x.1 := section_trashed x.2]> m) (trash s) l) s).

Lemma relocation_loop (l : list (Id * Item)) (s : Store) :
  for_each l App.trash_section_item s =
  (Done tt, relocate l s, relocation_events l).
Proof.
  revert s. induction l as [|x l IH]; intros s.
  - simpl. unfold relocate. simpl. by destruct s as [[] ? ? ? ? ? ? ?].
  - simpl. unfold mbind, M_MBind, M_bind.
    unfold App.trash_section_item at 1, Storage.saveToTrash, Storage.deleteItem,
      writes. unfold mbind, M_MBind, M_bind. rewrite IH. by destruct s.
Qed.

Lemma lookup_foldl_delete {V} (l : list (Id * V)) (m : gmap Id Item) (k : Id) :
  foldl (λ m x, delete x.1 m) m l !! k =
  if decide (k ∈ l.*1) then None else m !! k.
Proof.
  revert m. induction l as [|x l IH]; intros m.
  - destruct (decide (k ∈ ([] : list (Id * V)).*1)) as [Hin|Hin];
      [set_solver | done].
  - change (foldl (λ m x, delete x.1 m) m (x :: l))
      with (foldl (λ m (x : Id * V), delete x.1 m) (delete x.1 m) l).
    rewrite IH. rewrite fmap_cons.
    destruct (decide (k = x.1)) as [->|Hne].
    + rewrite lookup_delete_eq, (decide_True _ _ (list_elem_of_here _ _)).
      by destruct (decide _).
    + rewrite lookup_delete_ne by done.
      destruct (decide (k ∈ l.*1)) as [Hin|Hin].
      * by rewrite decide_True by (by right).
      * rewrite decide_False; [done|]. by intros [?|?]%elem_of_cons.
Qed.

Lemma lookup_foldl_insert_fresh {K V W} `{Countable K}
    (f : W → V) (l : list (K * W)) (m : gmap K V) (k : K) :
  k ∉ l.*1 →
  foldl (λ m x, <[x.1 := f x.2]> m) m l !! k = m !! k.
Proof.
  revert m. induction l as [|x l IH]; intros m Hk; [done|].
  rewrite fmap_cons in Hk. apply not_elem_of_cons in Hk as [Hne Hk].
  simpl. rewrite IH by done. by apply lookup_insert_ne.
Qed.

Lemma lookup_foldl_insert_member {K V W} `{Countable K}
    (f : W → V) (l : list (K * W)) (m : gmap K V) (k : K) (w : W) :
  NoDup l.*1 → (k, w) ∈ l →
  foldl (λ m x, <[x.1 := f x.2]> m) m l !! k = Some (f w).
Proof.
  revert m. induction l as [|x l IH]; intros m Hnd Hin.
  - by apply elem_of_nil in Hin.
  - simpl in *. apply NoDup_cons in Hnd as [Hx Hnd].
    apply elem_of_cons in Hin as [<-|Hin].
    + rewrite lookup_foldl_insert_fresh by done. apply lookup_insert_eq.
    + by apply IH.
Qed.

Lemma elem_of_section_items sectionId (m : gmap Id Item) k it :
  (k, it) ∈ App.section_items sectionId (get_all m)
  ↔ m !! k = Some it ∧ category it = custom_category sectionId.
Proof.
  unfold App.section_items. rewrite list_elem_of_filter, elem_of_get_all.
  simpl. tauto.
Qed.

Lemma NoDup_section_items sectionId (m : gmap Id Item) :
  NoDup (App.section_items sectionId (get_all m)).*1.
Proof.
  unfold App.section_items.
  eapply sublist_NoDup; [apply (NoDup_fst_get_all m)|].
  apply fmap_sublist, sublist_filter.
Qed.

Lemma deleteSection_run (sectionId : Id) (s : Store) :
  let l := App.section_items sectionId (get_all (rows (items s))) in
  App.deleteSection true sectionId s =
  (Done tt,
   set_customSections (table_delete sectionId (customSections s)) (relocate l s),
   relocation_events l ++ [EvDelete "customSections" (KId sectionId)]).
Proof.
  unfold App.deleteSection, Storage.getAllItems, Storage.deleteCustomSection.
  simpl. unfold mbind, M_MBind, M_bind, reads, writes.
  rewrite relocation_loop. reflexivity.
Qed.

Lemma relocate_items_lookup sectionId (s : Store) (k : Id) :
  let l := App.section_items sectionId (get_all (rows (items s))) in
  rows (items (relocate l s)) !! k =
  match rows (items s) !! k with
  | Some it =>
      if decide (category it = custom_category sectionId) then None else Some it
  | None => None
  end.
Proof.
  intros l. unfold relocate. simpl. rewrite lookup_foldl_delete.
  destruct (rows (items s) !! k) as [it|] eqn:Hk.
  - destruct (decide (category it = custom_category sectionId)) as [Hc|Hc].
    + rewrite decide_True; [done|].
      apply list_elem_of_fmap. exists (k, it). split; [done|].
      by apply elem_of_section_items.
    + rewrite decide_False; [done|].
      intros ([k' it'] & -> & Hin)%list_elem_of_fmap.
      apply elem_of_section_items in Hin as [Hk' Hc']. simpl in *. congruence.
  - by destruct (decide _).
Qed.

Lemma relocate_trash_lookup sectionId (s : Store) (k : Id) (it : Item) :
  let l := App.section_items sectionId (get_all (rows (items s))) in
  rows (items s) !! k = Some it →
  category it = custom_category sectionId →
  trash (relocate l s) !! k = Some (section_trashed it).
Proof.
  intros l Hk Hc. unfold relocate. simpl.
  apply (lookup_foldl_insert_member section_trashed);
    [apply NoDup_section_items|].
  by apply elem_of_section_items.
Qed.

(** The cascade as the specification words it, for every call of
    [App.deleteSection]. *)
Definition deleteSection_always_cascades : Prop :=
  ∀ (confirmed : bool) (sectionId : Id) (s : Store) (k : Id) (it : Item),
    rows (items s) !! k = Some it →
    category it = custom_category sectionId →
    let s' := store_of (App.deleteSection confirmed sectionId s) in
    rows (items s') !! k = None
    ∧ ∃ it', trash s' !! k = Some it'
             ∧ deleted it' = Some true
             ∧ originalCategory it' = Some (category it).

(** Section 1 with one item in it. *)
Definition scarf : Item :=
  mkItem (Some 9%positive) "custom-1" false false None "2024-01-01T00:00:00.000Z"
         None None.

Definition section_store : Store :=
  set_items (mkTable {[ 4%positive := scarf ]} 5%positive)
    (set_customSections (mkTable {[ 1%positive := mkSection "Scarves" ]} 2%positive)
       empty_store).

(** C7, as stated, fails when the dialog is declined: [deleteSection]
    returns at once, and the item of section 1 is still active and not in
    the trash. *)
Lemma deleteSection_declined_counterexample : ¬ deleteSection_always_cascades.
Proof.
  intros H.
  destruct (H false 1%positive section_store 4%positive scarf eq_refl eq_refl)
    as [Hgone _].
  vm_compute in Hgone. discriminate Hgone.
Qed.

(** C7, amended. When the dialog is confirmed, [App.deleteSection] moves
    every active item whose category is [custom-<id>] to the trash, with
    [deleted = true] and its category recorded as [originalCategory], and
    removes it from the active items; the other active items stay.  The
    section record is deleted by the last request, issued in a state where
    the section is still there and no active item has its category any
    more; so if every custom category of an active item named an existing
    section before, it does so afterwards.  When the dialog is declined
    nothing is changed. *)
Theorem deleteSection_cascades (sectionId : Id) (s : Store) :
  let r := App.deleteSection true sectionId s in
  let moved := App.section_items sectionId (get_all (rows (items s))) in
  let s' := store_of r in
  result_of r = Done tt
  ∧ (∀ k it, rows (items s) !! k = Some it →
             category it = custom_category sectionId →
             rows (items s') !! k = None
             ∧ ∃ it', trash s' !! k = Some it'
                      ∧ deleted it' = Some true
                      ∧ originalCategory it' = Some (category it)
                      ∧ it' = section_trashed it)
  ∧ (∀ k it, rows (items s') !! k = Some it →
             rows (items s) !! k = Some it
             ∧ category it ≠ custom_category sectionId)
  ∧ (∀ k it, rows (items s) !! k = Some it →
             category it ≠ custom_category sectionId →
             rows (items s') !! k = Some it)
  ∧ (∃ s_mid,
       for_each moved App.trash_section_item s
         = (Done tt, s_mid, relocation_events moved)
       ∧ customSections s_mid = customSections s
       ∧ (∀ k it, rows (items s_mid) !! k = Some it →
                  category it ≠ custom_category sectionId)
       ∧ s' = store_of (Storage.deleteCustomSection sectionId s_mid))
  ∧ log_of r = relocation_events moved
                 ++ [EvDelete "customSections" (KId sectionId)]
  ∧ rows (customSections s') = delete sectionId (rows (customSections s))
  ∧ ((∀ k it sec, rows (items s) !! k = Some it →
                  category it = custom_category sec →
                  is_Some (rows (customSections s) !! sec)) →
     (∀ k it sec, rows (items s') !! k = Some it →
                  category it = custom_category sec →
                  is_Some (rows (customSections s') !! sec)))
  ∧ App.deleteSection false sectionId s = (Done tt, s, []).
Proof.
  intros r moved s'. subst r s'. rewrite deleteSection_run. fold moved.
  unfold result_of, store_of, log_of.
  cbn [fst snd items trash customSections set_customSections rows table_delete].
  assert (Hleft : ∀ k it, rows (items (relocate moved s)) !! k = Some it →
            rows (items s) !! k = Some it
            ∧ category it ≠ custom_category sectionId).
  { intros k it. subst moved. rewrite relocate_items_lookup.
    destruct (rows (items s) !! k) as [it0|]; [|done].
    destruct (decide _); [done|]. by intros [= <-]. }
  split_and!.
  - done.
  - intros k it Hk Hc. split.
    + subst moved. rewrite relocate_items_lookup, Hk. by rewrite decide_True.
    + exists (section_trashed it). split_and!; try done.
      by apply relocate_trash_lookup.
  - exact Hleft.
  - intros k it Hk Hc. subst moved. rewrite relocate_items_lookup, Hk.
    by rewrite decide_False.
  - exists (relocate moved s). split_and!.
    + apply relocation_loop.
    + done.
    + intros k it Hk. by apply Hleft in Hk as [_ ?].
    + done.
  - done.
  - done.
  - intros Hall k it sec Hk Hc.
    apply Hleft in Hk as [Hk Hne].
    rewrite lookup_delete_ne; [by eapply Hall|].
    intros <-. done.
  - done.
Qed.

Example deleteSection_confirmed :
  let r := App.deleteSection true 1%positive section_store in
  rows (items (store_of r)) = ∅
  ∧ trash (store_of r) !! 4%positive
    = Some (mkItem (Some 9%positive) "custom-1" false false (Some true)
                   "2024-01-01T00:00:00.000Z" None (Some "custom-1"))
  ∧ rows (customSections (store_of r)) = ∅
  ∧ log_of r = [EvPut "trash" (KId 4%positive); EvDelete "items" (KId 4%positive);
                EvDelete "customSections" (KId 1%positive)].
Proof. cbv zeta. split_and!; vm_compute; reflexivity. Qed.

(** ** Settings *)

(** What [getSetting(key, dflt)] returns in a store. *)
Definition setting_value (key : string) (dflt : JsVal) (s : Store) : JsVal :=
  match result_of (Storage.getSetting key dflt s) with
  | Done v => v
  | Thrown _ => dflt
  end.

Lemma getSetting_value (key : string) (dflt : JsVal) (s : Store) :
  Storage.getSetting key dflt s = (Done (setting_value key dflt s), s, []).
Proof. reflexivity. Qed.

(** The claim as the specification words it: a stored value that fails
    JSON decoding reads as the default. *)
Definition decode_failure_reads_default : Prop :=
  ∀ (key : string) (defaultValue : JsVal) (s : Store) (raw : string),
    localStorage s !! ("wardrobe_" +:+ key) = Some raw →
    JSON.parse raw = None →
    result_of (Storage.getSetting key defaultValue s) = Done defaultValue.

(** The store after [setSetting('tempUnit', 'celsius')] on a fresh one. *)
Definition celsius_store : Store :=
  store_of (Storage.setSetting "tempUnit" (JStr "celsius") empty_store).

(** C4, as stated, fails: ['celsius'] is stored as it is, it is not JSON,
    and [getSetting('tempUnit', 'fahrenheit')] returns it, not the
    default. *)
Lemma getSetting_decode_failure_counterexample :
  ¬ decode_failure_reads_default.
Proof.
  intros H.
  specialize (H "tempUnit" (JStr "fahrenheit") celsius_store "celsius"
                eq_refl eq_refl).
  vm_compute in H. discriminate H.
Qed.

(** C4, amended. [getSetting(key, default)] returns the default when the
    key has never been set; when the stored text fails JSON decoding it
    returns that text itself, as a string; when it decodes, the decoded
    value.  It changes nothing.  On an uninitialized store
    [getSetting('tempUnit', 'fahrenheit')] returns ['fahrenheit']. *)
Theorem getSetting_cases (key : string) (defaultValue : JsVal) (s : Store) :
  (localStorage s !! ("wardrobe_" +:+ key) = None →
   Storage.getSetting key defaultValue s = (Done defaultValue, s, []))
  ∧ (∀ raw, localStorage s !! ("wardrobe_" +:+ key) = Some raw →
            JSON.parse raw = None →
            Storage.getSetting key defaultValue s = (Done (JStr raw), s, []))
  ∧ (∀ raw v, localStorage s !! ("wardrobe_" +:+ key) = Some raw →
              JSON.parse raw = Some v →
              Storage.getSetting key defaultValue s = (Done v, s, []))
  ∧ Storage.getSetting "tempUnit" (JStr "fahrenheit") empty_store
    = (Done (JStr "fahrenheit"), empty_store, []).
Proof.
  unfold Storage.getSetting, reads. split_and!.
  - by intros ->.
  - by intros raw -> ->.
  - by intros raw v -> ->.
  - reflexivity.
Qed.

Example getSetting_after_setSetting :
  result_of (Storage.getSetting "tempUnit" (JStr "fahrenheit") celsius_store)
  = Done (JStr "celsius").
Proof. vm_compute. reflexivity. Qed.

(** ** Deleting a shopping item *)

(** A shopping list with one entry that owns image 7. *)
Definition shoes : ShoppingItem :=
  mkShoppingItem "Shoes" "black" "$40" (Some 7%positive).

Definition shopping_store : Store :=
  set_shoppingList (mkTable {[ 1%positive := shoes ]} 2%positive)
    (set_images {[ 7%positive := "data:image/png;base64,AAAA" ]} empty_store).

Lemma deleteShoppingItem_run (itemId : Id) (s : Store) :
  App.deleteShoppingItem itemId s =
  (Done tt, set_shoppingList (table_delete itemId (shoppingList s)) s,
   [EvDelete "shoppingList" (KId itemId)]).
Proof. reflexivity. Qed.

(** C8 fails on the code: [App.deleteShoppingItem] deletes the shopping
    record and nothing else.  Here the only owner of image 7 is deleted and
    the image record stays, referenced by no item and no shopping item. *)
Theorem deleteShoppingItem_leaves_image :
  let s' := store_of (App.deleteShoppingItem 1%positive shopping_store) in
  rows (shoppingList shopping_store) !! 1%positive = Some shoes
  ∧ sh_imageId shoes = Some 7%positive
  ∧ rows (shoppingList s') = ∅
  ∧ rows (items s') = ∅
  ∧ trash s' = ∅
  ∧ images s' !! 7%positive = Some "data:image/png;base64,AAAA"
  ∧ ∀ itemId s, images (store_of (App.deleteShoppingItem itemId s)) = images s.
Proof.
  split_and!; try reflexivity.
Qed.

(** ** Importing a backup *)

(** Running a loop of [put]s on a store with a key generator. *)
Definition put_all {V} (l : list (option Id * V)) (t : Table V) : Table V :=
  foldl (λ t x, (table_put x.1 x.2 t).2) t l.

(** The keys the [put]s of such a loop resolve with, in order. *)
Fixpoint put_keys {V} (l : list (option Id * V)) (t : Table V) : list Id :=
  match l with
  | [] => []
  | x :: l' => (table_put x.1 x.2 t).1 :: put_keys l' (table_put x.1 x.2 t).2
  end.

Definition put_events {V} (name : string) (l : list (option Id * V)) (t : Table V)
  : list Event :=
  map (λ k, EvPut name (KId k)) (put_keys l t).

Definition insert_all {K V} `{Countable K} (l : list (K * V)) (m : gmap K V)
  : gmap K V :=
  foldl (λ m x, <[x.1 := x.2]> m) m l.

Lemma bind_done {A B} (m : M A) (k : A → M B) (s s1 : Store) (a : A) l1 :
  m s = (Done a, s1, l1) →
  (m ≫= k) s = (let '(r, s2, l2) := k a s1 in (r, s2, l1 ++ l2)).
Proof.
  intros Hm. unfold mbind, M_MBind, M_bind. rewrite Hm.
  by destruct (k a s1) as [[r s2] l2].
Qed.

Lemma import_images_loop (l : list (Id * string)) (s : Store) :
  for_each l (λ img, Storage.saveImage img.1 img.2;; mret tt) s =
  (Done tt, set_images (insert_all l (images s)) s,
   map (λ x, EvPut "images" (KId x.1)) l).
Proof.
  revert s. induction l as [|x l IH]; intros s; simpl.
  - by destruct s.
  - unfold mbind, M_MBind, M_bind, Storage.saveImage. simpl.
    rewrite IH. by destruct s.
Qed.

Lemma import_weekly_loop (l : list (string * DayPlan)) (s : Store) :
  for_each l (λ day, Storage.saveWeeklyDay day.1 day.2) s =
  (Done tt, set_weeklyPlan (insert_all l (weeklyPlan s)) s,
   map (λ x, EvPut "weeklyPlan" (KName x.1)) l).
Proof.
  revert s. induction l as [|x l IH]; intros s; simpl.
  - by destruct s.
  - unfold mbind, M_MBind, M_bind, Storage.saveWeeklyDay, writes. simpl.
    rewrite IH. by destruct s.
Qed.

Lemma import_items_loop (l : list (option Id * Item)) (s : Store) :
  for_each l (λ item, Storage.saveItem item.1 item.2;; mret tt) s =
  (Done tt, set_items (put_all l (items s)) s, put_events "items" l (items s)).
Proof.
  revert s. induction l as [|x l IH]; intros s; simpl.
  - by destruct s.
  - unfold mbind, M_MBind, M_bind, Storage.saveItem.
    destruct (table_put x.1 x.2 (items s)) as [k t] eqn:Hput. simpl.
    rewrite IH. unfold put_events. simpl. rewrite Hput. by destruct s.
Qed.

Lemma import_outfits_loop (l : list (option Id * Outfit)) (s : Store) :
  for_each l (λ o, Storage.saveOutfit o.1 o.2;; mret tt) s =
  (Done tt, set_savedOutfits (put_all l (savedOutfits s)) s,
   put_events "savedOutfits" l (savedOutfits s)).
Proof.
  revert s. induction l as [|x l IH]; intros s; simpl.
  - by destruct s.
  - unfold mbind, M_MBind, M_bind, Storage.saveOutfit.
    destruct (table_put x.1 x.2 (savedOutfits s)) as [k t] eqn:Hput. simpl.
    rewrite IH. unfold put_events. simpl. rewrite Hput. by destruct s.
Qed.

Lemma import_sections_loop (l : list (option Id * CustomSection)) (s : Store) :
  for_each l (λ c, Storage.saveCustomSection c.1 c.2;; mret tt) s =
  (Done tt, set_customSections (put_all l (customSections s)) s,
   put_events "customSections" l (customSections s)).
Proof.
  revert s. induction l as [|x l IH]; intros s; simpl.
  - by destruct s.
  - unfold mbind, M_MBind, M_bind, Storage.saveCustomSection.
    destruct (table_put x.1 x.2 (customSections s)) as [k t] eqn:Hput. simpl.
    rewrite IH. unfold put_events. simpl. rewrite Hput. by destruct s.
Qed.

Lemma import_shopping_loop (l : list (option Id * ShoppingItem)) (s : Store) :
  for_each l (λ x, Storage.saveShoppingItem x.1 x.2;; mret tt) s =
  (Done tt, set_shoppingList (put_all l (shoppingList s)) s,
   put_events "shoppingList" l (shoppingList s)).
Proof.
  revert s. induction l as [|x l IH]; intros s; simpl.
  - by destruct s.
  - unfold mbind, M_MBind, M_bind, Storage.saveShoppingItem.
    destruct (table_put x.1 x.2 (shoppingList s)) as [k t] eqn:Hput. simpl.
    rewrite IH. unfold put_events. simpl. rewrite Hput. by destruct s.
Qed.

(** The store after [clearAllData]: every object store empty, the key
    generators and localStorage as they were. *)
Definition cleared (s : Store) : Store :=
  mkStore (table_clear (items s)) ∅ ∅ (table_clear (savedOutfits s))
          (table_clear (customSections s)) (table_clear (shoppingList s)) ∅
          (localStorage s).

Definition clear_events : list Event :=
  map EvClear ["items"; "images"; "weeklyPlan"; "savedOutfits";
               "customSections"; "shoppingList"; "trash"].

Lemma clearAllData_run (s : Store) :
  Storage.clearAllData s = (Done tt, cleared s, clear_events).
Proof. reflexivity. Qed.

(** The text [setSetting] stores for a value. *)
Definition setting_text (v : JsVal) : string :=
  if is_object v then JSON.stringify v else to_string v.

Definition restore_setting (key : string) (v : JsVal) (ls : gmap string string)
  : gmap string string :=
  if truthy v then <[("wardrobe_" +:+ key) := setting_text v]> ls else ls.

Definition restore_settings (st : option DocSettings) (ls : gmap string string)
  : gmap string string :=
  match st with
  | Some st =>
      restore_setting "tempUnit" (tempUnit st)
        (restore_setting "location" (location st)
           (restore_setting "theme" (theme st)
              (restore_setting "userName" (userName st) ls)))
  | None => ls
  end.

Definition setting_event (key : string) (v : JsVal) : list Event :=
  if truthy v then [EvSetItem ("wardrobe_" +:+ key) (setting_text v)] else [].

Definition settings_events (st : option DocSettings) : list Event :=
  match st with
  | Some st =>
      setting_event "userName" (userName st) ++ setting_event "theme" (theme st)
      ++ setting_event "location" (location st)
      ++ setting_event "tempUnit" (tempUnit st)
  | None => []
  end.

Lemma import_setting_run (key : string) (v : JsVal) (s : Store) :
  Storage.import_setting key v s =
  (Done tt, set_localStorage (restore_setting key v (localStorage s)) s,
   setting_event key v).
Proof.
  unfold Storage.import_setting, restore_setting, setting_event,
    Storage.setSetting, setting_text, writes.
  destruct (truthy v); [done|]. by destruct s.
Qed.

(** The store a version-1 document is imported into, from [s]. *)
Definition imported (d : Document) (s : Store) : Store :=
  mkStore (put_all (or_empty (d_items d)) (table_clear (items s)))
          (insert_all (or_empty (d_images d)) ∅)
          (insert_all (or_empty (d_weeklyPlan d)) ∅)
          (put_all (or_empty (d_savedOutfits d)) (table_clear (savedOutfits s)))
          (put_all (or_empty (d_customSections d)) (table_clear (customSections s)))
          (put_all (or_empty (d_shoppingList d)) (table_clear (shoppingList s)))
          ∅
          (restore_settings (d_settings d) (localStorage s)).

(** The write requests of that import, in the order they are issued. *)
Definition import_log (d : Document) (s : Store) : list Event :=
  clear_events
  ++ map (λ x, EvPut "images" (KId x.1)) (or_empty (d_images d))
  ++ put_events "items" (or_empty (d_items d)) (table_clear (items s))
  ++ map (λ x, EvPut "weeklyPlan" (KName x.1)) (or_empty (d_weeklyPlan d))
  ++ put_events "savedOutfits" (or_empty (d_savedOutfits d))
       (table_clear (savedOutfits s))
  ++ put_events "customSections" (or_empty (d_customSections d))
       (table_clear (customSections s))
  ++ put_events "shoppingList" (or_empty (d_shoppingList d))
       (table_clear (shoppingList s))
  ++ settings_events (d_settings d).

Lemma import_settings_run (st : option DocSettings) (s : Store) :
  match st with
  | Some settings =>
      Storage.import_setting "userName" (userName settings);;
      Storage.import_setting "theme" (theme settings);;
      Storage.import_setting "location" (location settings);;
      Storage.import_setting "tempUnit" (tempUnit settings)
  | None => mret tt
  end s =
  (Done tt, set_localStorage (restore_settings st (localStorage s)) s,
   settings_events st).
Proof.
  destruct st as [st|]; [|by destruct s].
  unfold mbind, M_MBind, M_bind. rewrite !import_setting_run.
  unfold restore_settings, settings_events.
  by destruct s.
Qed.

Lemma importAllData_accepts (d : Document) (s : Store) :
  version d = NumVersion 1 →
  Storage.importAllData (Some d) s = (Done true, imported d s, import_log d s).
Proof.
  intros Hv. unfold Storage.importAllData.
  rewrite Hv, bool_decide_eq_true_2 by done. simpl.
  rewrite (bind_done _ _ _ _ _ _ (clearAllData_run s)).
  rewrite (bind_done _ _ _ _ _ _ (import_images_loop _ _)).
  rewrite (bind_done _ _ _ _ _ _ (import_items_loop _ _)).
  rewrite (bind_done _ _ _ _ _ _ (import_weekly_loop _ _)).
  rewrite (bind_done _ _ _ _ _ _ (import_outfits_loop _ _)).
  rewrite (bind_done _ _ _ _ _ _ (import_sections_loop _ _)).
  rewrite (bind_done _ _ _ _ _ _ (import_shopping_loop _ _)).
  rewrite (bind_done _ _ _ _ _ _ (import_settings_run _ _)).
  unfold imported, import_log. simpl. by rewrite app_nil_r.
Qed.






(** A version given as the string ["1"] is not the number 1. *)
Example import_rejects_string_version :
  Storage.importAllData
    (Some (mkDocument (StrVersion "1") "2024-03-03" None None None None None
             None None)) top_store
  = (Thrown "Invalid data format", top_store, []).
Proof. reflexivity. Qed.

(** ** Export followed by import *)

(** The document [exportAllData] resolves with, if it does. *)
Definition exported (now : string) (s : Store) : option Document :=
  match Storage.exportAllData now s with
  | (Done d, _, _) => Some d
  | (Thrown _, _, _) => None
  end.

(** The store obtained by importing, into a fresh store, the export of [s]. *)
Definition reloaded (now : string) (s : Store) : Store :=
  store_of (Storage.importAllData (exported now s) empty_store).

(** The images the export inlines for a list of item records: for each
    record with an image reference, the image found under it, unless its
    data is missing or empty. *)
Definition inlined_images (s : Store) (l : list (option Id * Item))
  : list (Id * string) :=
  omap (λ x, i ← imageId x.2;
             d ← images s !! i;
             if decide (d = "") then None else Some (i, d)) l.

Lemma collect_images_run (l : list (option Id * Item)) acc (s : Store) :
  Storage.collect_images l acc s = (Done (acc ++ inlined_images s l), s, []).
Proof.
  revert acc. induction l as [|x l IH]; intros acc; simpl.
  - unfold mret, M_MRet, M_ret. by rewrite app_nil_r.
  - unfold inlined_images. simpl.
    destruct (imageId x.2) as [i|]; simpl; [|apply IH].
    unfold mbind, M_MBind, M_bind, Storage.getImage, reads. simpl.
    destruct (images s !! i) as [d|]; simpl.
    + destruct (decide (d = "")); simpl.
      * by rewrite IH.
      * rewrite IH. by rewrite <- app_assoc.
    + by rewrite IH.
Qed.

(** The document [exportAllData] builds from a store. *)
Definition export_document (now : string) (s : Store) : Document :=
  mkDocument (NumVersion 1) now
    (Some (with_ids (get_all (rows (items s)))))
    (Some (inlined_images s (with_ids (get_all (rows (items s))))))
    (Some (get_all_named (weeklyPlan s)))
    (Some (with_ids (get_all (rows (savedOutfits s)))))
    (Some (with_ids (get_all (rows (customSections s)))))
    (Some (with_ids (get_all (rows (shoppingList s)))))
    (Some (mkDocSettings (setting_value "userName" JNull s)
                         (setting_value "theme" JNull s)
                         (setting_value "location" JNull s)
                         (setting_value "tempUnit" JNull s))).

Lemma exportAllData_run (now : string) (s : Store) :
  Storage.exportAllData now s = (Done (export_document now s), s, []).
Proof.
  unfold Storage.exportAllData, Storage.getAllItems, Storage.getWeeklyPlan,
    Storage.getAllSavedOutfits, Storage.getAllCustomSections,
    Storage.getAllShoppingItems.
  unfold mbind, M_MBind, M_bind, reads.
  rewrite !getSetting_value. rewrite collect_images_run. reflexivity.
Qed.

Lemma reloaded_imported (now : string) (s : Store) :
  exported now s = Some (export_document now s)
  ∧ Storage.importAllData (exported now s) empty_store
    = (Done true, imported (export_document now s) empty_store,
       import_log (export_document now s) empty_store).
Proof.
  unfold exported. rewrite exportAllData_run. split; [done|].
  by apply importAllData_accepts.
Qed.

Lemma rows_put_all_with_ids {V} (l : list (Id * V)) (t : Table V) :
  rows (put_all (with_ids l) t) = insert_all l (rows t).
Proof.
  revert t. induction l as [|x l IH]; intros t; [done|].
  unfold put_all, insert_all in *. simpl. by rewrite IH.
Qed.

Lemma lookup_insert_all_fresh {K V} `{Countable K}
    (l : list (K * V)) (m : gmap K V) (k : K) :
  k ∉ l.*1 → insert_all l m !! k = m !! k.
Proof. apply (lookup_foldl_insert_fresh id). Qed.

Lemma lookup_insert_all_member {K V} `{Countable K}
    (l : list (K * V)) (m : gmap K V) (k : K) (v : V) :
  NoDup l.*1 → (k, v) ∈ l → insert_all l m !! k = Some v.
Proof. apply (lookup_foldl_insert_member id). Qed.

Lemma insert_all_get_all {V} (m : gmap Id V) : insert_all (get_all m) ∅ = m.
Proof.
  apply map_eq. intros k.
  destruct (m !! k) as [v|] eqn:Hk.
  - apply lookup_insert_all_member; [apply NoDup_fst_get_all|].
    by apply elem_of_get_all.
  - rewrite lookup_insert_all_fresh; [done|].
    intros ([k' v] & -> & Hin)%list_elem_of_fmap.
    apply elem_of_get_all in Hin. simpl in *. congruence.
Qed.

Lemma insert_all_get_all_named {V} (m : gmap string V) :
  insert_all (get_all_named m) ∅ = m.
Proof.
  apply map_eq. intros k.
  destruct (m !! k) as [v|] eqn:Hk.
  - apply lookup_insert_all_member; [apply NoDup_fst_get_all_named|].
    by apply elem_of_get_all_named.
  - rewrite lookup_insert_all_fresh; [done|].
    intros ([k' v] & -> & Hin)%list_elem_of_fmap.
    apply elem_of_get_all_named in Hin. simpl in *. congruence.
Qed.

(** A list of images that all come from one image store reloads to that
    store's image under each of its keys. *)
Lemma insert_all_from_source (src : gmap Id string) (l : list (Id * string))
    (m : gmap Id string) (i : Id) :
  (∀ x, x ∈ l → src !! x.1 = Some x.2) →
  i ∈ l.*1 →
  insert_all l m !! i = src !! i.
Proof.
  revert m. induction l as [|x l IH]; intros m Hsrc Hi.
  - by apply elem_of_nil in Hi.
  - change (insert_all (x :: l) m) with (insert_all l (<[x.1 := x.2]> m)).
    destruct (decide (i ∈ l.*1)) as [Hin|Hnin].
    + apply IH; [|done]. intros y Hy. apply Hsrc. by right.
    + rewrite lookup_insert_all_fresh by done.
      rewrite fmap_cons in Hi. apply elem_of_cons in Hi as [->|?]; [|done].
      rewrite lookup_insert_eq. symmetry. apply Hsrc. by left.
Qed.

Lemma elem_of_inlined_images (s : Store) (i : Id) (d : string) :
  (i, d) ∈ inlined_images s (with_ids (get_all (rows (items s))))
  ↔ (∃ k it, rows (items s) !! k = Some it ∧ imageId it = Some i)
    ∧ images s !! i = Some d ∧ d ≠ "".
Proof.
  unfold inlined_images, with_ids. rewrite list_elem_of_omap. split.
  - intros ([ok it] & Hin & Hx).
    apply list_elem_of_fmap in Hin as ([k it'] & [= -> ->] & Hin).
    apply elem_of_get_all in Hin. simpl in Hx.
    destruct (imageId it') as [i'|] eqn:Hi'; simpl in Hx; [|done].
    destruct (images s !! i') as [d'|] eqn:Hd; simpl in Hx; [|done].
    destruct (decide (d' = "")); [done|]. injection Hx as <- <-.
    split; [|done]. by exists k, it'.
  - intros ((k & it & Hk & Hi) & Hd & Hne).
    exists (Some k, it). split.
    + apply list_elem_of_fmap. exists (k, it). split; [done|].
      by apply elem_of_get_all.
    + simpl. rewrite Hi. simpl. rewrite Hd. simpl.
      by rewrite decide_False.
Qed.

(** What the round trip through a backup does reproduce, and what it
    loses: the records of the items, weekly plan, saved outfits, custom
    sections and shopping list come back, and so does the image of every
    item that has one; an image that no wardrobe item refers to (the image
    of a shopping item, of a trash entry) does not. *)
Lemma export_import_reproduces (now : string) (s : Store) :
  rows (items (reloaded now s)) = rows (items s)
  ∧ weeklyPlan (reloaded now s) = weeklyPlan s
  ∧ rows (savedOutfits (reloaded now s)) = rows (savedOutfits s)
  ∧ rows (customSections (reloaded now s)) = rows (customSections s)
  ∧ rows (shoppingList (reloaded now s)) = rows (shoppingList s)
  ∧ trash (reloaded now s) = ∅
  ∧ (∀ k it i d, rows (items s) !! k = Some it → imageId it = Some i →
                 images s !! i = Some d → d ≠ "" →
                 images (reloaded now s) !! i = Some d)
  ∧ (∀ i, (∀ k it, rows (items s) !! k = Some it → imageId it ≠ Some i) →
          images (reloaded now s) !! i = None).
Proof.
  unfold reloaded. destruct (reloaded_imported now s) as [_ ->].
  unfold store_of, imported, export_document. simpl.
  rewrite !rows_put_all_with_ids. simpl.
  rewrite !insert_all_get_all, insert_all_get_all_named.
  split_and!; try done.
  - intros k it i d Hk Hi Hd Hne.
    rewrite <- Hd. apply insert_all_from_source.
    + intros [i' d'] Hin. by apply elem_of_inlined_images in Hin as (_ & ? & _).
    + apply list_elem_of_fmap. exists (i, d). split; [done|].
      apply elem_of_inlined_images. eauto 10.
  - intros i Hi.
    rewrite lookup_insert_all_fresh; [done|].
    intros ([i' d] & -> & Hin)%list_elem_of_fmap.
    apply elem_of_inlined_images in Hin as ((k & it & Hk & Hit) & _).
    by eapply Hi.
Qed.

(** C6 fails on the code for the images of shopping items: the export
    collects the images of the wardrobe items only.  The store here has one
    shopping item, which owns image 7; its export has an empty image list,
    and the store reloaded from it has the shopping item and no image 7.
    The same holds in every store for every shopping item whose image no
    wardrobe item refers to. *)
Theorem export_drops_shopping_images :
  let now := "2024-03-03T00:00:00.000Z" in
  rows (shoppingList shopping_store) !! 1%positive = Some shoes
  ∧ sh_imageId shoes = Some 7%positive
  ∧ images shopping_store !! 7%positive = Some "data:image/png;base64,AAAA"
  ∧ (d_images <$> exported now shopping_store) = Some (Some [])
  ∧ result_of (Storage.importAllData (exported now shopping_store) empty_store)
    = Done true
  ∧ rows (shoppingList (reloaded now shopping_store)) !! 1%positive = Some shoes
  ∧ images (reloaded now shopping_store) !! 7%positive = None
  ∧ (∀ (s : Store) (k : Id) (x : ShoppingItem) (i : Id),
       rows (shoppingList s) !! k = Some x →
       sh_imageId x = Some i →
       (∀ k' it, rows (items s) !! k' = Some it → imageId it ≠ Some i) →
       rows (shoppingList (reloaded now s)) !! k = Some x
       ∧ images (reloaded now s) !! i = None).
Proof.
  cbv zeta. split_and!; [vm_compute; reflexivity .. |].
  intros s k x i Hk Hi Hnone.
  destruct (export_import_reproduces "2024-03-03T00:00:00.000Z" s)
    as (_ & _ & _ & _ & Hshop & _ & _ & Hlost).
  rewrite Hshop. split; [done|]. by apply Hlost.
Qed.

(** ** The weather cache *)

Lemma fetchWeather_fresh net now now' lat lon (s : Store) :
  Weather.is_fresh now (setting_value "weatherCache" JNull s) = Some true →
  Weather.fetchWeather net now now' lat lon s =
  (Done (Weather.get_field "data" (setting_value "weatherCache" JNull s)), s, []).
Proof.
  intros Hfresh. unfold Weather.fetchWeather.
  rewrite (bind_done _ _ _ _ _ _ (getSetting_value _ _ s)).
  by rewrite Hfresh.
Qed.


Lemma fetchWeather_refetch net now now' lat lon (s : Store) :
  Weather.is_fresh now (setting_value "weatherCache" JNull s) = Some false →
  Weather.fetchWeather net now now' lat lon s =
  let cached := setting_value "weatherCache" JNull s in
  match Weather.forecast_url lat lon
          (setting_value "tempUnit" (JStr "fahrenheit") s) with
  | None => (Thrown "TypeError", s, [])
  | Some url =>
      match net url with
      | Some data =>
          (Done (Some data),
           store_of (Storage.setSetting "weatherCache"
                       (Weather.cache_entry data now') s),
           [EvFetch url;
            EvSetItem "wardrobe_weatherCache"
                      (JSON.stringify (Weather.cache_entry data now'))])
      | None =>
          if truthy cached
          then (Done (Weather.get_field "data" cached), s, [EvFetch url])
          else (Thrown "Weather API error", s, [EvFetch url])
      end
  end.
Proof.
  intros Hstale. unfold Weather.fetchWeather.
  rewrite (bind_done _ _ _ _ _ _ (getSetting_value _ _ s)).
  rewrite Hstale.
  rewrite (bind_done _ _ _ _ _ _ (getSetting_value _ _ s)).
  cbv zeta. destruct (Weather.forecast_url _ _ _) as [url|]; [|reflexivity].
  unfold mbind, M_MBind, M_bind, Weather.fetch_json.
  destruct (net url) as [data|]; [reflexivity|].
  by destruct (truthy _).
Qed.

(** The timestamp [Date.now()] writes reads back as the same time. *)
Lemma timestamp_reads_back (now : Z) :
  Weather.to_number (Some (JNum (NilZero.string_of_int (Z.to_int now))))
  = Some (Exact now).
Proof.
  unfold Weather.to_number, js_number. rewrite NilZero.isi.
  - by rewrite DecimalZ.of_to.
  - destruct now as [|p|p]; cbn; try discriminate.
    intros [= H]. by apply Unsigned.to_uint_nonnil in H.
  - destruct now as [|p|p]; cbn; try discriminate.
    intros [= H]. by apply Unsigned.to_uint_nonnil in H.
Qed.


(** A network that answers with one forecast, and one that is down. *)
Definition sunny : JsVal := JObj [("current", JObj [("temperature_2m", JNum "71.3")])].
Definition network_up (url : string) : option JsVal := Some sunny.
Definition network_down (url : string) : option JsVal := None.

(** The arguments [renderWeather] passes for the default location. *)
Definition denton_lat : option JsVal := Some (JNum "33.2148").
Definition denton_lon : option JsVal := Some (JNum "-97.1331").

(** The store after a first successful fetch at time 1 000 000. *)
Definition store_with_forecast : Store :=
  store_of (Weather.fetchWeather network_up 1000000 1000050
              denton_lat denton_lon empty_store).

Example fetchWeather_scenario :
  (* 29 minutes later: served from the cache, no request *)
  Weather.fetchWeather network_down (1000050 + 29 * 60 * 1000) 0
    denton_lat denton_lon store_with_forecast
  = (Done (Some sunny), store_with_forecast, [])
  (* 31 minutes later, network down: one request, then the stale data *)
  ∧ (let r := Weather.fetchWeather network_down (1000050 + 31 * 60 * 1000) 0
                denton_lat denton_lon store_with_forecast in
     result_of r = Done (Some sunny) ∧ store_of r = store_with_forecast
     ∧ List.length (log_of r) = 1%nat)
  (* no cache, network down: the failure propagates *)
  ∧ result_of (Weather.fetchWeather network_down 1000000 1000050
                 denton_lat denton_lon empty_store)
    = Thrown "Weather API error".
Proof. cbv zeta. split_and!; vm_compute; reflexivity. Qed.

Definition cache_test (now : Z) (timestamp : JsVal) : option bool :=
  Weather.is_fresh now (JObj [("data", sunny); ("timestamp", timestamp)]).

(** The cache test on timestamps that [Date.now()] did not write: a number
    with a fraction, a numeric string, an array, and values that are not
    numbers.  The difference is rounded before it is compared: at
    [now = 1800000] a timestamp of [1e-11] is not fresh. *)
Example cache_test_conversions :
  cache_test 2800050 (JNum "1000050.5") = Some true
  ∧ cache_test 2800051 (JNum "1000050.5") = Some false
  ∧ (cache_test 2800050 <$> JSON.parse "1e12") = Some (Some true)
  ∧ (cache_test 2800050 <$> JSON.parse "1000050.50") = Some (Some true)
  ∧ cache_test 1800000 (JNum "1e-11") = Some false
  ∧ cache_test 1800000 (JNum "1e-9") = Some true
  ∧ cache_test 2800049 (JStr "1000050") = Some true
  ∧ cache_test 2800050 (JStr "1000050") = Some false
  ∧ cache_test 2800050 (JStr " 1000050.5 ") = Some true
  ∧ cache_test 1800015 (JStr "0x10") = Some true
  ∧ cache_test 1800016 (JStr "0x10") = Some false
  ∧ cache_test 1800000 (JStr "Infinity") = Some true
  ∧ cache_test 0 (JStr "-Infinity") = Some false
  ∧ cache_test 0 (JStr "soon") = Some false
  ∧ cache_test 1799999 (JStr "") = Some true
  ∧ cache_test 1799999 (JArr []) = Some true
  ∧ cache_test 1800000 (JArr []) = Some false
  ∧ cache_test 1800004 (JArr [JNum "5"]) = Some true
  ∧ cache_test 0 (JArr [JNum "5"; JNum "6"]) = Some false
  ∧ cache_test 1800000 (JBool true) = Some true
  ∧ cache_test 1800000 JNull = Some false
  ∧ cache_test 0 (JObj []) = Some false
  ∧ cache_test 0 (JObj [("toString", JNull)]) = None
  ∧ Weather.is_fresh 0%Z (JObj [("data", sunny)]) = Some false
  ∧ Weather.is_fresh 0%Z (JStr "cached") = Some false
  ∧ Weather.is_fresh 0%Z JNull = Some false.
Proof. cbv zeta. split_and!; vm_compute; reflexivity. Qed.

(** * Further properties of the store and its callers *)

(** ** Single-item actions *)

(** Putting a record back under the key it was read from. *)
Lemma saveItem_at (id : Id) (it : Item) (s : Store) :
  Storage.saveItem (Some id) it s =
  (Done id,
   set_items (mkTable (<[id := it]> (rows (items s)))
                      (Pos.max (keygen (items s)) (Pos.succ id))) s,
   [EvPut "items" (KId id)]).
Proof. reflexivity. Qed.

(** An action that reads an item, changes it with [f] and saves it. *)
Definition updates_item (f : Item → Item) (act : Id → M unit) : Prop :=
  ∀ id s,
    act id s =
    match rows (items s) !! id with
    | Some it =>
        (Done tt,
         set_items (mkTable (<[id := f it]> (rows (items s)))
                            (Pos.max (keygen (items s)) (Pos.succ id))) s,
         [EvPut "items" (KId id)])
    | None => (Done tt, s, [])
    end.

Lemma toggleFavorite_updates :
  updates_item (λ it, set_favorite (negb (favorite it)) it) App.toggleFavorite.
Proof.
  intros id s. unfold App.toggleFavorite, Storage.getItem. run_M.
  by destruct (rows (items s) !! id).
Qed.

Lemma toggleLaundry_updates :
  updates_item (λ it, App.set_laundry (negb (laundry it)) it) App.toggleLaundry.
Proof.
  intros id s. unfold App.toggleLaundry, Storage.getItem. run_M.
  by destruct (rows (items s) !! id).
Qed.

Lemma moveToCategory_run (id : Id) (c : string) (s : Store) :
  DragDrop.moveToCategory id c s =
  match rows (items s) !! id with
  | Some it =>
      if decide (category it = c) then (Done tt, s, [])
      else
        (Done tt,
         set_items (mkTable (<[id := set_category c it]> (rows (items s)))
                            (Pos.max (keygen (items s)) (Pos.succ id))) s,
         [EvPut "items" (KId id)])
  | None => (Done tt, s, [])
  end.
Proof.
  unfold DragDrop.moveToCategory, Storage.getItem. run_M.
  destruct (rows (items s) !! id) as [it|]; simpl; [|done].
  by destruct (decide (category it = c)).
Qed.

Lemma restoreToCategory_run (id : Id) (c : string) (s : Store) :
  DragDrop.restoreToCategory id c s =
  match trash s !! id with
  | Some it =>
      (Done tt,
       set_items
         (mkTable (<[id := set_deleted (Some false) (set_category c it)]>
                     (rows (items s)))
                  (Pos.max (keygen (items s)) (Pos.succ id)))
         (set_trash (delete id (trash s)) s),
       [EvDelete "trash" (KId id); EvPut "items" (KId id)])
  | None =>
      (Done tt, set_trash (delete id (trash s)) s, [EvDelete "trash" (KId id)])
  end.
Proof.
  unfold DragDrop.restoreToCategory, Storage.restoreFromTrash. run_M.
  by destruct (trash s !! id).
Qed.

Lemma set_trash_delete_missing (id : Id) (s : Store) :
  trash s !! id = None → set_trash (delete id (trash s)) s = s.
Proof. intros H. rewrite delete_id by done. by destruct s. Qed.

(** X1. Deleting an item a second time, and restoring it a second time,
    change nothing: the second [deleteItem] finds no item and issues no request,
    the second [restoreItem] finds no trash entry and leaves the store as
    it is. *)
Theorem delete_and_restore_are_idempotent (now now' : string) (id : Id) (s : Store) :
  (let s1 := store_of (App.deleteItem now id s) in
   App.deleteItem now' id s1 = (Done tt, s1, []))
  ∧ (let s1 := store_of (App.restoreItem id s) in
     result_of (App.restoreItem id s1) = Done tt
     ∧ store_of (App.restoreItem id s1) = s1).
Proof.
  split; intros s1; subst s1.
  - apply deleteItem_missing.
    destruct (rows (items s) !! id) as [it|] eqn:Hit.
    + rewrite (deleteItem_found now id s it Hit). apply lookup_delete_eq.
    + by rewrite (deleteItem_missing now id s Hit).
  - assert (Hgone : trash (store_of (App.restoreItem id s)) !! id = None).
    { destruct (trash s !! id) as [it|] eqn:Hit.
      - rewrite (restoreItem_found id s it Hit). apply lookup_delete_eq.
      - rewrite (restoreItem_missing id s Hit). apply lookup_delete_eq. }
    rewrite (restoreItem_missing id _ Hgone). split; [done|].
    by apply set_trash_delete_missing.
Qed.

(** X2. A trashed item dropped on the header of a category comes back
    active in that category with [deleted = false] and its flags and image, and the
    trash has no entry for it; unlike [App.restoreItem], the drop leaves
    [deletedDate] and [originalCategory] on the active record. *)
Theorem drop_restore_keeps_trash_fields
    (now : string) (id : Id) (target : string) (s : Store) (it : Item) :
  rows (items s) !! id = Some it →
  let s1 := store_of (App.deleteItem now id s) in
  let s2 := store_of (DragDrop.restoreToCategory id target s1) in
  rows (items s2) !! id
  = Some (mkItem (imageId it) target (favorite it) (laundry it) (Some false)
                 (dateAdded it) (Some now) (Some (category it)))
  ∧ trash s2 !! id = None
  ∧ images s2 = images s.
Proof.
  intros Hit s1 s2. subst s1 s2.
  rewrite (deleteItem_found now id s it Hit).
  change (store_of (Done tt, ?x, ?l)) with x.
  rewrite restoreToCategory_run.
  cbn [trash set_trash set_items]. rewrite lookup_insert_eq.
  unfold store_of. cbn [fst snd]. split_and!.
  - cbn [items set_items rows]. rewrite lookup_insert_eq. reflexivity.
  - cbn [trash set_trash set_items]. apply lookup_delete_eq.
  - reflexivity.
Qed.

Lemma drop_restore_keeps_trash_fields_witness :
  rows (items (store_of (DragDrop.restoreToCategory 1%positive "bottoms"
         (store_of (App.deleteItem "2024-02-02T00:00:00.000Z" 1%positive top_store)))))
    !! 1%positive
  = Some (mkItem (Some 7%positive) "bottoms" true false (Some false)
                 "2024-01-01T00:00:00.000Z" (Some "2024-02-02T00:00:00.000Z")
                 (Some "tops")).
Proof.
  apply (drop_restore_keeps_trash_fields "2024-02-02T00:00:00.000Z" 1%positive
           "bottoms" top_store top_item eq_refl).
Defined.

(** Two stores that differ at most in the key generator of the items. *)
Definition same_records (s s' : Store) : Prop :=
  rows (items s') = rows (items s)
  ∧ images s' = images s
  ∧ weeklyPlan s' = weeklyPlan s
  ∧ savedOutfits s' = savedOutfits s
  ∧ customSections s' = customSections s
  ∧ shoppingList s' = shoppingList s
  ∧ trash s' = trash s
  ∧ localStorage s' = localStorage s.

Lemma same_records_refl (s : Store) : same_records s s.
Proof. by repeat split. Qed.

Lemma updates_item_twice (f : Item → Item) (act : Id → M unit) (id : Id) (s : Store) :
  updates_item f act →
  (∀ it, f (f it) = it) →
  same_records s (store_of (act id (store_of (act id s)))).
Proof.
  intros Hact Hf. rewrite (Hact id s).
  destruct (rows (items s) !! id) as [it|] eqn:Hit.
  - change (store_of (Done tt, ?x, ?l)) with x. rewrite (Hact id).
    cbn [items set_items rows]. rewrite lookup_insert_eq.
    unfold store_of. cbn [fst snd]. repeat split.
    cbn [items set_items rows].
    rewrite insert_insert_eq, Hf. by apply insert_id.
  - change (store_of (Done tt, ?x, ?l)) with x. rewrite (Hact id), Hit.
    apply same_records_refl.
Qed.

(** X3. Toggling the favorite flag, or the laundry flag, of an item twice
    gives back the records the store had; one toggle changes that flag of
    that item and nothing else in any record. *)
Theorem toggles_are_involutions (id : Id) (s : Store) :
  same_records s (store_of (App.toggleFavorite id (store_of (App.toggleFavorite id s))))
  ∧ same_records s (store_of (App.toggleLaundry id (store_of (App.toggleLaundry id s))))
  ∧ (∀ it, rows (items s) !! id = Some it →
       rows (items (store_of (App.toggleFavorite id s))) !! id
       = Some (mkItem (imageId it) (category it) (negb (favorite it)) (laundry it)
                      (deleted it) (dateAdded it) (deletedDate it)
                      (originalCategory it))
       ∧ rows (items (store_of (App.toggleLaundry id s))) !! id
         = Some (mkItem (imageId it) (category it) (favorite it) (negb (laundry it))
                        (deleted it) (dateAdded it) (deletedDate it)
                        (originalCategory it)))
  ∧ (∀ k, k ≠ id →
       rows (items (store_of (App.toggleFavorite id s))) !! k = rows (items s) !! k
       ∧ rows (items (store_of (App.toggleLaundry id s))) !! k = rows (items s) !! k).
Proof.
  split_and!.
  - apply (updates_item_twice _ _ id s toggleFavorite_updates).
    intros [i c f l d da dd oc]. unfold set_favorite. simpl.
    by rewrite negb_involutive.
  - apply (updates_item_twice _ _ id s toggleLaundry_updates).
    intros [i c f l d da dd oc]. unfold App.set_laundry. simpl.
    by rewrite negb_involutive.
  - intros it Hit.
    rewrite (toggleFavorite_updates id s), (toggleLaundry_updates id s), Hit.
    unfold store_of. cbn [fst snd items set_items rows].
    by rewrite !lookup_insert_eq.
  - intros k Hk.
    rewrite (toggleFavorite_updates id s), (toggleLaundry_updates id s).
    destruct (rows (items s) !! id); [|done].
    unfold store_of. cbn [fst snd items set_items rows].
    by rewrite !lookup_insert_ne.
Qed.

Lemma set_category_same (it : Item) : set_category (category it) it = it.
Proof. by destruct it. Qed.

(** X4. A drop on a category header changes the category of the dragged
    item and nothing else; when the item is already in that category, or is not
    in the store, it issues no request at all.  Two moves in a row end
    where the second alone would. *)
Theorem moveToCategory_changes_only_category (id : Id) (c c' : string) (s : Store) :
  let s1 := store_of (DragDrop.moveToCategory id c s) in
  (∀ it, rows (items s) !! id = Some it →
         rows (items s1) !! id = Some (set_category c it))
  ∧ (∀ k, k ≠ id → rows (items s1) !! k = rows (items s) !! k)
  ∧ (rows (items s) !! id = None ∨ (category <$> rows (items s) !! id) = Some c →
     DragDrop.moveToCategory id c s = (Done tt, s, []))
  ∧ images s1 = images s ∧ trash s1 = trash s
  ∧ weeklyPlan s1 = weeklyPlan s ∧ savedOutfits s1 = savedOutfits s
  ∧ customSections s1 = customSections s ∧ shoppingList s1 = shoppingList s
  ∧ rows (items (store_of (DragDrop.moveToCategory id c' s1)))
    = rows (items (store_of (DragDrop.moveToCategory id c' s))).
Proof.
  intros s1. subst s1. rewrite !(moveToCategory_run id c s).
  destruct (rows (items s) !! id) as [it|] eqn:Hit.
  - destruct (decide (category it = c)) as [Hc|Hc].
    + change (store_of (Done tt, ?x, ?l)) with x.
      split_and!; try done.
      intros it' [= <-]. by rewrite <- Hc, set_category_same.
    + change (store_of (Done tt, ?x, ?l)) with x.
      split_and!; try done.
      * intros it' [= <-]. cbn [items set_items rows]. apply lookup_insert_eq.
      * intros k Hk. cbn [items set_items rows]. by apply lookup_insert_ne.
      * intros [?|[= ?]]; done.
      * rewrite !moveToCategory_run. cbn [items set_items rows].
        rewrite lookup_insert_eq, Hit. cbn [category set_category].
        destruct (decide (c = c')) as [Hcc'|Hcc'];
          destruct (decide (category it = c')) as [Hc'|Hc'];
          try congruence;
          unfold store_of; cbn [fst snd items set_items rows].
        -- by subst c'.
        -- rewrite insert_insert_eq.
           change (set_category c' (set_category c it)) with (set_category c' it).
           rewrite <- Hc', set_category_same. by apply insert_id.
        -- by rewrite insert_insert_eq.
  - change (store_of (Done tt, ?x, ?l)) with x. split_and!; try done.
Qed.

(** ** Invariants of the wardrobe actions *)

(** The actions of the user that touch the items, the trash or the images. *)
Inductive ItemAction :=
  | ActProcessUpload (category : string) (images : list App.Upload)
  | ActBuilderUpload (files : list App.Upload)
  | ActToggleFavorite (itemId : Id)
  | ActToggleLaundry (itemId : Id)
  | ActMoveItem (currentMoveItemId : option Id) (targetCategory : string)
  | ActDropMove (itemId : Id) (targetCategory : string)
  | ActDelete (now : string) (itemId : Id)
  | ActRestore (itemId : Id)
  | ActDropRestore (itemId : Id) (targetCategory : string)
  | ActEmptyTrash (confirmed : bool) (fault : nat → bool)
  | ActDeleteSection (confirmed : bool) (sectionId : Id).

Definition run_action (s : Store) (a : ItemAction) : Store :=
  match a with
  | ActProcessUpload c images => store_of (App.processUpload c images s)
  | ActBuilderUpload files => store_of (App.handleBuilderUpload files s)
  | ActToggleFavorite id => store_of (App.toggleFavorite id s)
  | ActToggleLaundry id => store_of (App.toggleLaundry id s)
  | ActMoveItem cur c => store_of (App.moveItemToCategory cur c s)
  | ActDropMove id c => store_of (DragDrop.moveToCategory id c s)
  | ActDelete now id => store_of (App.deleteItem now id s)
  | ActRestore id => store_of (App.restoreItem id s)
  | ActDropRestore id c => store_of (DragDrop.restoreToCategory id c s)
  | ActEmptyTrash confirmed fault => store_of (App.emptyTrash confirmed fault s)
  | ActDeleteSection confirmed id => store_of (App.deleteSection confirmed id s)
  end.

(** *** What each action does to the items, the trash and the images *)

(** A record of the wardrobe: an active item, or a trash entry. *)
Definition holds (s : Store) (in_trash : bool) (k : Id) (it : Item) : Prop :=
  (if in_trash then trash s else rows (items s)) !! k = Some it.

(** No record refers to image [i]. *)
Definition unreferenced (s : Store) (i : Id) : Prop :=
  ∀ l k it, holds s l k it → imageId it ≠ Some i.

(** One change of the items, the trash and the images: a record changed in
    place, moved to the trash, moved back, a new item with an image whose
    id satisfies [new], the trash purged with its images, or nothing. *)
Inductive step (new : Store → Id → Prop) (s s' : Store) : Prop :=
  | step_update (id : Id) (it it' : Item) :
      rows (items s) !! id = Some it →
      imageId it' = imageId it →
      deleted it' = deleted it →
      rows (items s') = <[id := it']> (rows (items s)) →
      keygen (items s') = Pos.max (keygen (items s)) (Pos.succ id) →
      trash s' = trash s → images s' = images s →
      customSections s' = customSections s →
      step new s s'
  | step_to_trash (id : Id) (it it' : Item) :
      rows (items s) !! id = Some it →
      imageId it' = imageId it →
      deleted it' = Some true →
      rows (items s') = delete id (rows (items s)) →
      keygen (items s') = keygen (items s) →
      trash s' = <[id := it']> (trash s) → images s' = images s →
      customSections s' = customSections s →
      step new s s'
  | step_to_items (id : Id) (it it' : Item) :
      trash s !! id = Some it →
      imageId it' = imageId it →
      deleted it' = Some false →
      rows (items s') = <[id := it']> (rows (items s)) →
      keygen (items s') = Pos.max (keygen (items s)) (Pos.succ id) →
      trash s' = delete id (trash s) → images s' = images s →
      customSections s' = customSections s →
      step new s s'
  | step_upload (i : Id) (d : string) (it : Item) :
      imageId it = Some i →
      deleted it = None →
      new s i →
      rows (items s') = <[keygen (items s) := it]> (rows (items s)) →
      keygen (items s') = Pos.succ (keygen (items s)) →
      trash s' = trash s → images s' = <[i := d]> (images s) →
      customSections s' = customSections s →
      step new s s'
  | step_purge :
      rows (items s') = rows (items s) →
      keygen (items s') = keygen (items s) →
      trash s' = ∅ →
      (∀ i, images s' !! i =
            if decide (i ∈ image_refs (get_all (trash s))) then None
            else images s !! i) →
      customSections s' = customSections s →
      step new s s'
  | step_none :
      rows (items s') = rows (items s) →
      keygen (items s') = keygen (items s) →
      trash s' = trash s → images s' = images s →
      step new s s'.

Lemma updates_item_step (new : Store → Id → Prop) (f : Item → Item) (act : Id → M unit) (id : Id) (s : Store) :
  updates_item f act →
  (∀ it, imageId (f it) = imageId it) →
  (∀ it, deleted (f it) = deleted it) →
  step new s (store_of (act id s)).
Proof.
  intros Hact Hf Hd. rewrite (Hact id s).
  destruct (rows (items s) !! id) as [it|] eqn:Hit.
  - by apply (step_update _ _ _ id it (f it)).
  - by apply step_none.
Qed.

Lemma moveItemToCategory_step (new : Store → Id → Prop) (cur : option Id) (c : string) (s : Store) :
  step new s (store_of (App.moveItemToCategory cur c s)).
Proof.
  destruct cur as [id|]; [|by apply step_none].
  unfold App.moveItemToCategory, Storage.getItem. run_M.
  destruct (rows (items s) !! id) as [it|] eqn:Hit.
  - by apply (step_update _ _ _ id it (set_category c it)).
  - by apply step_none.
Qed.

Lemma moveToCategory_step (new : Store → Id → Prop) (id : Id) (c : string) (s : Store) :
  step new s (store_of (DragDrop.moveToCategory id c s)).
Proof.
  rewrite moveToCategory_run.
  destruct (rows (items s) !! id) as [it|] eqn:Hit; [|by apply step_none].
  destruct (decide (category it = c)); [by apply step_none|].
  by apply (step_update _ _ _ id it (set_category c it)).
Qed.

Lemma deleteItem_step (new : Store → Id → Prop) (now : string) (id : Id) (s : Store) :
  step new s (store_of (App.deleteItem now id s)).
Proof.
  destruct (rows (items s) !! id) as [it|] eqn:Hit.
  - rewrite (deleteItem_found now id s it Hit).
    by apply (step_to_trash _ _ _ id it (trashed now it)).
  - rewrite (deleteItem_missing now id s Hit). by apply step_none.
Qed.

Lemma restoreItem_step (new : Store → Id → Prop) (id : Id) (s : Store) :
  step new s (store_of (App.restoreItem id s)).
Proof.
  destruct (trash s !! id) as [it|] eqn:Hit.
  - rewrite (restoreItem_found id s it Hit).
    by apply (step_to_items _ _ _ id it (restored it)).
  - rewrite (restoreItem_missing id s Hit).
    apply step_none; try done.
    unfold store_of. cbn [fst snd trash set_trash]. by apply delete_id.
Qed.

Lemma restoreToCategory_step (new : Store → Id → Prop) (id : Id) (c : string) (s : Store) :
  step new s (store_of (DragDrop.restoreToCategory id c s)).
Proof.
  rewrite restoreToCategory_run.
  destruct (trash s !! id) as [it|] eqn:Hit.
  - by apply (step_to_items _ _ _ id it (set_deleted (Some false) (set_category c it))).
  - apply step_none; try done.
    unfold store_of. cbn [fst snd trash set_trash]. by apply delete_id.
Qed.

Lemma emptyTrash_step (new : Store → Id → Prop) (confirmed : bool) (fault : nat → bool) (s : Store) :
  step new s (store_of (App.emptyTrash confirmed fault s)).
Proof.
  unfold App.emptyTrash. destruct confirmed; simpl; [|by apply step_none].
  rewrite emptyTrash_unfold.
  destruct (fault 0); [by apply step_none|].
  destruct (Storage.tx_for_each _ _ _) as [r|] eqn:Hloop; [|by apply step_none].
  apply delete_loop_commits in Hloop as (n & lg & ->).
  destruct (fault n); [by apply step_none|].
  apply step_purge; try done.
  intros i. unfold store_of. cbn [fst snd images set_trash set_images].
  apply lookup_delete_images.
Qed.

(** The image ids drawn for a batch of uploads are new: distinct, and
    referred to by no record. *)
Definition fresh_uploads (s : Store) (images : list App.Upload) : Prop :=
  NoDup (App.up_imageId <$> images)
  ∧ ∀ u, u ∈ images → unreferenced s (App.up_imageId u).

Definition uploaded (c : string) (u : App.Upload) (s : Store) : Store :=
  set_items
    (mkTable (<[keygen (items s) :=
                  mkItem (Some (App.up_imageId u)) c false false None
                         (App.up_date u) None None]> (rows (items s)))
             (Pos.succ (keygen (items s))))
    (set_images (<[App.up_imageId u := App.up_base64 u]> (images s)) s).

Lemma upload_item_run (c : string) (u : App.Upload) (s : Store) :
  App.upload_item c u s =
  (Done tt, uploaded c u s,
   [EvPut "images" (KId (App.up_imageId u)); EvPut "items" (KId (keygen (items s)))]).
Proof. reflexivity. Qed.

(** Each upload of the batch satisfies [new] in the store it meets. *)
Fixpoint uploads_new (new : Store → Id → Prop) (c : string)
    (images : list App.Upload) (s : Store) : Prop :=
  match images with
  | [] => True
  | u :: rest => new s (App.up_imageId u) ∧ uploads_new new c rest (uploaded c u s)
  end.

Lemma upload_loop_steps (new : Store → Id → Prop) (c : string)
    (images : list App.Upload) (s : Store) :
  uploads_new new c images s →
  result_of (for_each images (App.upload_item c) s) = Done tt
  ∧ rtc (step new) s (store_of (for_each images (App.upload_item c) s)).
Proof.
  revert s. induction images as [|u images IH]; intros s Hnew.
  - split; [done|]. apply rtc_refl.
  - destruct Hnew as [Hu Hrest].
    simpl. rewrite (bind_done _ _ _ _ _ _ (upload_item_run c u s)).
    assert (Hstep : step new s (uploaded c u s)).
    { by apply (step_upload new s (uploaded c u s) (App.up_imageId u)
                  (App.up_base64 u)
                  (mkItem (Some (App.up_imageId u)) c false false None
                          (App.up_date u) None None)). }
    destruct (IH (uploaded c u s) Hrest) as [Hres Hsteps].
    destruct (for_each images (App.upload_item c) (uploaded c u s))
      as [[r s'] lg] eqn:Hloop.
    unfold result_of, store_of in *. cbn [fst snd] in *. split; [done|].
    by eapply rtc_l.
Qed.

Lemma uploads_new_any (c : string) (images : list App.Upload) (s : Store) :
  uploads_new (λ _ _, True) c images s.
Proof. revert s. induction images; intros s; simpl; auto. Qed.

Lemma fresh_uploads_new (c : string) (images : list App.Upload) (s : Store) :
  fresh_uploads s images → uploads_new unreferenced c images s.
Proof.
  revert s. induction images as [|u images IH]; intros s [Hnd Hfresh]; [done|].
  rewrite fmap_cons in Hnd. apply NoDup_cons in Hnd as [Hu Hnd].
  split; [apply Hfresh; by left|].
  apply IH. split; [done|]. intros u' Hu' l k it Hk.
  assert (Hne : App.up_imageId u' ≠ App.up_imageId u).
  { intros Heq. apply Hu. rewrite <- Heq.
    apply list_elem_of_fmap. by exists u'. }
  destruct l; unfold holds, uploaded in Hk; cbn in Hk.
  - eapply (Hfresh u'); [by right|]. by instantiate (2 := true).
  - rewrite lookup_insert in Hk. destruct (decide _) as [_|_].
    + injection Hk as <-. simpl. congruence.
    + eapply (Hfresh u'); [by right|]. by instantiate (2 := false).
Qed.

Lemma section_loop_steps (new : Store → Id → Prop) (l : list (Id * Item)) (s : Store) :
  NoDup l.*1 →
  (∀ k it, (k, it) ∈ l → rows (items s) !! k = Some it) →
  rtc (step new) s (store_of (for_each l App.trash_section_item s)).
Proof.
  revert s. induction l as [|x l IH]; intros s Hnd Hl.
  - apply rtc_refl.
  - rewrite fmap_cons in Hnd. apply NoDup_cons in Hnd as [Hx Hnd].
    set (s1 := set_items (table_delete x.1 (items s))
                 (set_trash (<[x.1 := section_trashed x.2]> (trash s)) s)).
    assert (Hone : App.trash_section_item x s
                   = (Done tt, s1, [EvPut "trash" (KId x.1); EvDelete "items" (KId x.1)]))
      by reflexivity.
    simpl. rewrite (bind_done _ _ _ _ _ _ Hone).
    assert (Hstep : step new s s1).
    { apply (step_to_trash _ _ _ x.1 x.2 (section_trashed x.2)); try done.
      apply Hl. destruct x. by left. }
    specialize (IH s1 Hnd).
    destruct (for_each l App.trash_section_item s1) as [[r s'] lg] eqn:Hloop.
    unfold store_of in *. cbn [fst snd] in *.
    eapply rtc_l; [exact Hstep|]. apply IH.
    intros k it Hin. subst s1. cbn [items set_items rows table_delete].
    rewrite lookup_delete_ne; [apply Hl; by right|].
    intros Heq. apply Hx. rewrite Heq.
    apply list_elem_of_fmap. by exists (k, it).
Qed.

Lemma deleteSection_steps (new : Store → Id → Prop)
    (confirmed : bool) (sectionId : Id) (s : Store) :
  rtc (step new) s (store_of (App.deleteSection confirmed sectionId s)).
Proof.
  destruct confirmed; [|apply rtc_refl].
  rewrite deleteSection_run. unfold store_of. cbn [fst snd].
  eapply rtc_r.
  - pose proof (section_loop_steps new
                  (App.section_items sectionId (get_all (rows (items s)))) s
                  (NoDup_section_items sectionId (rows (items s)))) as Hloop.
    rewrite relocation_loop in Hloop. apply Hloop.
    intros k it Hin. by apply elem_of_section_items in Hin as [? _].
  - by apply step_none.
Qed.

(** The uploads of an action satisfy [new]. *)
Definition action_new (new : Store → Id → Prop) (s : Store) (a : ItemAction) : Prop :=
  match a with
  | ActProcessUpload c images => uploads_new new c images s
  | ActBuilderUpload files => uploads_new new "other" files s
  | _ => True
  end.

(** Every action is a sequence of such changes. *)
Lemma run_action_steps (new : Store → Id → Prop) (s : Store) (a : ItemAction) :
  action_new new s a → rtc (step new) s (run_action s a).
Proof.
  destruct a as [c images|files|id|id|cur c|id c|now id|id|id c|confirmed fault
                |confirmed id]; simpl; intros Hok.
  - unfold App.processUpload. destruct (decide (images = [])); [apply rtc_refl|].
    by apply upload_loop_steps.
  - by apply upload_loop_steps.
  - by apply rtc_once, (updates_item_step _ _ _ id s toggleFavorite_updates).
  - by apply rtc_once, (updates_item_step _ _ _ id s toggleLaundry_updates).
  - apply rtc_once, moveItemToCategory_step.
  - apply rtc_once, moveToCategory_step.
  - apply rtc_once, deleteItem_step.
  - apply rtc_once, restoreItem_step.
  - apply rtc_once, restoreToCategory_step.
  - apply rtc_once, emptyTrash_step.
  - apply deleteSection_steps.
Qed.

Definition run_actions (s : Store) (l : list ItemAction) : Store :=
  foldl run_action s l.

(** The image ids of every upload in a sequence of actions are new in the
    store the upload meets. *)
Fixpoint uploads_fresh (s : Store) (l : list ItemAction) : Prop :=
  match l with
  | [] => True
  | a :: l' =>
      match a with
      | ActProcessUpload _ images | ActBuilderUpload images => fresh_uploads s images
      | _ => True
      end
      ∧ uploads_fresh (run_action s a) l'
  end.

Lemma run_actions_steps_any (s : Store) (l : list ItemAction) :
  rtc (step (λ _ _, True)) s (run_actions s l).
Proof.
  revert s. induction l as [|a l IH]; intros s; [apply rtc_refl|].
  simpl. etrans; [|apply IH].
  apply run_action_steps. destruct a; simpl; auto using uploads_new_any.
Qed.

Lemma run_actions_steps_fresh (s : Store) (l : list ItemAction) :
  uploads_fresh s l → rtc (step unreferenced) s (run_actions s l).
Proof.
  revert s. induction l as [|a l IH]; intros s Hl; [apply rtc_refl|].
  destruct Hl as [Ha Hl]. simpl. etrans; [|by apply IH].
  apply run_action_steps. destruct a; simpl; auto using fresh_uploads_new.
Qed.

(** *** An item is in the wardrobe or in the trash, never in both *)

(** No id is both an active item and a trash entry, and every id in use
    lies below the key generator of the items. *)
Definition lifecycle (s : Store) : Prop :=
  (∀ k, is_Some (rows (items s) !! k) → trash s !! k = None)
  ∧ (∀ l k it, holds s l k it → (k < keygen (items s))%positive).

Lemma step_lifecycle (new : Store → Id → Prop) (s s' : Store) :
  step new s s' → lifecycle s → lifecycle s'.
Proof.
  intros Hstep [Hdis Hlt].
  assert (Hlt_items : ∀ k it, rows (items s) !! k = Some it
                              → (k < keygen (items s))%positive)
    by (intros k it; apply (Hlt false)).
  assert (Hlt_trash : ∀ k it, trash s !! k = Some it
                              → (k < keygen (items s))%positive)
    by (intros k it; apply (Hlt true)).
  destruct Hstep as [id it it' Hit _ _ Hrows Hgen Htrash _ _
                    |id it it' Hit _ _ Hrows Hgen Htrash _ _
                    |id it it' Hit _ _ Hrows Hgen Htrash _ _
                    |i d it _ _ _ Hrows Hgen Htrash _ _
                    |Hrows Hgen Htrash _ _
                    |Hrows Hgen Htrash _];
    split.
  - intros k. rewrite Hrows, Htrash. intros Hk. apply Hdis.
    destruct (decide (k = id)) as [->|Hne]; [by rewrite Hit|].
    by rewrite lookup_insert_ne in Hk.
  - intros [] k x; unfold holds; rewrite ?Hrows, ?Htrash, Hgen.
    + intros Hk. apply Hlt_trash in Hk. lia.
    + destruct (decide (k = id)) as [->|Hne]; [lia|].
      rewrite lookup_insert_ne by done. intros Hk. apply Hlt_items in Hk. lia.
  - intros k. rewrite Hrows, Htrash.
    destruct (decide (k = id)) as [->|Hne].
    + rewrite lookup_delete_eq. by intros [? ?].
    + rewrite lookup_delete_ne, lookup_insert_ne by done. apply Hdis.
  - intros [] k x; unfold holds; rewrite ?Hrows, ?Htrash, Hgen.
    + destruct (decide (k = id)) as [->|Hne]; [intros _; by eapply Hlt_items|].
      rewrite lookup_insert_ne by done. apply Hlt_trash.
    + destruct (decide (k = id)) as [->|Hne]; [by rewrite lookup_delete_eq|].
      rewrite lookup_delete_ne by done. apply Hlt_items.
  - intros k. rewrite Hrows, Htrash.
    destruct (decide (k = id)) as [->|Hne]; [by rewrite lookup_delete_eq|].
    rewrite lookup_delete_ne, lookup_insert_ne by done. apply Hdis.
  - intros [] k x; unfold holds; rewrite ?Hrows, ?Htrash, Hgen.
    + destruct (decide (k = id)) as [->|Hne]; [by rewrite lookup_delete_eq|].
      rewrite lookup_delete_ne by done. intros Hk. apply Hlt_trash in Hk. lia.
    + destruct (decide (k = id)) as [->|Hne]; [lia|].
      rewrite lookup_insert_ne by done. intros Hk. apply Hlt_items in Hk. lia.
  - intros k. rewrite Hrows, Htrash.
    destruct (decide (k = keygen (items s))) as [->|Hne].
    + intros _. destruct (trash s !! keygen (items s)) as [x|] eqn:Hx; [|done].
      apply Hlt_trash in Hx. lia.
    + rewrite lookup_insert_ne by done. apply Hdis.
  - intros [] k x; unfold holds; rewrite ?Hrows, ?Htrash, Hgen.
    + intros Hk. apply Hlt_trash in Hk. lia.
    + destruct (decide (k = keygen (items s))) as [->|Hne]; [lia|].
      rewrite lookup_insert_ne by done. intros Hk. apply Hlt_items in Hk. lia.
  - intros k _. by rewrite Htrash.
  - intros [] k x; unfold holds; rewrite ?Hrows, ?Htrash, Hgen; [done|].
    apply Hlt_items.
  - intros k. rewrite Hrows, Htrash. apply Hdis.
  - intros [] k x; unfold holds; rewrite ?Hrows, ?Htrash, Hgen;
      [apply Hlt_trash|apply Hlt_items].
Qed.

Lemma steps_lifecycle (new : Store → Id → Prop) (s s' : Store) :
  rtc (step new) s s' → lifecycle s → lifecycle s'.
Proof. induction 1; eauto using step_lifecycle. Qed.

(** X5. Whatever the user does with the items (uploads, favourite and
    laundry toggles, moves, deletions, restorations by button or by drop,
    emptying the trash, deleting a section), and whether or not the
    transaction of an emptying fails, an id is never both an active item
    and a trash entry, and every id in use stays below the key generator of
    the items, so that an upload never takes the id of an existing item or
    of a trash entry. *)
Theorem items_and_trash_stay_disjoint (s : Store) (l : list ItemAction) :
  lifecycle s → lifecycle (run_actions s l).
Proof. apply steps_lifecycle with (λ _ _, True), run_actions_steps_any. Qed.

Lemma items_and_trash_stay_disjoint_witness :
  lifecycle empty_store
  ∧ lifecycle
      (run_actions empty_store
         [ActProcessUpload "tops"
            [App.mkUpload 7 "data:a" "2024-01-01T00:00:00.000Z";
             App.mkUpload 8 "data:b" "2024-01-01T00:00:00.000Z"];
          ActDelete "2024-02-02T00:00:00.000Z" 1;
          ActBuilderUpload [App.mkUpload 9 "data:c" "2024-03-03T00:00:00.000Z"];
          ActRestore 1;
          ActDelete "2024-04-04T00:00:00.000Z" 2;
          ActEmptyTrash true (λ _, false)]%positive).
Proof.
  assert (H : lifecycle empty_store).
  { split; [by intros k [x Hx]|]. by intros [] k it Hk. }
  split; [exact H|]. exact (items_and_trash_stay_disjoint _ _ H).
Defined.

(** *** Every record has its image, and no two records share one *)

(** The image of every active item and of every trash entry is in the
    images store, and no image id is referred to by two records. *)
Definition referential (s : Store) : Prop :=
  (∀ l k it i, holds s l k it → imageId it = Some i → is_Some (images s !! i))
  ∧ (∀ l k it l' k' it' i,
       holds s l k it → holds s l' k' it' →
       imageId it = Some i → imageId it' = Some i → l = l' ∧ k = k').

(** The records of [s'] are records of [s], along an injective renaming of
    where they are kept, and the images they refer to are still there. *)
Lemma referential_back (s s' : Store) (back : bool * Id → bool * Id) :
  (∀ l k it, holds s' l k it →
     ∃ it0, holds s (back (l, k)).1 (back (l, k)).2 it0
            ∧ imageId it0 = imageId it) →
  (∀ l k it l' k' it', holds s' l k it → holds s' l' k' it' →
     back (l, k) = back (l', k') → l = l' ∧ k = k') →
  (∀ l k it i, holds s' l k it → imageId it = Some i →
     is_Some (images s !! i) → is_Some (images s' !! i)) →
  referential s → referential s'.
Proof.
  intros Hback Hinj Himg [Hex Huniq]. split.
  - intros l k it i Hk Hi. apply (Himg l k it i Hk Hi).
    destruct (Hback l k it Hk) as (it0 & Hk0 & Hi0).
    eapply Hex; [exact Hk0|congruence].
  - intros l k it l' k' it' i Hk Hk' Hi Hi'.
    destruct (Hback l k it Hk) as (it0 & Hk0 & Hi0).
    destruct (Hback l' k' it' Hk') as (it0' & Hk0' & Hi0').
    apply (Hinj l k it l' k' it' Hk Hk').
    destruct (Huniq _ _ _ _ _ _ i Hk0 Hk0') as [H1 H2]; [congruence..|].
    destruct (back (l, k)), (back (l', k')). simpl in *. congruence.
Qed.

Lemma step_referential (s s' : Store) :
  step unreferenced s s' → referential s → referential s'.
Proof.
  intros Hstep Href.
  destruct Hstep as [id it it' Hit Himg _ Hrows _ Htrash Himages _
                    |id it it' Hit Himg _ Hrows _ Htrash Himages _
                    |id it it' Hit Himg _ Hrows _ Htrash Himages _
                    |i d it Himg _ Hnew Hrows Hgen Htrash Himages _
                    |Hrows _ Htrash Himages _
                    |Hrows _ Htrash Himages].
  - apply (referential_back s s' (λ p, p)); [| |by rewrite Himages|done].
    + intros [] k x; unfold holds; rewrite ?Hrows, ?Htrash; cbn [fst snd].
      * intros Hk. by exists x.
      * destruct (decide (k = id)) as [->|Hne].
        -- rewrite lookup_insert_eq. intros [= <-]. by exists it.
        -- rewrite lookup_insert_ne by done. intros Hk. by exists x.
    + intros l k x l' k' x' _ _ [= -> ->]. done.
  - apply (referential_back s s'
             (λ p, if decide (p = (true, id)) then (false, id) else p));
      [| |by rewrite Himages|done].
    + intros [] k x; unfold holds; rewrite ?Hrows, ?Htrash.
      * destruct (decide (k = id)) as [->|Hne].
        -- rewrite lookup_insert_eq, decide_True by done. intros [= <-].
           by exists it.
        -- rewrite lookup_insert_ne, decide_False by congruence.
           intros Hk. by exists x.
      * rewrite decide_False by congruence.
        destruct (decide (k = id)) as [->|Hne]; [by rewrite lookup_delete_eq|].
        rewrite lookup_delete_ne by done. intros Hk. by exists x.
    + intros l k x l' k' x' Hk Hk'.
      assert (Hgone : ∀ y, ¬ holds s' false id y).
      { intros y. unfold holds. by rewrite Hrows, lookup_delete_eq. }
      destruct (decide ((l, k) = (true, id))) as [Heq|Hne];
        destruct (decide ((l', k') = (true, id))) as [Heq'|Hne'];
        intros Hb; simplify_eq; try done.
      * by apply Hgone in Hk'.
      * by apply Hgone in Hk.
  - apply (referential_back s s'
             (λ p, if decide (p = (false, id)) then (true, id) else p));
      [| |by rewrite Himages|done].
    + intros [] k x; unfold holds; rewrite ?Hrows, ?Htrash.
      * rewrite decide_False by congruence.
        destruct (decide (k = id)) as [->|Hne]; [by rewrite lookup_delete_eq|].
        rewrite lookup_delete_ne by done. intros Hk. by exists x.
      * destruct (decide (k = id)) as [->|Hne].
        -- rewrite lookup_insert_eq, decide_True by done. intros [= <-].
           by exists it.
        -- rewrite lookup_insert_ne, decide_False by congruence.
           intros Hk. by exists x.
    + intros l k x l' k' x' Hk Hk'.
      assert (Hgone : ∀ y, ¬ holds s' true id y).
      { intros y. unfold holds. by rewrite Htrash, lookup_delete_eq. }
      destruct (decide ((l, k) = (false, id))) as [Heq|Hne];
        destruct (decide ((l', k') = (false, id))) as [Heq'|Hne'];
        intros Hb; simplify_eq; try done.
      * by apply Hgone in Hk'.
      * by apply Hgone in Hk.
  - destruct Href as [Hex Huniq].
    assert (Hold : ∀ l k x, holds s' l k x →
              (l = false ∧ k = keygen (items s) ∧ x = it) ∨
              (holds s l k x ∧ (l, k) ≠ (false, keygen (items s)))).
    { intros [] k x; unfold holds; rewrite ?Hrows, ?Htrash.
      - intros Hk. right. split; [done|congruence].
      - destruct (decide (k = keygen (items s))) as [->|Hne].
        + rewrite lookup_insert_eq. intros [= <-]. by left.
        + rewrite lookup_insert_ne by done. intros Hk. right.
          split; [done|congruence]. }
    split.
    + intros l k x j Hk Hj. rewrite Himages.
      destruct (decide (j = i)) as [->|Hne]; [by rewrite lookup_insert_eq|].
      rewrite lookup_insert_ne by done.
      destruct (Hold l k x Hk) as [(_ & _ & ->)|[Hk0 _]]; [congruence|].
      by eapply Hex.
    + intros l k x l' k' x' j Hk Hk' Hj Hj'.
      destruct (Hold l k x Hk) as [(-> & -> & ->)|[Hk0 _]];
        destruct (Hold l' k' x' Hk') as [(-> & -> & ->)|[Hk0' _]].
      * done.
      * exfalso. apply (Hnew _ _ _ Hk0'). congruence.
      * exfalso. apply (Hnew _ _ _ Hk0). congruence.
      * by eapply Huniq.
  - pose proof Href as [Hex Huniq].
    apply (referential_back s s' (λ p, p)); [| | |done].
    + intros [] k x; unfold holds; rewrite ?Hrows, ?Htrash; cbn [fst snd].
      * by rewrite lookup_empty.
      * intros Hk. by exists x.
    + intros l k x l' k' x' _ _ [= -> ->]. done.
    + intros [] k x j; unfold holds; rewrite ?Hrows, ?Htrash;
        [by rewrite lookup_empty|].
      intros Hk Hj Hsome. rewrite Himages.
      destruct (decide _) as [Hin|_]; [|done].
      apply elem_of_image_refs in Hin as (k' & x' & Hk' & Hj').
      by destruct (Huniq false k x true k' x' j Hk Hk' Hj Hj').
  - apply (referential_back s s' (λ p, p)); [| |by rewrite Himages|done].
    + intros [] k x; unfold holds; rewrite ?Hrows, ?Htrash; cbn [fst snd];
        intros Hk; by exists x.
    + intros l k x l' k' x' _ _ [= -> ->]. done.
Qed.

Lemma steps_referential (s s' : Store) :
  rtc (step unreferenced) s s' → referential s → referential s'.
Proof. induction 1; eauto using step_referential. Qed.

(** X6. When the image ids drawn for the uploads are new, the actions on
    the items keep every record with its image: the image of every active
    item and of every trash entry is in the images store, and no image is
    referred to by two records, so that emptying the trash never deletes
    the image of an active item. *)
Theorem records_keep_their_images (s : Store) (l : list ItemAction) :
  referential s → uploads_fresh s l → referential (run_actions s l).
Proof.
  intros Href Hl. apply (steps_referential s); [|done].
  by apply run_actions_steps_fresh.
Qed.

Lemma records_keep_their_images_witness :
  referential
    (run_actions empty_store
       [ActProcessUpload "tops"
          [App.mkUpload 7 "data:a" "2024-01-01T00:00:00.000Z"];
        ActDelete "2024-02-02T00:00:00.000Z" 1;
        ActBuilderUpload [App.mkUpload 9 "data:c" "2024-03-03T00:00:00.000Z"];
        ActEmptyTrash true (λ _, false)]%positive).
Proof.
  apply records_keep_their_images.
  - split; [by intros [] k it i Hk|by intros [] k it l' k' it' i Hk].
  - split.
    { split; [apply NoDup_singleton|]. intros u _. by intros [] k it Hk. }
    split; [done|]. split; [|done].
    split; [apply NoDup_singleton|].
    intros u ->%list_elem_of_singleton.
    intros [] k it Hk; unfold holds in Hk;
      destruct k as [k|k|]; vm_compute in Hk; try discriminate Hk.
    by injection Hk as <-.
Defined.

(** ** Restoring an item of a deleted section *)

Lemma custom_category_inj (a b : Id) :
  custom_category a = custom_category b → a = b.
Proof.
  unfold custom_category. simpl. intros [= H].
  change (NilEmpty.string_of_uint (Pos.to_uint a)
          = NilEmpty.string_of_uint (Pos.to_uint b)) in H.
  apply Unsigned.to_uint_inj.
  apply (f_equal NilEmpty.uint_of_string) in H.
  rewrite !NilEmpty.usu in H. congruence.
Qed.

Lemma custom_category_not_fixed (a : Id) :
  custom_category a ∉ ["tops"; "bottoms"; "outerwear"; "other"].
Proof.
  unfold custom_category. simpl. intros H.
  repeat (apply elem_of_cons in H as [H|H]; [discriminate H|]).
  by apply elem_of_nil in H.
Qed.

Lemma custom_category_nonempty (a : Id) : custom_category a ≠ "".
Proof. unfold custom_category. simpl. discriminate. Qed.

(** X7. An item of a custom section that went to the trash when the
    section was deleted, and is then restored, comes back active with the
    category of the section that no longer exists: [renderWardrobe] renders
    it into none of the category grids (the favorites and laundry grids
    apart), and the move and upload selects do not offer its category. *)
Theorem restored_item_of_deleted_section_is_in_no_grid
    (sectionId k : Id) (it : Item) (s : Store) :
  rows (items s) !! k = Some it →
  category it = custom_category sectionId →
  let s1 := store_of (App.deleteSection true sectionId s) in
  let s2 := store_of (App.restoreItem k s1) in
  (∃ it', rows (items s2) !! k = Some it'
          ∧ category it' = custom_category sectionId
          ∧ UI.not_deleted it' = true)
  ∧ rows (customSections s2) !! sectionId = None
  ∧ (∃ grids, result_of (UI.category_grids s2) = Done grids
              ∧ ∀ g shown x, (g, shown) ∈ grids → (k, x) ∉ shown)
  ∧ custom_category sectionId
      ∉ UI.category_options (get_all (rows (customSections s2))).
Proof.
  intros Hk Hc s1 s2.
  assert (Htrash : trash s1 !! k = Some (section_trashed it)).
  { subst s1. rewrite deleteSection_run. unfold store_of. cbn [fst snd].
    cbn [trash set_customSections]. by apply relocate_trash_lookup. }
  assert (Hs2 : s2 = set_items (table_put (Some k) (restored (section_trashed it))
                                  (items s1)).2
                       (set_trash (delete k (trash s1)) s1)).
  { subst s2. by rewrite (restoreItem_found k s1 _ Htrash). }
  assert (Hrow : rows (items s2) !! k = Some (restored (section_trashed it))).
  { rewrite Hs2. cbn. apply lookup_insert_eq. }
  assert (Hcat : category (restored (section_trashed it)) = custom_category sectionId).
  { cbn. rewrite Hc. unfold or_string.
    by rewrite decide_False by apply custom_category_nonempty. }
  assert (Hsec : ∀ j, rows (customSections s2) !! j
                      = if decide (j = sectionId) then None
                        else rows (customSections s) !! j).
  { intros j. rewrite Hs2. subst s1. rewrite deleteSection_run.
    unfold store_of. cbn.
    destruct (decide (j = sectionId)) as [->|Hne];
      [apply lookup_delete_eq|by apply lookup_delete_ne]. }
  split_and!.
  - exists (restored (section_trashed it)). by split_and!.
  - by rewrite Hsec, decide_True.
  - eexists. split; [reflexivity|].
    intros g shown x Hg Hx.
    assert (Hshown : ∃ c, shown = UI.category_items c (get_all (rows (items s2)))
                          ∧ (c ∈ ["tops"; "bottoms"; "outerwear"; "other"]
                             ∨ ∃ j sec, rows (customSections s2) !! j = Some sec
                                        ∧ c = custom_category j)).
    { apply elem_of_app in Hg as [Hg|Hg].
      - apply list_elem_of_fmap in Hg as (c & [= -> ->] & Hin).
        exists c. split; [done|by left].
      - apply list_elem_of_fmap in Hg as ([j sec] & [= -> ->] & Hin).
        exists (custom_category j). split; [done|]. right. exists j, sec.
        by apply elem_of_get_all in Hin. }
    destruct Hshown as (c & -> & Hc').
    apply list_elem_of_filter in Hx as [[Hxc _] Hx].
    apply elem_of_get_all in Hx. rewrite Hrow in Hx. injection Hx as <-.
    cbn [snd] in Hxc. rewrite Hcat in Hxc. subst c.
    destruct Hc' as [Hfix|(j & sec & Hj & Heq)].
    + by apply custom_category_not_fixed in Hfix.
    + apply custom_category_inj in Heq as <-.
      by rewrite Hsec, decide_True in Hj.
  - unfold UI.category_options. intros Hin.
    apply elem_of_app in Hin as [Hin|Hin].
    + by apply custom_category_not_fixed in Hin.
    + apply list_elem_of_fmap in Hin as ([j sec] & Heq & Hin).
      cbn [fst] in Heq. apply custom_category_inj in Heq. subst j.
      apply elem_of_get_all in Hin. by rewrite Hsec, decide_True in Hin.
Qed.

Lemma restored_item_of_deleted_section_is_in_no_grid_witness :
  let s1 := store_of (App.deleteSection true 1%positive section_store) in
  let s2 := store_of (App.restoreItem 4%positive s1) in
  (∃ it', rows (items s2) !! 4%positive = Some it'
          ∧ category it' = custom_category 1%positive
          ∧ UI.not_deleted it' = true)
  ∧ rows (customSections s2) !! 1%positive = None
  ∧ (∃ grids, result_of (UI.category_grids s2) = Done grids
              ∧ ∀ g shown x, (g, shown) ∈ grids → (4%positive, x) ∉ shown)
  ∧ custom_category 1%positive
      ∉ UI.category_options (get_all (rows (customSections s2))).
Proof.
  exact (restored_item_of_deleted_section_is_in_no_grid
           1%positive 4%positive scarf section_store eq_refl eq_refl).
Defined.

(** ** Editing the weekly plan *)

Lemma removeFromWeekly_run (day : string) (itemId : Id) (s : Store) :
  App.removeFromWeekly day itemId s =
  match weeklyPlan s !! day with
  | None => (Done tt, s, [])
  | Some d =>
      (Done tt,
       set_weeklyPlan
         (<[day := set_ditems (filter (λ id, id ≠ itemId) (ditems d)) d]>
            (weeklyPlan s)) s,
       [EvPut "weeklyPlan" (KName day)])
  end.
Proof.
  unfold App.removeFromWeekly, Storage.getWeeklyPlan, Storage.saveWeeklyDay.
  run_M. rewrite find_day_lookup.
  by destruct (weeklyPlan s !! day) as [d|].
Qed.

Lemma saveWeeklyNotes_run (day notes : string) (s : Store) :
  App.saveWeeklyNotes day notes s =
  match weeklyPlan s !! day with
  | None => (Done tt, s, [])
  | Some d =>
      (Done tt,
       set_weeklyPlan (<[day := App.set_dnotes notes d]> (weeklyPlan s)) s,
       [EvPut "weeklyPlan" (KName day)])
  end.
Proof.
  unfold App.saveWeeklyNotes, Storage.getWeeklyPlan, Storage.saveWeeklyDay.
  run_M. rewrite find_day_lookup.
  by destruct (weeklyPlan s !! day) as [d|].
Qed.

Lemma saveDayType_run (day type : string) (s : Store) :
  App.saveDayType day type s =
  match weeklyPlan s !! day with
  | None => (Done tt, s, [])
  | Some d =>
      (Done tt,
       set_weeklyPlan
         (<[day := App.set_dtype (if decide (type = "") then "Regular Day" else type) d]>
            (weeklyPlan s)) s,
       [EvPut "weeklyPlan" (KName day)])
  end.
Proof.
  unfold App.saveDayType, Storage.getWeeklyPlan, Storage.saveWeeklyDay.
  run_M. rewrite find_day_lookup.
  by destruct (weeklyPlan s !! day) as [d|].
Qed.

Lemma filter_other_snoc (itemId : Id) (l : list Id) :
  itemId ∉ l → filter (λ id, id ≠ itemId) (l ++ [itemId]) = l.
Proof.
  intros Hin. rewrite filter_app.
  rewrite (filter_cons_False _ itemId) by (intros H; by apply H).
  rewrite filter_nil, app_nil_r.
  induction l as [|x l IH]; [done|].
  apply not_elem_of_cons in Hin as [Hne Hin].
  rewrite filter_cons_True by done. by rewrite IH.
Qed.

(** X8. Removing an item from a day of the weekly plan undoes adding it:
    when the item was not in the day's outfit, a drop on the day followed
    by [removeFromWeekly] leaves the whole store as it was. *)
Theorem weekly_add_then_remove
    (day : string) (itemId : Id) (d : DayPlan) (s : Store) :
  weeklyPlan s !! day = Some d →
  itemId ∉ ditems d →
  store_of (App.removeFromWeekly day itemId
              (store_of (DragDrop.addToWeeklyOutfit day itemId s)))
  = s.
Proof.
  intros Hd Hin.
  rewrite addToWeeklyOutfit_run, Hd, decide_False by done.
  unfold store_of at 2. cbn [fst snd].
  rewrite removeFromWeekly_run. cbn [weeklyPlan set_weeklyPlan].
  rewrite lookup_insert_eq. unfold store_of. cbn [fst snd].
  destruct s, d. unfold set_weeklyPlan, set_ditems. cbn in *.
  rewrite insert_insert_eq, filter_other_snoc by done.
  f_equal. by apply insert_id.
Qed.

Lemma weekly_add_then_remove_witness :
  store_of (App.removeFromWeekly "Monday" 5%positive
              (store_of (DragDrop.addToWeeklyOutfit "Monday" 5%positive week_store)))
  = week_store.
Proof.
  eapply (weekly_add_then_remove "Monday" 5%positive); [reflexivity|].
  vm_compute. by intros H%elem_of_nil.
Defined.

Lemma get_all_named_nil {V} (m : gmap string V) :
  get_all_named m = [] ↔ m = ∅.
Proof.
  split.
  - intros H. apply map_to_list_empty_iff.
    apply Permutation_nil. rewrite <- H. apply get_all_named_perm.
  - intros ->. apply Permutation_nil. symmetry.
    rewrite get_all_named_perm. by rewrite map_to_list_empty.
Qed.

Lemma renderWeeklyOutfits_run (container : bool) (s : Store) :
  UI.renderWeeklyOutfits container s =
  if container && bool_decide (weeklyPlan s = ∅) then
    (Done tt, set_weeklyPlan default_week s,
     (λ d, EvPut "weeklyPlan" (KName d.1)) <$> UI.default_days)
  else (Done tt, s, []).
Proof.
  unfold UI.renderWeeklyOutfits. destruct container; simpl; [|done].
  unfold Storage.getWeeklyPlan. run_M.
  destruct (decide (get_all_named (weeklyPlan s) = [])) as [Hnil|Hsome].
  - pose proof Hnil as Hempty%get_all_named_nil.
    rewrite bool_decide_eq_true_2 by done.
    destruct s as [? ? wp ? ? ? ? ?]. cbn in Hempty. subst wp.
    vm_compute. reflexivity.
  - rewrite bool_decide_eq_false_2; [done|].
    intros Hempty. by apply Hsome, get_all_named_nil.
Qed.

(** X9. [renderWeeklyOutfits] writes only to an empty weekly plan, and then
    it stores the five default days, Monday to Friday, without items or
    notes; rendering again writes nothing.  Without its container in the
    document it writes nothing at all. *)
Theorem renderWeeklyOutfits_creates_defaults_once (container : bool) (s : Store) :
  let r := UI.renderWeeklyOutfits container s in
  (container = true ∧ weeklyPlan s = ∅ →
     weeklyPlan (store_of r) = list_to_map UI.default_days
     ∧ log_of r = [EvPut "weeklyPlan" (KName "Monday");
                   EvPut "weeklyPlan" (KName "Tuesday");
                   EvPut "weeklyPlan" (KName "Wednesday");
                   EvPut "weeklyPlan" (KName "Thursday");
                   EvPut "weeklyPlan" (KName "Friday")])
  ∧ (container = false ∨ weeklyPlan s ≠ ∅ → store_of r = s ∧ log_of r = [])
  ∧ store_of (UI.renderWeeklyOutfits container (store_of r)) = store_of r
  ∧ log_of (UI.renderWeeklyOutfits container (store_of r)) = [].
Proof.
  intros r. subst r. rewrite renderWeeklyOutfits_run.
  destruct container; cbn [andb].
  - destruct (decide (weeklyPlan s = ∅)) as [Hempty|Hsome].
    + rewrite bool_decide_eq_true_2 by done.
      unfold store_of, log_of. cbn [fst snd]. split_and!.
      * done.
      * by intros [[=]|?].
      * rewrite renderWeeklyOutfits_run. done.
      * rewrite renderWeeklyOutfits_run. done.
    + rewrite bool_decide_eq_false_2 by done.
      unfold store_of, log_of. cbn [fst snd]. split_and!.
      * by intros [_ ?].
      * done.
      * rewrite renderWeeklyOutfits_run.
        by rewrite bool_decide_eq_false_2 by done.
      * rewrite renderWeeklyOutfits_run.
        by rewrite bool_decide_eq_false_2 by done.
  - unfold store_of, log_of. cbn [fst snd]. split_and!; try done.
    by intros [[=] _].
Qed.

(** The calls that edit the weekly plan, and the rendering of the planner
    that ends most of them. *)
Inductive PlanEdit :=
  | EditDrop (day : string) (itemId : Id)
  | EditOpenModal (day : string)
  | EditCloseModal
  | EditModalAdd (itemId : Id)
  | EditRemove (day : string) (itemId : Id)
  | EditNotes (day notes : string)
  | EditType (day type : string)
  | EditRender (container : bool).

Definition run_edit (st : App.State * Store) (e : PlanEdit) : App.State * Store :=
  match e with
  | EditDrop day itemId =>
      (st.1, store_of (DragDrop.addToWeeklyOutfit day itemId st.2))
  | EditOpenModal day => (App.openWeeklyModal day st.1, st.2)
  | EditCloseModal => (App.closeWeeklyModal st.1, st.2)
  | EditModalAdd itemId =>
      match App.addToWeeklyFromModal itemId st.1 st.2 with
      | (Done app, s, _) => (app, s)
      | (Thrown _, s, _) => (st.1, s)
      end
  | EditRemove day itemId => (st.1, store_of (App.removeFromWeekly day itemId st.2))
  | EditNotes day notes => (st.1, store_of (App.saveWeeklyNotes day notes st.2))
  | EditType day type => (st.1, store_of (App.saveDayType day type st.2))
  | EditRender container => (st.1, store_of (UI.renderWeeklyOutfits container st.2))
  end.

(** [s'] differs from [s] in the weekly plan only, and the plan has the
    same days, or was empty and has the default days. *)
Definition same_days (s s' : Store) : Prop :=
  items s' = items s ∧ images s' = images s
  ∧ savedOutfits s' = savedOutfits s ∧ customSections s' = customSections s
  ∧ shoppingList s' = shoppingList s ∧ trash s' = trash s
  ∧ localStorage s' = localStorage s
  ∧ (dom (weeklyPlan s') = dom (weeklyPlan s)
     ∨ weeklyPlan s = ∅ ∧ dom (weeklyPlan s') = dom default_week).

Lemma same_days_refl (s : Store) : same_days s s.
Proof. unfold same_days. split_and!; try done. by left. Qed.

Lemma same_days_trans (s1 s2 s3 : Store) :
  same_days s1 s2 → same_days s2 s3 → same_days s1 s3.
Proof.
  intros (?&?&?&?&?&?&?&H12) (?&?&?&?&?&?&?&H23).
  unfold same_days. split_and!; try congruence.
  destruct H12 as [H12|[He1 H12]], H23 as [H23|[He2 H23]].
  - left. congruence.
  - right. split; [|done]. apply dom_empty_iff_L.
    rewrite <- H12. by apply dom_empty_iff_L.
  - right. split; [done|congruence].
  - by right.
Qed.

Lemma same_days_update (day : string) (d d' : DayPlan) (s : Store) :
  weeklyPlan s !! day = Some d →
  same_days s (set_weeklyPlan (<[day := d']> (weeklyPlan s)) s).
Proof.
  intros Hd. unfold same_days. split_and!; try done. left.
  cbn. by apply dom_insert_lookup_L.
Qed.

Lemma run_edit_same_days (st : App.State * Store) (e : PlanEdit) :
  same_days st.2 (run_edit st e).2.
Proof.
  destruct st as [app s].
  destruct e as [day itemId|day| |itemId|day itemId|day notes|day type|container];
    cbn [run_edit fst snd]; try apply same_days_refl.
  - rewrite addToWeeklyOutfit_run.
    destruct (weeklyPlan s !! day) as [d|] eqn:Hd; [|apply same_days_refl].
    destruct (decide _); [apply same_days_refl|].
    by eapply same_days_update.
  - rewrite addToWeeklyFromModal_run.
    destruct (App.currentWeeklyDay app) as [day|]; [|apply same_days_refl].
    destruct (decide (day = "")); [apply same_days_refl|].
    destruct (weeklyPlan s !! day) as [d|] eqn:Hd; [|apply same_days_refl].
    destruct (decide _); [apply same_days_refl|].
    by eapply same_days_update.
  - rewrite removeFromWeekly_run.
    destruct (weeklyPlan s !! day) as [d|] eqn:Hd; [|apply same_days_refl].
    by eapply same_days_update.
  - rewrite saveWeeklyNotes_run.
    destruct (weeklyPlan s !! day) as [d|] eqn:Hd; [|apply same_days_refl].
    by eapply same_days_update.
  - rewrite saveDayType_run.
    destruct (weeklyPlan s !! day) as [d|] eqn:Hd; [|apply same_days_refl].
    by eapply same_days_update.
  - rewrite renderWeeklyOutfits_run.
    destruct container; cbn [andb]; [|apply same_days_refl].
    destruct (decide (weeklyPlan s = ∅)) as [Hempty|Hsome].
    + rewrite bool_decide_eq_true_2 by done.
      unfold same_days, store_of. cbn. split_and!; try done. by right.
    + rewrite bool_decide_eq_false_2 by done. apply same_days_refl.
Qed.

(** X10. No edit of the weekly plan (a drop on a day, a pick in the modal,
    removing an item, saving notes or a day type) adds or drops a day, and
    none touches another store: after any sequence of them and of
    renderings, the plan has the days it had, or it was empty and has the
    five default days. *)
Theorem planner_keeps_its_days
    (edits : list PlanEdit) (app : App.State) (s : Store) :
  let s' := (foldl run_edit (app, s) edits).2 in
  items s' = items s ∧ images s' = images s
  ∧ savedOutfits s' = savedOutfits s ∧ customSections s' = customSections s
  ∧ shoppingList s' = shoppingList s ∧ trash s' = trash s
  ∧ localStorage s' = localStorage s
  ∧ (dom (weeklyPlan s') = dom (weeklyPlan s)
     ∨ weeklyPlan s = ∅
       ∧ dom (weeklyPlan s')
         = {["Monday"; "Tuesday"; "Wednesday"; "Thursday"; "Friday"]}).
Proof.
  cbv zeta.
  assert (H : same_days s (foldl run_edit (app, s) edits).2).
  { revert app s. induction edits as [|e edits IH]; intros app s.
    - apply same_days_refl.
    - simpl. pose proof (run_edit_same_days (app, s) e) as Hstep.
      destruct (run_edit (app, s) e) as [app' s1].
      eapply same_days_trans; [exact Hstep|apply IH]. }
  destruct H as (?&?&?&?&?&?&?&Hdom). split_and!; done.
Qed.

(** ** The outfit builder *)

Lemma find_get_all {V} (k : Id) (m : gmap Id V) :
  find (λ o, bool_decide (o.1 = k)) (get_all m) = pair k <$> m !! k.
Proof.
  destruct (find _ _) as [[k' v]|] eqn:Hfind.
  - apply find_some in Hfind as [Hin Hk].
    apply bool_decide_eq_true in Hk. simpl in Hk. subst k'.
    apply list_elem_of_In, elem_of_get_all in Hin. by rewrite Hin.
  - destruct (m !! k) as [v|] eqn:Hm; [|done].
    apply elem_of_get_all, list_elem_of_In in Hm.
    apply (find_none _ _ Hfind) in Hm.
    by apply bool_decide_eq_false in Hm.
Qed.

Lemma loadSavedOutfit_run (outfitId : Id) (b : App.Builder) (s : Store) :
  App.loadSavedOutfit outfitId b s =
  (Done match rows (savedOutfits s) !! outfitId with
        | Some o => App.mkBuilder (oitems o) (onotes o)
        | None => b
        end, s, []).
Proof.
  unfold App.loadSavedOutfit, Storage.getAllSavedOutfits. run_M.
  rewrite find_get_all.
  by destruct (rows (savedOutfits s) !! outfitId).
Qed.

Lemma saveBuilderOutfit_run (date : string) (b : App.Builder) (s : Store) :
  App.saveBuilderOutfit date b s =
  if decide (App.builderItems b = []) then (Done b, s, [])
  else
    (Done (App.mkBuilder [] ""),
     set_savedOutfits
       (mkTable (<[keygen (savedOutfits s) :=
                     mkOutfit (App.builderItems b) (App.builderNotes b) date]>
                   (rows (savedOutfits s)))
                (Pos.succ (keygen (savedOutfits s)))) s,
     [EvPut "savedOutfits" (KId (keygen (savedOutfits s)))]).
Proof.
  unfold App.saveBuilderOutfit. by destruct (decide _).
Qed.

(** X11. Saving the builder's outfit and loading it again gives the builder
    the items, in their order, and the notes it had: the save stores them
    under the next key of the saved outfits and clears the builder, and
    [loadSavedOutfit] of that key puts them back. *)
Theorem builder_save_then_load
    (date : string) (b b' : App.Builder) (s : Store) :
  App.builderItems b ≠ [] →
  let saved := App.saveBuilderOutfit date b s in
  let k := keygen (savedOutfits s) in
  result_of saved = Done (App.mkBuilder [] "")
  ∧ rows (savedOutfits (store_of saved)) !! k
    = Some (mkOutfit (App.builderItems b) (App.builderNotes b) date)
  ∧ result_of (App.loadSavedOutfit k b' (store_of saved)) = Done b.
Proof.
  intros Hne. cbv zeta. rewrite saveBuilderOutfit_run, decide_False by done.
  unfold store_of, result_of. cbn [fst snd]. split_and!.
  - done.
  - cbn. apply lookup_insert_eq.
  - rewrite loadSavedOutfit_run. cbn. rewrite lookup_insert_eq. by destruct b.
Qed.

Lemma builder_save_then_load_witness :
  result_of
    (App.loadSavedOutfit 1%positive (App.mkBuilder [] "")
       (store_of (App.saveBuilderOutfit "1/2/2024, 10:00:00 AM"
                    (App.mkBuilder [3%positive; 1%positive] "for the interview")
                    empty_store)))
  = Done (App.mkBuilder [3%positive; 1%positive] "for the interview").
Proof.
  refine (proj2 (proj2 (builder_save_then_load "1/2/2024, 10:00:00 AM"
            (App.mkBuilder [3%positive; 1%positive] "for the interview")
            (App.mkBuilder [] "") empty_store _))).
  discriminate.
Defined.

(** The calls on the builder and on the saved outfits. *)
Inductive BuilderCall :=
  | CallAddToBuilder (itemId : Id)
  | CallRemoveFromBuilder (itemId : Id)
  | CallClearBuilder
  | CallSaveBuilderOutfit (date : string)
  | CallLoadSavedOutfit (outfitId : Id)
  | CallDeleteSavedOutfit (outfitId : Id).

Definition run_builder_call (st : App.Builder * Store) (c : BuilderCall)
  : App.Builder * Store :=
  match c with
  | CallAddToBuilder itemId => (App.addToBuilder itemId st.1, st.2)
  | CallRemoveFromBuilder itemId => (App.removeFromBuilder itemId st.1, st.2)
  | CallClearBuilder => (App.clearBuilder st.1, st.2)
  | CallSaveBuilderOutfit date =>
      match App.saveBuilderOutfit date st.1 st.2 with
      | (Done b, s, _) => (b, s)
      | (Thrown _, s, _) => (st.1, s)
      end
  | CallLoadSavedOutfit outfitId =>
      match App.loadSavedOutfit outfitId st.1 st.2 with
      | (Done b, s, _) => (b, s)
      | (Thrown _, s, _) => (st.1, s)
      end
  | CallDeleteSavedOutfit outfitId =>
      (st.1, store_of (App.deleteSavedOutfit outfitId st.2))
  end.

(** The builder holds no item twice, and every saved outfit has at least
    one item and none twice. *)
Definition outfits_wellformed (st : App.Builder * Store) : Prop :=
  NoDup (App.builderItems st.1)
  ∧ ∀ k o, rows (savedOutfits st.2) !! k = Some o →
           oitems o ≠ [] ∧ NoDup (oitems o).

Lemma run_builder_call_wellformed (st : App.Builder * Store) (c : BuilderCall) :
  outfits_wellformed st → outfits_wellformed (run_builder_call st c).
Proof.
  destruct st as [b s]. intros [Hb Hs].
  destruct c as [itemId|itemId| |date|outfitId|outfitId];
    unfold outfits_wellformed; cbn [run_builder_call fst snd].
  - split; [|done]. unfold App.addToBuilder, includes.
    destruct (decide (itemId ∈ App.builderItems b)) as [Hin|Hin].
    + by rewrite bool_decide_eq_true_2.
    + rewrite bool_decide_eq_false_2 by done. cbn.
      by apply NoDup_snoc_fresh.
  - split; [|done]. cbn. by apply NoDup_filter.
  - split; [|done]. cbn. apply NoDup_nil_2.
  - rewrite saveBuilderOutfit_run.
    destruct (decide (App.builderItems b = [])) as [Hnil|Hsome]; [done|].
    cbn. split; [apply NoDup_nil_2|].
    intros k o. rewrite lookup_insert.
    destruct (decide _) as [_|_]; [by intros [= <-]|apply Hs].
  - rewrite loadSavedOutfit_run. cbn [fst snd]. split; [|done].
    destruct (rows (savedOutfits s) !! outfitId) as [o|] eqn:Ho; [|done].
    cbn. by apply (Hs outfitId).
  - split; [done|]. intros k o. cbn.
    destruct (decide (k = outfitId)) as [->|Hne];
      [by rewrite lookup_delete_eq|].
    rewrite lookup_delete_ne by done. apply Hs.
Qed.

(** X12. The builder never holds an item twice, and a saved outfit is never
    empty and never holds an item twice: adding to, removing from and
    clearing the builder, saving it, loading and deleting saved outfits
    keep it so. *)
Theorem outfits_stay_wellformed
    (calls : list BuilderCall) (b : App.Builder) (s : Store) :
  outfits_wellformed (b, s) →
  outfits_wellformed (foldl run_builder_call (b, s) calls).
Proof.
  revert b s. induction calls as [|c calls IH]; intros b s Hst; [done|].
  simpl. pose proof (run_builder_call_wellformed (b, s) c Hst) as Hstep.
  destruct (run_builder_call (b, s) c) as [b1 s1]. by apply IH.
Qed.

Lemma outfits_stay_wellformed_witness :
  outfits_wellformed
    (foldl run_builder_call (App.mkBuilder [] "", empty_store)
       [CallAddToBuilder 3; CallAddToBuilder 1; CallAddToBuilder 3;
        CallSaveBuilderOutfit "1/2/2024, 10:00:00 AM";
        CallSaveBuilderOutfit "1/2/2024, 10:00:05 AM";
        CallLoadSavedOutfit 1; CallRemoveFromBuilder 3;
        CallSaveBuilderOutfit "1/2/2024, 10:01:00 AM";
        CallDeleteSavedOutfit 1]%positive).
Proof.
  apply outfits_stay_wellformed. split; [apply NoDup_nil_2|].
  intros k o Hk. cbn in Hk. by rewrite lookup_empty in Hk.
Defined.

(** ** Settings and the weather cache *)

Lemma setting_key_inj (a b : string) :
  "wardrobe_" +:+ a = "wardrobe_" +:+ b → a = b.
Proof. simpl. by intros [= H]. Qed.

Lemma setSetting_run (key : string) (v : JsVal) (s : Store) :
  Storage.setSetting key v s =
  (Done tt,
   set_localStorage (<["wardrobe_" +:+ key := setting_text v]> (localStorage s)) s,
   [EvSetItem ("wardrobe_" +:+ key) (setting_text v)]).
Proof. reflexivity. Qed.

Lemma setting_value_other (key key' : string) (v dflt : JsVal) (s : Store) :
  key ≠ key' →
  setting_value key dflt (store_of (Storage.setSetting key' v s))
  = setting_value key dflt s.
Proof.
  intros Hne. unfold setting_value, Storage.getSetting, reads, result_of, store_of.
  rewrite setSetting_run. cbn [fst snd localStorage set_localStorage].
  rewrite lookup_insert_ne; [done|].
  intros Heq%setting_key_inj. congruence.
Qed.

Lemma setting_value_same (key : string) (v dflt : JsVal) (s : Store) :
  setting_value key dflt (store_of (Storage.setSetting key v s))
  = match JSON.parse (setting_text v) with
    | Some j => j
    | None => JStr (setting_text v)
    end.
Proof.
  unfold setting_value, Storage.getSetting, reads, result_of, store_of.
  rewrite setSetting_run. cbn [fst snd localStorage set_localStorage].
  by rewrite lookup_insert_eq.
Qed.

Lemma getLocation_run (s : Store) :
  Weather.getLocation s =
  (Done (if truthy (setting_value "location" JNull s)
         then setting_value "location" JNull s
         else Weather.DEFAULT_LOCATION), s, []).
Proof. reflexivity. Qed.

(** The location [renderWeather] asks the forecast for in store [s]. *)
Definition weather_location (s : Store) : JsVal :=
  if truthy (setting_value "location" JNull s)
  then setting_value "location" JNull s
  else Weather.DEFAULT_LOCATION.

(** The request [renderWeather] issues in store [s] when it has to fetch;
    none when a template literal throws. *)
Definition weather_url (s : Store) : option string :=
  Weather.forecast_url
    (Weather.get_field "lat" (weather_location s))
    (Weather.get_field "lon" (weather_location s))
    (setting_value "tempUnit" (JStr "fahrenheit") s).

(** The text of a request: the address of the service, the latitude and
    the longitude, the fields asked for, and the units. *)
Definition request_text (la lo unit : string) : string :=
  "https://api.open-meteo.com/v1/forecast?latitude=" +:+ la +:+
  "&longitude=" +:+ lo +:+
  "&current=temperature_2m,relative_humidity_2m,apparent_temperature,precipitation,weather_code,wind_speed_10m&daily=temperature_2m_max,temperature_2m_min,precipitation_probability_max,weather_code&temperature_unit=" +:+
  unit +:+
  "&wind_speed_unit=mph&precipitation_unit=inch&timezone=auto&forecast_days=7".

Lemma forecast_url_text (lat lon : option JsVal) (tempUnit : JsVal)
    (la lo unit : string) :
  template lat = Some la → template lon = Some lo →
  js_string tempUnit = Some unit →
  Weather.forecast_url lat lon tempUnit = Some (request_text la lo unit).
Proof.
  intros Hla Hlo Hunit. unfold Weather.forecast_url.
  rewrite Hla, Hlo, Hunit. reflexivity.
Qed.

Lemma forecast_url_none (lat lon : option JsVal) (tempUnit : JsVal) :
  template lat = None ∨ template lon = None ∨ js_string tempUnit = None →
  Weather.forecast_url lat lon tempUnit = None.
Proof.
  unfold Weather.forecast_url.
  intros [->|[->| ->]]; [done| |]; destruct (template lat); cbn; [done..| |done].
  by destruct (template lon).
Qed.

(** What the template literals make of the arguments: a missing one is
    [undefined], a number is printed, an array is joined, an object is
    ["[object Object]"], and an object with a member [toString] throws. *)
Example forecast_url_arguments :
  Weather.forecast_url None (Some JNull) (JStr "celsius")
  = Some (request_text "undefined" "null" "celsius")
  ∧ Weather.forecast_url (Some (JNum "33.2148")) (Some (JNum "-97.1331"))
      (JStr "fahrenheit")
    = Some (request_text "33.2148" "-97.1331" "fahrenheit")
  ∧ (lat ← JSON.parse "33.50";
     lon ← JSON.parse "1e21";
     unit ← JSON.parse "true";
     Weather.forecast_url (Some lat) (Some lon) unit)
    = Some (request_text "33.5" "1e+21" "true")
  ∧ Weather.forecast_url (Some (JStr "north"))
      (Some (JArr [JNum "1"; JNull; JArr [JStr "a"; JBool false]]))
      (JObj [("unit", JStr "celsius")])
    = Some (request_text "north" "1,,a,false" "[object Object]")
  ∧ Weather.forecast_url (Some (JObj [("toString", JNum "1")])) None
      (JStr "celsius")
    = None
  ∧ Weather.forecast_url None (Some (JArr [JObj [("toString", JNull)]]))
      (JStr "celsius")
    = None
  ∧ to_string (JNum "1.0") = "1"
  ∧ to_string (JNum "0.000000100") = "1e-7"
  ∧ to_string (JBool false) = "false".
Proof. split_and!; vm_compute; reflexivity. Qed.

Lemma renderWeather_refetch net now now' (s : Store) :
  Weather.is_fresh now (setting_value "weatherCache" JNull s) = Some false →
  let r := UI.renderWeather true net now now' s in
  match weather_url s with
  | None => store_of r = s ∧ log_of r = []
  | Some url =>
      match net url with
      | Some data =>
          store_of r
          = store_of (Storage.setSetting "weatherCache"
                        (Weather.cache_entry data now') s)
          ∧ log_of r
            = [EvFetch url;
               EvSetItem "wardrobe_weatherCache"
                         (JSON.stringify (Weather.cache_entry data now'))]
      | None => store_of r = s ∧ log_of r = [EvFetch url]
      end
  end.
Proof.
  intros Hstale. cbv zeta.
  unfold UI.renderWeather. cbn [negb]. unfold UI.try_catch.
  rewrite (bind_done _ _ _ _ _ _ (getLocation_run s)).
  fold (weather_location s).
  pose proof (fetchWeather_refetch net now now'
                (Weather.get_field "lat" (weather_location s))
                (Weather.get_field "lon" (weather_location s)) s Hstale)
    as Hfetch.
  cbv zeta in Hfetch.
  change (Weather.forecast_url _ _ _) with (weather_url s) in Hfetch.
  destruct (weather_url s) as [url|].
  - destruct (net url) as [data|].
    + rewrite (bind_done _ _ _ _ _ _ Hfetch).
      destruct (Some data ≫= Weather.get_field "current") as [current|];
        [destruct (truthy current)|]; split; reflexivity.
    + destruct (truthy (setting_value "weatherCache" JNull s)) eqn:Ht.
      * rewrite (bind_done _ _ _ _ _ _ Hfetch).
        destruct (_ ≫= Weather.get_field "current") as [current|];
          [destruct (truthy current)|]; split; reflexivity.
      * unfold mbind, M_MBind, M_bind. rewrite Hfetch. split; reflexivity.
  - unfold mbind, M_MBind, M_bind. rewrite Hfetch. split; reflexivity.
Qed.

(** X13. [refreshWeather] discards the cached forecast before it
    renders: however fresh the cache was, one request is issued;
    a forecast that arrives is cached, and when the request fails, or
    cannot be written because a template literal throws, the cache
    holds [null], so that a later [fetchWeather] with the network still
    down throws instead of serving the forecast that was cached before. *)
Theorem refreshWeather_discards_cache
    (net : string → option JsVal) (now now' : Z) (s : Store) :
  let r := App.refreshWeather true net now now' s in
  let later_throws :=
    ∀ net2 t t' lat lon,
      (∀ u, net2 u = None) →
      result_of (Weather.fetchWeather net2 t t' lat lon (store_of r))
      = Thrown (match Weather.forecast_url lat lon
                        (setting_value "tempUnit" (JStr "fahrenheit") s) with
                | Some _ => "Weather API error"
                | None => "TypeError"
                end) in
  match weather_url s with
  | Some url =>
      (∀ data, net url = Some data →
         localStorage (store_of r) !! "wardrobe_weatherCache"
         = Some (JSON.stringify (Weather.cache_entry data now'))
         ∧ log_of r
           = [EvSetItem "wardrobe_weatherCache" "null"; EvFetch url;
              EvSetItem "wardrobe_weatherCache"
                        (JSON.stringify (Weather.cache_entry data now'))])
      ∧ (net url = None →
         localStorage (store_of r) !! "wardrobe_weatherCache" = Some "null"
         ∧ log_of r = [EvSetItem "wardrobe_weatherCache" "null"; EvFetch url]
         ∧ later_throws)
  | None =>
      localStorage (store_of r) !! "wardrobe_weatherCache" = Some "null"
      ∧ log_of r = [EvSetItem "wardrobe_weatherCache" "null"]
      ∧ later_throws
  end.
Proof.
  cbv zeta. unfold App.refreshWeather.
  set (s1 := store_of (Storage.setSetting "weatherCache" JNull s)).
  assert (Hset : Storage.setSetting "weatherCache" JNull s
                 = (Done tt, s1, [EvSetItem "wardrobe_weatherCache" "null"]))
    by reflexivity.
  assert (Hnull : setting_value "weatherCache" JNull s1 = JNull).
  { subst s1. rewrite setting_value_same. vm_compute. reflexivity. }
  assert (Hunit : setting_value "tempUnit" (JStr "fahrenheit") s1
                  = setting_value "tempUnit" (JStr "fahrenheit") s).
  { subst s1. by rewrite setting_value_other by discriminate. }
  assert (Hurl : weather_url s1 = weather_url s).
  { unfold weather_url, weather_location. subst s1.
    by rewrite !setting_value_other by discriminate. }
  assert (Hstale : ∀ t, Weather.is_fresh t (setting_value "weatherCache" JNull s1)
                        = Some false)
    by (intros; by rewrite Hnull).
  assert (Hlater : ∀ net2 t t' lat lon,
            (∀ u, net2 u = None) →
            result_of (Weather.fetchWeather net2 t t' lat lon s1)
            = Thrown (match Weather.forecast_url lat lon
                              (setting_value "tempUnit" (JStr "fahrenheit") s) with
                      | Some _ => "Weather API error"
                      | None => "TypeError"
                      end)).
  { intros net2 t t' lat lon Hdown.
    rewrite fetchWeather_refetch by apply Hstale. cbv zeta.
    rewrite Hnull, Hunit.
    destruct (Weather.forecast_url _ _ _) as [u|]; [|done].
    by rewrite Hdown. }
  pose proof (renderWeather_refetch net now now' s1 (Hstale _))
    as Hrender.
  cbv zeta in Hrender. rewrite Hurl in Hrender.
  unfold mbind, M_MBind, M_bind. rewrite Hset.
  destruct (UI.renderWeather true net now now' s1)
    as [[r s2] l2] eqn:Hr.
  unfold store_of, log_of in *. cbn [fst snd] in *.
  destruct (weather_url s) as [url|].
  - split.
    + intros data Hnet. rewrite Hnet in Hrender. destruct Hrender as [-> ->].
      split; [|done]. rewrite setSetting_run. cbn. apply lookup_insert_eq.
    + intros Hnet. rewrite Hnet in Hrender. destruct Hrender as [-> ->].
      split_and!; [|done|done].
      subst s1. rewrite setSetting_run. cbn. apply lookup_insert_eq.
  - destruct Hrender as [-> ->].
    split_and!; [|done|done].
    subst s1. rewrite setSetting_run. cbn. apply lookup_insert_eq.
Qed.

(** X14. [saveSettings] stores the trimmed name (['Emily'] when it is
    empty) and the unit, discards the cached forecast, and the request it
    then issues asks for the unit just chosen, at the location the store
    had: its text is the address of the service with the latitude and
    longitude of that location and the unit, and without a stored location
    the latitude is 33.2148 and the longitude -97.1331.  Only when the
    latitude or the longitude cannot be written is there no request. *)
Theorem saveSettings_refetches_in_new_unit
    (trim : string → string) (name unit : string)
    (net : string → option JsVal) (now now' : Z) (s : Store) :
  JSON.parse unit = None →
  let r := App.saveSettings trim name unit true net now now' s in
  let location :=
    if truthy (setting_value "location" JNull s)
    then setting_value "location" JNull s
    else Weather.DEFAULT_LOCATION in
  let settings :=
    [EvSetItem "wardrobe_userName"
               (if decide (trim name = "") then "Emily" else trim name);
     EvSetItem "wardrobe_tempUnit" unit;
     EvSetItem "wardrobe_weatherCache" "null"] in
  (∀ la lo,
     template (Weather.get_field "lat" location) = Some la →
     template (Weather.get_field "lon" location) = Some lo →
     ∃ rest,
       log_of r
       = settings ++
         [EvFetch
            ("https://api.open-meteo.com/v1/forecast?latitude=" +:+ la +:+
             "&longitude=" +:+ lo +:+
             "&current=temperature_2m,relative_humidity_2m,apparent_temperature,precipitation,weather_code,wind_speed_10m&daily=temperature_2m_max,temperature_2m_min,precipitation_probability_max,weather_code&temperature_unit=" +:+
             unit +:+
             "&wind_speed_unit=mph&precipitation_unit=inch&timezone=auto&forecast_days=7")]
         ++ rest)
  ∧ (truthy (setting_value "location" JNull s) = false →
     template (Weather.get_field "lat" location) = Some "33.2148"
     ∧ template (Weather.get_field "lon" location) = Some "-97.1331")
  ∧ (template (Weather.get_field "lat" location) = None
     ∨ template (Weather.get_field "lon" location) = None →
     log_of r = settings).
Proof.
  intros Hunit. cbv zeta. unfold App.saveSettings.
  set (n := or_string (Some (trim name)) "Emily").
  set (s1 := store_of (Storage.setSetting "userName" (JStr n) s)).
  set (s2 := store_of (Storage.setSetting "tempUnit" (JStr unit) s1)).
  set (s3 := store_of (Storage.setSetting "weatherCache" JNull s2)).
  assert (Hnull : setting_value "weatherCache" JNull s3 = JNull).
  { subst s3. rewrite setting_value_same. vm_compute. reflexivity. }
  assert (Hurl : weather_url s3
                 = Weather.forecast_url
                     (Weather.get_field "lat" (weather_location s))
                     (Weather.get_field "lon" (weather_location s))
                     (JStr unit)).
  { unfold weather_url, weather_location. subst s3 s2 s1.
    rewrite !(setting_value_other "location") by discriminate.
    rewrite (setting_value_other "tempUnit" "weatherCache") by discriminate.
    rewrite setting_value_same.
    change (setting_text (JStr unit)) with unit.
    by rewrite Hunit. }
  assert (Hstale : Weather.is_fresh now (setting_value "weatherCache" JNull s3)
                   = Some false)
    by (by rewrite Hnull).
  pose proof (renderWeather_refetch net now now' s3 Hstale) as Hrender.
  cbv zeta in Hrender. rewrite Hurl in Hrender.
  assert (Hsets :
    (Storage.setSetting "userName" (JStr n);;
     Storage.setSetting "tempUnit" (JStr unit);;
     Storage.setSetting "weatherCache" JNull;;
     UI.renderWeather true net now now') s
    = let '(r, s4, l) := UI.renderWeather true net now now' s3 in
      (r, s4, [EvSetItem "wardrobe_userName" n;
               EvSetItem "wardrobe_tempUnit" unit;
               EvSetItem "wardrobe_weatherCache" "null"] ++ l)).
  { unfold mbind, M_MBind, M_bind. rewrite !setSetting_run.
    change (UI.renderWeather true net now now' _)
      with (UI.renderWeather true net now now' s3).
    by destruct (UI.renderWeather true net now now' s3)
      as [[r s4] l]. }
  rewrite Hsets. clear Hsets.
  destruct (UI.renderWeather true net now now' s3)
    as [[r s4] l] eqn:Hr.
  unfold log_of, store_of in *. cbn [fst snd] in *.
  assert (Hn : n = if decide (trim name = "") then "Emily" else trim name)
    by reflexivity.
  rewrite <- Hn. fold (weather_location s). split_and!.
  - intros la lo Hla Hlo.
    rewrite (forecast_url_text _ _ (JStr unit) la lo unit Hla Hlo eq_refl)
      in Hrender.
    change (request_text la lo unit) with
      ("https://api.open-meteo.com/v1/forecast?latitude=" +:+ la +:+
       "&longitude=" +:+ lo +:+
       "&current=temperature_2m,relative_humidity_2m,apparent_temperature,precipitation,weather_code,wind_speed_10m&daily=temperature_2m_max,temperature_2m_min,precipitation_probability_max,weather_code&temperature_unit=" +:+
       unit +:+
       "&wind_speed_unit=mph&precipitation_unit=inch&timezone=auto&forecast_days=7")
      in Hrender.
    destruct (net _) as [data|]; destruct Hrender as [_ ->];
      eexists; cbn [app]; reflexivity.
  - intros Hloc. unfold weather_location. rewrite Hloc.
    split; vm_compute; reflexivity.
  - intros Hnone.
    rewrite forecast_url_none in Hrender by tauto.
    destruct Hrender as [_ ->]. reflexivity.
Qed.

Lemma saveSettings_refetches_in_new_unit_witness :
  ∃ rest,
    log_of (App.saveSettings (λ x, x) "Emily" "celsius" true network_down
              1000000 1000050 empty_store)
    = [EvSetItem "wardrobe_userName" "Emily";
       EvSetItem "wardrobe_tempUnit" "celsius";
       EvSetItem "wardrobe_weatherCache" "null"] ++
      [EvFetch
         ("https://api.open-meteo.com/v1/forecast?latitude=33.2148&longitude=-97.1331&current=temperature_2m,relative_humidity_2m,apparent_temperature,precipitation,weather_code,wind_speed_10m&daily=temperature_2m_max,temperature_2m_min,precipitation_probability_max,weather_code&temperature_unit=celsius&wind_speed_unit=mph&precipitation_unit=inch&timezone=auto&forecast_days=7")]
      ++ rest.
Proof.
  destruct (saveSettings_refetches_in_new_unit (λ x, x) "Emily" "celsius"
              network_down 1000000 1000050 empty_store eq_refl)
    as [Hrequest [Hdefault _]].
  destruct (Hdefault eq_refl) as [Hlat Hlon].
  exact (Hrequest "33.2148" "-97.1331" Hlat Hlon).
Defined.

(** ** The first run *)

Lemma restore_settings_other (st : option DocSettings)
    (ls : gmap string string) (k : string) :
  k ∉ ["wardrobe_userName"; "wardrobe_theme"; "wardrobe_location";
       "wardrobe_tempUnit"] →
  restore_settings st ls !! k = ls !! k.
Proof.
  intros Hk. destruct st as [st|]; [|done].
  unfold restore_settings, restore_setting.
  assert (Hne : ∀ key v (m : gmap string string),
            "wardrobe_" +:+ key
              ∈ ["wardrobe_userName"; "wardrobe_theme"; "wardrobe_location";
                 "wardrobe_tempUnit"] →
            (if truthy v then <["wardrobe_" +:+ key := setting_text v]> m else m)
              !! k = m !! k).
  { intros key v m Hin. destruct (truthy v); [|done].
    apply lookup_insert_ne. intros <-. done. }
  rewrite !Hne; [done|simpl; repeat constructor..].
Qed.

(** X15. Once the welcome dialog is completed the application is no longer
    on its first run, and neither clearing all data nor importing a backup,
    accepted or refused, makes it a first run again: both leave the
    [wardrobe_migrated] mark. *)
Theorem first_run_ends_with_welcome
    (trim : string → string) (name now : string) (s : Store)
    (data : option Document) :
  let s1 := store_of (App.completeWelcome trim name now s) in
  result_of (Storage.isFirstRun s1) = Done false
  ∧ localStorage s1 !! "wardrobe_migratedDate" = Some now
  ∧ result_of (Storage.isFirstRun (store_of (Storage.clearAllData s1))) = Done false
  ∧ result_of (Storage.isFirstRun (store_of (Storage.importAllData data s1)))
    = Done false.
Proof.
  cbv zeta.
  set (s1 := store_of (App.completeWelcome trim name now s)).
  assert (Hmark : localStorage s1 !! "wardrobe_migrated" = Some "true").
  { subst s1. unfold App.completeWelcome, Storage.setMigrated. run_M.
    rewrite lookup_insert_ne by discriminate. apply lookup_insert_eq. }
  assert (Hfirst : ∀ s', localStorage s' !! "wardrobe_migrated" = Some "true" →
                         result_of (Storage.isFirstRun s') = Done false).
  { intros s' Hs'. unfold Storage.isFirstRun, reads, result_of. cbn [fst].
    by rewrite Hs'. }
  split_and!.
  - by apply Hfirst.
  - subst s1. unfold App.completeWelcome, Storage.setMigrated. run_M.
    apply lookup_insert_eq.
  - apply Hfirst. by rewrite clearAllData_run.
  - apply Hfirst. destruct data as [d|]; [|done].
    destruct (decide (version d = NumVersion 1)) as [Hv|Hv].
    + rewrite importAllData_accepts by done. unfold store_of. cbn.
      rewrite restore_settings_other; [done|]. intros H.
      repeat (apply elem_of_cons in H as [H|H]; [discriminate H|]).
      by apply elem_of_nil in H.
    + unfold Storage.importAllData. by rewrite bool_decide_eq_false_2.
Qed.

(** ** Thumbnails of planned and built outfits *)

(** The source of the image shown for a record: none for a missing image
    and for an empty one. *)
Definition image_src (s : Store) (i : Id) : option string :=
  match images s !! i with
  | Some d => if decide (d = "") then None else Some d
  | None => None
  end.

(** What [UI.item_thumbs] resolves or rejects with, as a function of the
    store. *)
Fixpoint thumbs (s : Store) (itemIds : list Id) : Outcome (list (Id * string)) :=
  match itemIds with
  | [] => Done []
  | itemId :: rest =>
      match rows (items s) !! itemId with
      | None => thumbs s rest
      | Some it =>
          match imageId it with
          | None => Thrown "DataError"
          | Some i =>
              match image_src s i with
              | None => thumbs s rest
              | Some src =>
                  match thumbs s rest with
                  | Done l => Done ((itemId, src) :: l)
                  | Thrown e => Thrown e
                  end
              end
          end
      end
  end.

Lemma item_thumbs_run (itemIds : list Id) (s : Store) :
  UI.item_thumbs itemIds s = (thumbs s itemIds, s, []).
Proof.
  induction itemIds as [|itemId rest IH]; [done|].
  cbn [UI.item_thumbs thumbs].
  unfold mbind, M_MBind, M_bind, Storage.getItem, reads, UI.image_of,
    Storage.getImage, throw, image_src.
  destruct (rows (items s) !! itemId) as [it|]; [|by rewrite IH].
  destruct (imageId it) as [i|]; [|done].
  unfold reads.
  destruct (images s !! i) as [d|]; [|by rewrite IH].
  destruct (decide (d = "")); rewrite IH; [done|].
  by destruct (thumbs s rest).
Qed.

Lemma item_thumbs_cons (itemId : Id) (rest : list Id) (s : Store) :
  result_of (UI.item_thumbs (itemId :: rest) s) =
  match rows (items s) !! itemId with
  | None => result_of (UI.item_thumbs rest s)
  | Some it =>
      match imageId it with
      | None => Thrown "DataError"
      | Some i =>
          match image_src s i with
          | None => result_of (UI.item_thumbs rest s)
          | Some src =>
              match result_of (UI.item_thumbs rest s) with
              | Done thumbs => Done ((itemId, src) :: thumbs)
              | Thrown e => Thrown e
              end
          end
      end
  end.
Proof. by rewrite !item_thumbs_run. Qed.

Lemma item_thumbs_agree (itemIds : list Id) (s s' : Store) :
  images s' = images s →
  (∀ k, k ∈ itemIds →
        imageId <$> rows (items s') !! k = imageId <$> rows (items s) !! k) →
  result_of (UI.item_thumbs itemIds s') = result_of (UI.item_thumbs itemIds s).
Proof.
  intros Himg. induction itemIds as [|itemId rest IH]; intros Hrows; [done|].
  rewrite !item_thumbs_cons. unfold image_src. rewrite Himg.
  rewrite IH by (intros k Hk; apply Hrows; by right).
  specialize (Hrows itemId (ltac:(by left))).
  destruct (rows (items s') !! itemId) as [it'|],
           (rows (items s) !! itemId) as [it|]; try done.
  injection Hrows as Heq. by rewrite Heq.
Qed.

Lemma item_thumbs_skip (itemIds : list Id) (k : Id) (s : Store) :
  rows (items s) !! k = None →
  result_of (UI.item_thumbs itemIds s)
  = result_of (UI.item_thumbs (filter (λ id, id ≠ k) itemIds) s).
Proof.
  intros Hk. induction itemIds as [|itemId rest IH]; [done|].
  destruct (decide (itemId = k)) as [->|Hne].
  - rewrite filter_cons_False by (intros H; by apply H).
    by rewrite item_thumbs_cons, Hk.
  - rewrite filter_cons_True by done.
    rewrite !item_thumbs_cons. by rewrite IH.
Qed.

(** X16. Deleting an item leaves the weekly plan and the saved outfits as
    they are, with its id in them; the thumbnails of the planner and of the
    builder canvas skip it, so a list of ids renders as the list without
    that id did; and once the item is restored the list renders as it did
    before the deletion. *)
Theorem thumbnails_follow_the_trash
    (now : string) (k : Id) (it : Item) (itemIds : list Id) (s : Store) :
  rows (items s) !! k = Some it →
  let s1 := store_of (App.deleteItem now k s) in
  let s2 := store_of (App.restoreItem k s1) in
  weeklyPlan s1 = weeklyPlan s ∧ savedOutfits s1 = savedOutfits s
  ∧ result_of (UI.item_thumbs itemIds s1)
    = result_of (UI.item_thumbs (filter (λ id, id ≠ k) itemIds) s)
  ∧ weeklyPlan s2 = weeklyPlan s ∧ savedOutfits s2 = savedOutfits s
  ∧ result_of (UI.item_thumbs itemIds s2) = result_of (UI.item_thumbs itemIds s).
Proof.
  intros Hk. cbv zeta.
  rewrite (deleteItem_found now k s it Hk).
  set (s1 := set_items (table_delete k (items s))
               (set_trash (<[k := trashed now it]> (trash s)) s)).
  change (store_of (Done tt, s1, ?l)) with s1.
  assert (Htrash : trash s1 !! k = Some (trashed now it))
    by apply lookup_insert_eq.
  rewrite (restoreItem_found k s1 _ Htrash).
  set (s2 := set_items _ _).
  change (store_of (Done tt, s2, ?l)) with s2.
  split_and!; try done.
  - rewrite (item_thumbs_skip itemIds k s1) by apply lookup_delete_eq.
    apply item_thumbs_agree; [done|].
    intros k' [Hne _]%list_elem_of_filter.
    subst s1. cbn. by rewrite lookup_delete_ne.
  - apply item_thumbs_agree; [done|].
    intros k' _. subst s2 s1. cbn.
    destruct (decide (k' = k)) as [->|Hne].
    + by rewrite lookup_insert_eq, Hk.
    + by rewrite lookup_insert_ne, lookup_delete_ne.
Qed.

Lemma thumbnails_follow_the_trash_witness :
  let s1 := store_of (App.deleteItem "2024-02-02T00:00:00.000Z" 1%positive top_store) in
  result_of (UI.item_thumbs [1%positive; 2%positive; 1%positive] s1)
  = result_of (UI.item_thumbs [2%positive] top_store).
Proof.
  exact (proj1 (proj2 (proj2
    (thumbnails_follow_the_trash "2024-02-02T00:00:00.000Z" 1%positive top_item
       [1%positive; 2%positive; 1%positive] top_store eq_refl)))).
Defined.

(** ** Uploads *)

Lemma upload_loop_cons (c : string) (u : App.Upload) (rest : list App.Upload)
    (s : Store) :
  store_of (for_each (u :: rest) (App.upload_item c) s)
  = store_of (for_each rest (App.upload_item c) (uploaded c u s)).
Proof.
  simpl. rewrite (bind_done _ _ _ _ _ _ (upload_item_run c u s)).
  by destruct (for_each rest (App.upload_item c) (uploaded c u s)) as [[r s'] l].
Qed.

Lemma upload_loop_keygen (c : string) (images : list App.Upload) (s : Store) :
  keygen (items (store_of (for_each images (App.upload_item c) s)))
  = Nat.iter (List.length images) Pos.succ (keygen (items s)).
Proof.
  revert s. induction images as [|u rest IH]; intros s; [done|].
  rewrite upload_loop_cons, IH. cbn [List.length].
  by rewrite Nat.iter_succ_r.
Qed.

Lemma upload_loop_below (c : string) (images : list App.Upload) (s : Store) (k : Id) :
  (k < keygen (items s))%positive →
  rows (items (store_of (for_each images (App.upload_item c) s))) !! k
  = rows (items s) !! k.
Proof.
  revert s. induction images as [|u rest IH]; intros s Hk; [done|].
  rewrite upload_loop_cons, IH by (cbn; lia).
  cbn. apply lookup_insert_ne. lia.
Qed.

Lemma upload_loop_rest (c : string) (images : list App.Upload) (s : Store) :
  let s' := store_of (for_each images (App.upload_item c) s) in
  weeklyPlan s' = weeklyPlan s ∧ savedOutfits s' = savedOutfits s
  ∧ customSections s' = customSections s ∧ shoppingList s' = shoppingList s
  ∧ trash s' = trash s ∧ localStorage s' = localStorage s.
Proof.
  revert s. induction images as [|u rest IH]; intros s; [done|].
  cbv zeta. rewrite upload_loop_cons. apply (IH (uploaded c u s)).
Qed.

Lemma upload_loop_image (c : string) (uploads : list App.Upload) (s : Store)
    (u : App.Upload) :
  NoDup (App.up_imageId <$> uploads) →
  u ∈ uploads →
  images (store_of (for_each uploads (App.upload_item c) s)) !! App.up_imageId u
  = Some (App.up_base64 u).
Proof.
  assert (Hkeep : ∀ l s0 i, i ∉ App.up_imageId <$> l →
            images (store_of (for_each l (App.upload_item c) s0)) !! i
            = images s0 !! i).
  { induction l as [|x l IH]; intros s0 i Hi; [done|].
    rewrite fmap_cons in Hi. apply not_elem_of_cons in Hi as [Hne Hi].
    rewrite upload_loop_cons, IH by done. cbn. by apply lookup_insert_ne. }
  revert s. induction uploads as [|x rest IH]; intros s Hnd Hu.
  - by apply elem_of_nil in Hu.
  - rewrite fmap_cons in Hnd. apply NoDup_cons in Hnd as [Hx Hnd].
    rewrite upload_loop_cons.
    apply elem_of_cons in Hu as [->|Hu].
    + rewrite Hkeep by done. cbn. apply lookup_insert_eq.
    + by apply IH.
Qed.

Lemma upload_loop_rows (c : string) (uploads : list App.Upload) (s : Store)
    (j : nat) (u : App.Upload) :
  uploads !! j = Some u →
  rows (items (store_of (for_each uploads (App.upload_item c) s)))
    !! Nat.iter j Pos.succ (keygen (items s))
  = Some (mkItem (Some (App.up_imageId u)) c false false None (App.up_date u)
                 None None).
Proof.
  revert s j. induction uploads as [|x rest IH]; intros s j Hj; [done|].
  rewrite upload_loop_cons. destruct j as [|j].
  - injection Hj as ->. rewrite upload_loop_below by (cbn; lia).
    cbn. apply lookup_insert_eq.
  - rewrite Nat.iter_succ_r. by apply (IH (uploaded c x s)).
Qed.

(** X17. [processUpload] adds one item per selected photo, in their order,
    under consecutive new keys starting at the key generator of the items:
    each in the chosen category, neither favorite nor in the laundry, with
    the id of its image; when the image ids are distinct each image is
    stored under its id.  The items that were there and every other store
    stay as they were.  [handleBuilderUpload] does the same with the
    category ['other']. *)
Theorem processUpload_adds_one_item_per_photo
    (c : string) (uploads : list App.Upload) (s : Store) :
  let s' := store_of (App.processUpload c uploads s) in
  keygen (items s') = Nat.iter (List.length uploads) Pos.succ (keygen (items s))
  ∧ (∀ j u, uploads !! j = Some u →
       rows (items s') !! Nat.iter j Pos.succ (keygen (items s))
       = Some (mkItem (Some (App.up_imageId u)) c false false None
                      (App.up_date u) None None))
  ∧ (∀ k, (k < keygen (items s))%positive →
       rows (items s') !! k = rows (items s) !! k)
  ∧ (NoDup (App.up_imageId <$> uploads) →
     ∀ u, u ∈ uploads → images s' !! App.up_imageId u = Some (App.up_base64 u))
  ∧ weeklyPlan s' = weeklyPlan s ∧ savedOutfits s' = savedOutfits s
  ∧ customSections s' = customSections s ∧ shoppingList s' = shoppingList s
  ∧ trash s' = trash s ∧ localStorage s' = localStorage s
  ∧ App.handleBuilderUpload uploads s = App.processUpload "other" uploads s.
Proof.
  cbv zeta.
  assert (Hloop : ∀ c', App.processUpload c' uploads s
                        = for_each uploads (App.upload_item c') s).
  { intros c'. unfold App.processUpload.
    by destruct (decide (uploads = [])) as [->|]. }
  rewrite !Hloop.
  pose proof (upload_loop_rest c uploads s) as (?&?&?&?&?&?).
  split_and!; try done.
  - apply upload_loop_keygen.
  - intros j u. apply upload_loop_rows.
  - intros k. apply upload_loop_below.
  - intros Hnd u. by apply upload_loop_image.
Qed.

(** ** A new section and its items *)

Lemma createNewSection_run (trim : string → string) (name : string) (s : Store) :
  App.createNewSection trim name s =
  if decide (trim name = "") then (Done tt, s, [])
  else
    (Done tt,
     set_customSections
       (mkTable (<[keygen (customSections s) := mkSection (trim name)]>
                   (rows (customSections s)))
                (Pos.succ (keygen (customSections s)))) s,
     [EvPut "customSections" (KId (keygen (customSections s)))]).
Proof. unfold App.createNewSection. by destruct (decide _). Qed.

(** X18. A section created with a name that is not blank gets the next key
    of the custom sections; its category is then offered by the move and
    upload selects, and an item moved to it through the move modal is among
    the items [renderWardrobe] renders into the grid of the section, and
    the modal is closed. *)
Theorem new_section_shows_moved_item
    (trim : string → string) (name : string) (id : Id) (it : Item) (s : Store) :
  trim name ≠ "" →
  rows (items s) !! id = Some it →
  UI.not_deleted it = true →
  let k := keygen (customSections s) in
  let s1 := store_of (App.createNewSection trim name s) in
  let moved := App.moveItemToCategory (Some id) (custom_category k) s1 in
  rows (customSections s1) !! k = Some (mkSection (trim name))
  ∧ custom_category k ∈ UI.category_options (get_all (rows (customSections s1)))
  ∧ result_of moved = Done None
  ∧ ∃ grids shown,
      result_of (UI.category_grids (store_of moved)) = Done grids
      ∧ (custom_category k +:+ "-grid", shown) ∈ grids
      ∧ (id, set_category (custom_category k) it) ∈ shown.
Proof.
  intros Hname Hid Hactive. cbv zeta.
  rewrite createNewSection_run, decide_False by done.
  set (k := keygen (customSections s)).
  set (s1 := set_customSections _ s).
  change (store_of (Done tt, s1, ?l)) with s1.
  assert (Hk : rows (customSections s1) !! k = Some (mkSection (trim name)))
    by apply lookup_insert_eq.
  assert (Hmoved : App.moveItemToCategory (Some id) (custom_category k) s1
                   = (Done None,
                      set_items
                        (mkTable (<[id := set_category (custom_category k) it]>
                                    (rows (items s1)))
                                 (Pos.max (keygen (items s1)) (Pos.succ id))) s1,
                      [EvPut "items" (KId id)])).
  { assert (Hid1 : rows (items s1) !! id = Some it) by exact Hid.
    unfold App.moveItemToCategory, Storage.getItem.
    unfold mbind, M_MBind, M_bind, reads. by rewrite Hid1. }
  rewrite Hmoved. unfold result_of, store_of. cbn [fst snd].
  split_and!; [done| |done|].
  - unfold UI.category_options. apply elem_of_app. right.
    apply list_elem_of_fmap. exists (k, mkSection (trim name)).
    split; [done|]. by apply elem_of_get_all.
  - eexists _, _. split; [reflexivity|]. split.
    + apply elem_of_app. right.
      apply list_elem_of_fmap. exists (k, mkSection (trim name)).
      split; [reflexivity|]. by apply elem_of_get_all.
    + apply list_elem_of_filter. split.
      * split; [done|]. by destruct it.
      * apply elem_of_get_all. cbn. apply lookup_insert_eq.
Qed.

Lemma new_section_shows_moved_item_witness :
  let s1 := store_of (App.createNewSection (λ x, x) "Scarves" top_store) in
  let moved := App.moveItemToCategory (Some 1%positive)
                 (custom_category 1%positive) s1 in
  rows (customSections s1) !! 1%positive = Some (mkSection "Scarves")
  ∧ custom_category 1%positive
      ∈ UI.category_options (get_all (rows (customSections s1)))
  ∧ result_of moved = Done None
  ∧ ∃ grids shown,
      result_of (UI.category_grids (store_of moved)) = Done grids
      ∧ (custom_category 1%positive +:+ "-grid", shown) ∈ grids
      ∧ (1%positive, set_category (custom_category 1%positive) top_item) ∈ shown.
Proof.
  refine (new_section_shows_moved_item (λ x, x) "Scarves" 1%positive top_item
            top_store _ eq_refl eq_refl).
  discriminate.
Defined.

(** ** Names *)

(** The calls that create, rename and delete custom sections and shopping
    items; [trim] is [String.prototype.trim]. *)
Inductive NameCall :=
  | CallCreateNewSection (name : string)
  | CallEditSectionTitle (sectionId : Id) (answer : option string)
  | CallDeleteSection (confirmed : bool) (sectionId : Id)
  | CallAddShoppingItem (name desc price : string) (preview : option string)
                        (now : Id)
  | CallDeleteShoppingItem (itemId : Id).

Definition run_name_call (trim : string → string) (s : Store) (c : NameCall)
  : Store :=
  match c with
  | CallCreateNewSection name => store_of (App.createNewSection trim name s)
  | CallEditSectionTitle sectionId answer =>
      store_of (App.editSectionTitle trim sectionId answer s)
  | CallDeleteSection confirmed sectionId =>
      store_of (App.deleteSection confirmed sectionId s)
  | CallAddShoppingItem name desc price preview now =>
      store_of (App.addShoppingItem trim name desc price preview now s)
  | CallDeleteShoppingItem itemId => store_of (App.deleteShoppingItem itemId s)
  end.

(** Every custom section and every shopping item has a name. *)
Definition named (s : Store) : Prop :=
  (∀ k c, rows (customSections s) !! k = Some c → sname c ≠ "")
  ∧ (∀ k x, rows (shoppingList s) !! k = Some x → sh_name x ≠ "").

Lemma editSectionTitle_run (trim : string → string) (sectionId : Id)
    (answer : option string) (s : Store) :
  App.editSectionTitle trim sectionId answer s =
  match rows (customSections s) !! sectionId, answer with
  | Some _, Some newName =>
      if decide (newName = "") then (Done tt, s, [])
      else if decide (trim newName = "") then (Done tt, s, [])
      else
        (Done tt,
         set_customSections
           (mkTable (<[sectionId := mkSection (trim newName)]>
                       (rows (customSections s)))
                    (Pos.max (keygen (customSections s)) (Pos.succ sectionId))) s,
         [EvPut "customSections" (KId sectionId)])
  | _, _ => (Done tt, s, [])
  end.
Proof.
  unfold App.editSectionTitle, Storage.getAllCustomSections. run_M.
  rewrite find_get_all.
  destruct (rows (customSections s) !! sectionId) as [c|]; [|done]. simpl.
  destruct answer as [newName|]; [|done]. simpl.
  destruct (decide (newName = "")); [done|]. simpl.
  by destruct (decide (trim newName = "")).
Qed.

Lemma run_name_call_named (trim : string → string) (s : Store) (c : NameCall) :
  named s → named (run_name_call trim s c).
Proof.
  intros [Hsec Hshop].
  destruct c as [name|sectionId answer|confirmed sectionId
                |name desc price preview now|itemId]; cbn [run_name_call].
  - rewrite createNewSection_run.
    destruct (decide (trim name = "")); [done|].
    split; [|done]. intros k sec. cbn. rewrite lookup_insert.
    destruct (decide _); [by intros [= <-]|apply Hsec].
  - rewrite editSectionTitle_run.
    destruct (rows (customSections s) !! sectionId); [|done].
    destruct answer as [newName|]; [|done].
    destruct (decide (newName = "")); [done|].
    destruct (decide (trim newName = "")); [done|].
    split; [|done]. intros k sec. cbn. rewrite lookup_insert.
    destruct (decide _); [by intros [= <-]|apply Hsec].
  - destruct confirmed; [|done]. rewrite deleteSection_run.
    split; [|done]. intros k sec. unfold store_of. cbn.
    destruct (decide (k = sectionId)) as [->|Hne];
      [by rewrite lookup_delete_eq|].
    rewrite lookup_delete_ne by done. apply Hsec.
  - unfold App.addShoppingItem.
    destruct (decide (trim name = "")); [done|].
    split.
    + intros k sec. destruct (truthy_string preview); apply Hsec.
    + intros k x.
      destruct (truthy_string preview); run_M; rewrite lookup_insert;
        (destruct (decide _); [by intros [= <-]|apply Hshop]).
  - split; [done|]. intros k x. unfold store_of. cbn.
    destruct (decide (k = itemId)) as [->|Hne];
      [by rewrite lookup_delete_eq|].
    rewrite lookup_delete_ne by done. apply Hshop.
Qed.

(** X19. No custom section and no shopping item is ever stored without a
    name: a blank name is refused by [createNewSection] and by
    [addShoppingItem], a blank or cancelled answer leaves the title of a
    section as it is, and the names stored are trimmed. *)
Theorem names_are_never_blank
    (trim : string → string) (calls : list NameCall) (s : Store) :
  named s → named (foldl (run_name_call trim) s calls).
Proof.
  revert s. induction calls as [|c calls IH]; intros s Hs; [done|].
  simpl. by apply IH, run_name_call_named.
Qed.

Lemma names_are_never_blank_witness :
  named (foldl (run_name_call (λ x, x)) empty_store
           [CallCreateNewSection ""; CallCreateNewSection "Scarves";
            CallEditSectionTitle 1 (Some ""); CallEditSectionTitle 1 None;
            CallEditSectionTitle 1 (Some "Hats");
            CallAddShoppingItem "" "" "" None 1700000000000;
            CallAddShoppingItem "Boots" "" "$80" (Some "data:a") 1700000000000;
            CallDeleteSection true 1]%positive).
Proof.
  apply names_are_never_blank.
  split; intros k x Hk; cbn in Hk; by rewrite lookup_empty in Hk.
Defined.

(** ** The theme *)

(** X20. The theme chosen with [toggleTheme] is the one [loadTheme] applies
    when the application is loaded again; toggling twice gives back the
    attribute, and with no theme stored [loadTheme] applies the light
    one. *)
Theorem theme_survives_reload (isDark : bool) (s : Store) :
  let toggled := App.toggleTheme isDark s in
  result_of toggled = Done (negb isDark)
  ∧ result_of (App.loadTheme (store_of toggled)) = Done (negb isDark)
  ∧ result_of (App.toggleTheme (negb isDark) (store_of toggled)) = Done isDark
  ∧ result_of (App.loadTheme
                 (store_of (App.toggleTheme (negb isDark) (store_of toggled))))
    = Done isDark
  ∧ (localStorage s !! "wardrobe_theme" = None →
     result_of (App.loadTheme s) = Done false).
Proof.
  assert (Hload : ∀ v s0, JSON.parse v = None →
            result_of (App.loadTheme (store_of (Storage.setSetting "theme" (JStr v) s0)))
            = Done (bool_decide (v = "dark"))).
  { intros v s0 Hv. unfold App.loadTheme.
    rewrite (bind_done _ _ _ _ _ _ (getSetting_value _ _ _)).
    rewrite setting_value_same. change (setting_text (JStr v)) with v.
    by rewrite Hv. }
  cbv zeta. destruct isDark; cbn [negb]; split_and!; try done.
  - apply (Hload "light" s). vm_compute. reflexivity.
  - apply (Hload "dark"). vm_compute. reflexivity.
  - intros Hnone. unfold App.loadTheme.
    rewrite (bind_done _ _ _ _ _ _ (getSetting_value _ _ _)).
    unfold setting_value, Storage.getSetting, reads, result_of. cbn [fst].
    change ("wardrobe_" +:+ "theme") with "wardrobe_theme".
    by rewrite Hnone.
  - apply (Hload "dark" s). vm_compute. reflexivity.
  - apply (Hload "light"). vm_compute. reflexivity.
  - intros Hnone. unfold App.loadTheme.
    rewrite (bind_done _ _ _ _ _ _ (getSetting_value _ _ _)).
    unfold setting_value, Storage.getSetting, reads, result_of. cbn [fst].
    change ("wardrobe_" +:+ "theme") with "wardrobe_theme".
    by rewrite Hnone.
Qed.

(** ** The [deleted] flag *)

(** No active item is flagged as deleted, and every trash entry is. *)
Definition flagged (s : Store) : Prop :=
  (∀ k it, rows (items s) !! k = Some it → UI.not_deleted it = true)
  ∧ (∀ k it, trash s !! k = Some it → deleted it = Some true).

Lemma step_flagged (new : Store → Id → Prop) (s s' : Store) :
  step new s s' → flagged s → flagged s'.
Proof.
  intros Hstep [Hitems Htr]. unfold flagged.
  destruct Hstep as [id it it' Hit _ Hdel Hrows _ Htrash _ _
                    |id it it' Hit _ Hdel Hrows _ Htrash _ _
                    |id it it' Hit _ Hdel Hrows _ Htrash _ _
                    |i d it _ Hdel _ Hrows _ Htrash _ _
                    |Hrows _ Htrash _ _
                    |Hrows _ Htrash _];
    rewrite Hrows, Htrash; split; try done.
  - intros k x. rewrite lookup_insert.
    destruct (decide _) as [_|_]; [|apply Hitems].
    intros [= <-]. unfold UI.not_deleted. rewrite Hdel. by apply (Hitems id).
  - intros k x. rewrite lookup_delete.
    destruct (decide _); [done|apply Hitems].
  - intros k x. rewrite lookup_insert.
    destruct (decide _) as [_|_]; [by intros [= <-]|apply Htr].
  - intros k x. rewrite lookup_insert.
    destruct (decide _) as [_|_]; [|apply Hitems].
    intros [= <-]. unfold UI.not_deleted. by rewrite Hdel.
  - intros k x. rewrite lookup_delete.
    destruct (decide _); [done|apply Htr].
  - intros k x. rewrite lookup_insert.
    destruct (decide _) as [_|_]; [|apply Hitems].
    intros [= <-]. unfold UI.not_deleted. by rewrite Hdel.
Qed.

Lemma steps_flagged (new : Store → Id → Prop) (s s' : Store) :
  rtc (step new) s s' → flagged s → flagged s'.
Proof. induction 1; eauto using step_flagged. Qed.

(** X21. The [deleted] flag of a record tells where the record is: after
    any actions on the items, no active item is flagged as deleted, so the
    [!i.deleted] test of the rendering filters holds for every item of the
    items store, and every trash entry is flagged as deleted. *)
Theorem deleted_flag_matches_place (s : Store) (l : list ItemAction) :
  flagged s → flagged (run_actions s l).
Proof. apply steps_flagged with (λ _ _, True), run_actions_steps_any. Qed.

Lemma deleted_flag_matches_place_witness :
  flagged
    (run_actions empty_store
       [ActProcessUpload "tops"
          [App.mkUpload 7 "data:a" "2024-01-01T00:00:00.000Z"];
        ActDelete "2024-02-02T00:00:00.000Z" 1;
        ActDropRestore 1 "bottoms";
        ActDelete "2024-02-03T00:00:00.000Z" 1;
        ActRestore 1;
        ActToggleFavorite 1]%positive).
Proof.
  apply deleted_flag_matches_place.
  split; intros k it Hk; cbn in Hk; by rewrite lookup_empty in Hk.
Defined.

(** ** A fetched forecast is a cached forecast *)

Lemma cache_entry_timestamp (data : JsVal) (now : Z) :
  Weather.to_number (Weather.get_field "timestamp" (Weather.cache_entry data now))
  = Some (Exact now).
Proof.
  change (Weather.get_field "timestamp" (Weather.cache_entry data now))
    with (Some (JNum (NilZero.string_of_int (Z.to_int now)))).
  apply timestamp_reads_back.
Qed.

(** X22. When [fetchWeather] has to fetch and the request succeeds, the
    entry it stores makes every [fetchWeather] of the following 30 minutes
    a cache hit, provided the entry survives its JSON encoding: the later
    call returns the fetched forecast, issues no request and writes
    nothing, whatever latitude and longitude it is called with. *)
Theorem fetched_forecast_is_cached
    (net net2 : string → option JsVal) (now now' t t' : Z)
    (lat lon lat2 lon2 : option JsVal) (s : Store) (url : string)
    (data : JsVal) :
  Weather.is_fresh now (setting_value "weatherCache" JNull s) = Some false →
  Weather.forecast_url lat lon (setting_value "tempUnit" (JStr "fahrenheit") s)
  = Some url →
  net url = Some data →
  JSON.parse (JSON.stringify (Weather.cache_entry data now'))
  = Some (Weather.cache_entry data now') →
  (t - now' < 30 * 60 * 1000)%Z →
  let s1 := store_of (Weather.fetchWeather net now now' lat lon s) in
  Weather.fetchWeather net2 t t' lat2 lon2 s1
  = (Done (Some data), s1, []).
Proof.
  intros Hstale Hurl Hnet Hjson Hlt. cbv zeta.
  rewrite (fetchWeather_refetch net now now' lat lon s Hstale).
  cbv zeta. rewrite Hurl, Hnet. change (store_of (?r, ?x, ?l)) with x.
  set (s1 := store_of (Storage.setSetting "weatherCache"
                         (Weather.cache_entry data now') s)).
  assert (Hcached : setting_value "weatherCache" JNull s1
                    = Weather.cache_entry data now').
  { subst s1. rewrite setting_value_same.
    change (setting_text (Weather.cache_entry data now'))
      with (JSON.stringify (Weather.cache_entry data now')).
    by rewrite Hjson. }
  rewrite fetchWeather_fresh; rewrite Hcached.
  - reflexivity.
  - unfold Weather.is_fresh. rewrite cache_entry_timestamp.
    cbn [truthy Weather.cache_entry fmap option_fmap option_map
         Weather.elapsed_below]. f_equal.
    apply bool_decide_eq_true_2. unfold Weather.CACHE_DURATION. lia.
Qed.

Lemma fetched_forecast_is_cached_witness :
  let s1 := store_of (Weather.fetchWeather network_up 1000000 1000050
                        denton_lat denton_lon empty_store) in
  Weather.fetchWeather network_down (1000050 + 29 * 60 * 1000) 0
    (Some (JNum "40.7128")) (Some (JNum "-74.006")) s1
  = (Done (Some sunny), s1, []).
Proof.
  refine (fetched_forecast_is_cached network_up network_down
            1000000 1000050 (1000050 + 29 * 60 * 1000) 0 denton_lat denton_lon
            (Some (JNum "40.7128")) (Some (JNum "-74.006")) empty_store
            (request_text "33.2148" "-97.1331" "fahrenheit") sunny _ _ _ _ _).
  - vm_compute. reflexivity.
  - vm_compute. reflexivity.
  - reflexivity.
  - vm_compute. reflexivity.
  - vm_compute. reflexivity.
Defined.
